(** * Sc2Harvester: the A3C agent's trajectory processing, log retention and
      checkpoint protocol (src/a3c_agent.py, src/main.py)

    The Python code is embedded shallowly.  Python ints are [Z]; Python and
    numpy floats are rationals [Q], exact (no rounding) except in the
    learning rate, whose operations round as binary64 arithmetic does; numpy
    arrays are lists updated by index; exceptions are an error monad.  The
    neural network, the random generator and the pysc2 function table are
    external to the repository and enter as section variables. *)

From Stdlib Require Import ZArith QArith Qabs Qround Qpower Lqa String.
From stdpp Require Import base option list sorting gmap sets strings pretty.

Local Open Scope Z_scope.

(** ** Exceptions *)

Inductive exn :=
  | IndexError
  | ValueError
  | KeyError
  | AttributeError
  | FileNotFoundError
  | KeyboardInterrupt
  | AssertionError (msg : string).

Inductive result (A : Type) :=
  | Ok (a : A)
  | Raise (e : exn).
Arguments Ok {A} a.
Arguments Raise {A} e.

Global Instance result_ret : MRet result := fun A a => Ok a.
Global Instance result_bind : MBind result := fun A B f m =>
  match m with Ok a => f a | Raise e => Raise e end.

Definition of_option {A} (e : exn) (o : option A) : result A :=
  match o with Some a => Ok a | None => Raise e end.

Definition is_Ok {A} (r : result A) : Prop := ∃ a, r = Ok a.

(** ** Python sequences *)

(** [l[i]] with Python's negative indices. *)
Definition py_index (n : nat) (i : Z) : result nat :=
  if decide (0 ≤ i < Z.of_nat n) then Ok (Z.to_nat i)
  else if decide (- Z.of_nat n ≤ i < 0) then Ok (Z.to_nat (Z.of_nat n + i))
  else Raise IndexError.

Definition getitem {A} (l : list A) (i : Z) : result A :=
  k ← py_index (length l) i; of_option IndexError (l !! k).

Definition setitem {A} (l : list A) (i : Z) (v : A) : result (list A) :=
  k ← py_index (length l) i; Ok (<[k:=v]> l).

(** [l.index(x)]: position of the first occurrence, [ValueError] if absent. *)
Fixpoint list_index (x : Z) (l : list Z) : result Z :=
  match l with
  | [] => Raise ValueError
  | y :: l' => if decide (y = x) then Ok 0 else k ← list_index x l'; Ok (k + 1)
  end.

(** [range(n)] *)
Definition range (n : nat) : list Z := Z.of_nat <$> seq 0 n.

(** A [for] loop whose body may raise. *)
Fixpoint for_each {A S} (xs : list A) (body : A → S → result S) (s : S) : result S :=
  match xs with
  | [] => Ok s
  | x :: xs' => s' ← body x s; for_each xs' body s'
  end.

(** [np.zeros(n)] and [np.zeros((n, m))] *)
Definition zeros (n : nat) : list Q := replicate n 0%Q.
Definition zeros2 (n m : nat) : list (list Q) := replicate n (zeros m).

(** [a[i, j] = v] on a two-dimensional array *)
Definition setitem2 (a : list (list Q)) (i j : Z) (v : Q) : result (list (list Q)) :=
  row ← getitem a i; row' ← setitem row j v; setitem a i row'.

(** [a.sum()] *)
Definition np_sum (a : list Q) : Q := foldr Qplus 0%Q a.

(** [a.mean()] of a one-dimensional array *)
Definition np_mean (a : list Q) : Q := (np_sum a / inject_Z (Z.of_nat (length a)))%Q.

(** ** Python floats *)

(** A Python [float] is an IEEE 754 binary64 number.  It is kept as the
    rational it denotes, and an operation rounds its exact result to the
    nearest number with 53 significant bits, ties to the even mantissa.
    Overflow and subnormal numbers are not modelled. *)

(** [floor(log2 x)] for a positive rational. *)
Definition Qlog2 (x : Q) : Z :=
  let e := Z.log2 (Qnum x) - Z.log2 (QDen x) in
  if Qle_bool (Qpower 2 e) x then e else e - 1.

(** The nearest integer, ties to the even one. *)
Definition round_half_even (m : Q) : Z :=
  let n := Qfloor m in
  match Qcompare (m - inject_Z n) (1 # 2) with
  | Lt => n
  | Gt => n + 1
  | Eq => if Z.even n then n else n + 1
  end.

Definition round64_pos (x : Q) : Q :=
  let ulp := Qpower 2 (Qlog2 x - 52) in
  (inject_Z (round_half_even (x / ulp)) * ulp)%Q.

Definition round64 (x : Q) : Q :=
  Qred (match Qnum x with
        | Z0 => 0
        | Zpos _ => round64_pos x
        | Zneg _ => - round64_pos (- x)
        end)%Q.

(** Half the distance between 1 and the next float, 2^-53. *)
Definition float_eps : Q := 1 # 9007199254740992.

(** A decimal literal, an int converted to float, and the three operations
    of line 338. *)
Definition float (q : Q) : Q := round64 q.
Definition float_of_int (n : Z) : Q := round64 (inject_Z n).
Definition float_mul (x y : Q) : Q := round64 (x * y).
Definition float_div (x y : Q) : Q := round64 (x / y).
Definition float_sub (x y : Q) : Q := round64 (x - y).

(** [np.array_split(ary, Nsections)] along the first axis, as numpy defines
    it: [divmod] gives the size of each section and the number of sections
    that get one more element, the cumulative sums of the sizes are the
    division points, and section [i] is [ary[div_points[i]:div_points[i+1]]]. *)
Fixpoint cumsum_from (acc : nat) (l : list nat) : list nat :=
  match l with
  | [] => []
  | x :: l' => (acc + x)%nat :: cumsum_from (acc + x) l'
  end.
Definition cumsum : list nat → list nat := cumsum_from 0.

Definition slice {A} (l : list A) (st en : nat) : list A := take (en - st) (drop st l).

Definition section_sizes (Ntotal Nsections : nat) : list nat :=
  let Neach_section := (Ntotal / Nsections)%nat in
  let extras := (Ntotal mod Nsections)%nat in
  [0%nat] ++ replicate extras (Neach_section + 1)%nat
          ++ replicate (Nsections - extras) Neach_section.

Definition array_split {A} (ary : list A) (Nsections : nat) : result (list (list A)) :=
  if decide (Nsections ≤ 0)%nat then Raise ValueError
  else
    let div_points := cumsum (section_sizes (length ary) Nsections) in
    Ok ((λ i, slice ary (div_points !!! i) (div_points !!! (i + 1)%nat))
          <$> seq 0 Nsections).

(** The sections of numpy's split: the first [Ntotal mod Nsections] of them
    hold one element more than the others. *)
Definition section_length (Ntotal Nsections i : nat) : nat :=
  (Ntotal / Nsections + (if decide (i < Ntotal mod Nsections) then 1 else 0))%nat.

(** [np.argmax(a)]: the index of the first maximum; numpy raises on an empty
    array.  A masked array is filled with minus infinity before the search,
    so its entries are [None] where masked. *)
Definition Qltb (x y : Q) : bool := (Qnum x * QDen y <? Qnum y * QDen x)%Z.

Definition ext_lt (a b : option Q) : bool :=
  match a, b with
  | _, None => false
  | None, Some _ => true
  | Some x, Some y => Qltb x y
  end.

Fixpoint argmax_from (best_i : nat) (best : option Q) (i : nat) (l : list (option Q)) : nat :=
  match l with
  | [] => best_i
  | x :: l' =>
      if ext_lt best x then argmax_from i x (S i) l'
      else argmax_from best_i best (S i) l'
  end.

Definition ext_argmax (l : list (option Q)) : result Z :=
  match l with
  | [] => Raise ValueError
  | x :: l' => Ok (Z.of_nat (argmax_from 0 x 1 l'))
  end.

Definition np_argmax (a : list Q) : result Z := ext_argmax (Some <$> a).

(** [np.argmax(np.ma.array(a, mask=mask))]; [True] in the mask hides the entry. *)
Definition ma_argmax (a : list Q) (mask : list bool) : result Z :=
  ext_argmax (zip_with (λ x (m : bool), if m then None else Some x) a mask).

(** [chunks] are consecutive sections of [ary], [Nsections] of them, sized
    as numpy sizes them. *)
Definition splits_of {A} (Nsections : nat) (ary : list A) (chunks : list (list A)) : Prop :=
  length chunks = Nsections ∧
  concat chunks = ary ∧
  ∀ i chunk, chunks !! i = Some chunk →
    length chunk = section_length (length ary) Nsections i.

(** The split as the specification words it: near-equal chunks, the final
    one absorbing the remainder. *)
Definition final_chunk_absorbs_remainder {A} (Nsections Ntotal : nat)
    (chunks : list (list A)) : Prop :=
  ∀ i chunk, chunks !! i = Some chunk →
    length chunk =
      if decide (i = Nsections - 1)%nat
      then (Ntotal / Nsections + Ntotal mod Nsections)%nat
      else (Ntotal / Nsections)%nat.

(** [l.sort(key=lambda tup: tup[1], reverse=True)]: Python's sort is stable,
    also when reversed, so pairs with equal values keep their order. *)
Fixpoint insert_desc (x : Z * Z) (l : list (Z * Z)) : list (Z * Z) :=
  match l with
  | [] => [x]
  | y :: l' => if decide (x.2 < y.2) then y :: insert_desc x l' else x :: y :: l'
  end.
Definition sort_desc (l : list (Z * Z)) : list (Z * Z) := foldr insert_desc [] l.

(** ** Module constants of a3c_agent.py *)

Definition A3C_SCREEN_SIZE_X : Z := 32.
Definition A3C_SCREEN_SIZE_Y : Z := 32.
Definition TRAINING : bool := true.
Definition DISCOUNT_FACTOR : Q := 99 # 100.
Definition EXPLORATION_RATE : Q := 2 # 10.
Definition LEARNING_RATE : Q := 1 # 100.
Definition EPSILON : Q := 5 # 100.
Definition NUM_BATCHES : nat := 20.
Definition PARALLEL_THREADS : nat := 16.
Definition MAX_STEPS_TOTAL : Z := 10 * 10 ^ 6.
Definition CHECKPOINT : Z := 500.
Definition DETAILED_LOGS : nat := 10.

(** ** pysc2 function table (external) *)

(** The thirteen functions the agent may execute, in the order of
    [self.executable_actions_ids]. *)
Inductive sc2_function :=
  | no_op | Train_SCV_quick | select_point | select_idle_worker
  | Build_CommandCenter_screen | Build_Refinery_screen | Build_SupplyDepot_screen
  | Harvest_Gather_screen | Harvest_Return_quick
  | Morph_SupplyDepot_Lower_quick | Morph_SupplyDepot_Raise_quick
  | Move_screen | Rally_Workers_screen.

(** An entry of [actions.FUNCTIONS]: its name and the names of its arguments. *)
Record function_info := FunctionInfo { fn_name : string; fn_args : list string }.

(** [name in ('screen')]: the parentheses do not make a tuple, so this is
    Python's substring test on the string ['screen']. *)
Definition in_screen (name : string) : bool :=
  bool_decide (is_Some (String.index 0 name "screen")).

(** ** Transitions *)

Section Agent.
(** Feature arrays fed to the network, and its parameters. *)
Context {Screen Info Weights : Type}.

(** [self.replay_states] holds 6-tuples; the field names carry the tuple
    position. *)
Record replay_state := ReplayState {
  rs0_screen : Screen;
  rs1_non_spatial : Info;
  rs2_reward : Q;
  rs3_collected_minerals : Z;
  rs4_collected_vespene : Z;
  rs5_last : bool }.

(** [self.replay_actions] holds 5-tuples. *)
Record replay_action := ReplayAction {
  ra0_action_id : Z;
  ra1_action_target : Z * Z;
  ra2_valid_actions : list Z;
  ra3_random_action : bool;
  ra4_random_position : bool }.

(** [actions.FUNCTIONS.<f>.id] and [actions.FUNCTIONS[id]] *)
Variable function_id : sc2_function → Z.
Variable FUNCTIONS : Z → option function_info.

Definition executable_actions_ids : list Z :=
  function_id <$>
    [ no_op; Train_SCV_quick; select_point; select_idle_worker;
      Build_CommandCenter_screen; Build_Refinery_screen; Build_SupplyDepot_screen;
      Harvest_Gather_screen; Harvest_Return_quick;
      Morph_SupplyDepot_Lower_quick; Morph_SupplyDepot_Raise_quick;
      Move_screen; Rally_Workers_screen ].

(** The estimator: [session.run(self.nn.value, ...)[0]] on one state, and
    one run of [self.train] on a batch, which returns the two losses and
    changes the parameters. *)
Variable nn_value : Weights → Screen → Info → Q.

(** *** update: the bootstrap value (lines 340-349) *)
Definition bootstrap (w : Weights) (replay_states : list replay_state) : result Q :=
  last_state ← getitem replay_states (-1);
  let last_state_is_terminal := rs5_last last_state in
  if last_state_is_terminal then Ok 0%Q
  else Ok (nn_value w (rs0_screen last_state) (rs1_non_spatial last_state)).

(** *** update: the target arrays (lines 351-391) *)

Record targets := Targets {
  cumulated_rewards : list Q;
  undiscounted_rewards : list Q;
  has_spatial_action : list Q;
  spatial_action_selected : list (list Q);
  valid_non_spatial_action : list (list Q);
  non_spatial_action_selected : list (list Q);
  screen_states : list Screen;
  non_spatial_feature_states : list Info }.

Definition num_actions : nat := length executable_actions_ids.
Definition num_cells : nat := Z.to_nat (A3C_SCREEN_SIZE_X * A3C_SCREEN_SIZE_Y).

(** Lines 351-360: the arrays before the loop. *)
Definition init_targets (T : nat) (R : Q) : result targets :=
  cumulated ← setitem (zeros T) 0 R;
  undiscounted ← setitem (zeros T) 0 R;
  Ok {| cumulated_rewards := cumulated;
        undiscounted_rewards := undiscounted;
        has_spatial_action := zeros T;
        spatial_action_selected := zeros2 T num_cells;
        valid_non_spatial_action := zeros2 T num_actions;
        non_spatial_action_selected := zeros2 T num_actions;
        screen_states := [];
        non_spatial_feature_states := [] |}.

(** Lines 378-380: the legality mask of one transition. *)
Definition valid_actions_indices (valid_actions : list Z) : result (list Q) :=
  for_each valid_actions
    (λ j indices, k ← list_index j executable_actions_ids; setitem indices k 1%Q)
    (replicate num_actions 0%Q).

(** Lines 386-391: the spatial flag and the spatial one-hot of transition [i]. *)
Definition spatial_index (action_target : Z * Z) : Z :=
  action_target.2 * A3C_SCREEN_SIZE_Y + action_target.1.

Definition mark_spatial (i : Z) (action_target : Z * Z) (args : list string)
    (hs : list Q * list (list Q)) : result (list Q * list (list Q)) :=
  for_each args
    (λ arg '(has_spatial, selected),
       if in_screen arg then
         has_spatial' ← setitem has_spatial i 1%Q;
         let index := spatial_index action_target in
         selected' ← setitem2 selected i index 1%Q;
         Ok (has_spatial', selected')
       else Ok (has_spatial, selected))
    hs.

(** Lines 369-391: one turn of the loop, on the reversed buffers. *)
Definition update_body (replay_states : list replay_state)
    (replay_actions : list replay_action) (i : Z) (t : targets) : result targets :=
  s ← getitem replay_states i;
  let scr := rs0_screen s in
  let info := rs1_non_spatial s in
  let reward := rs2_reward s in
  cu ← (if decide (i > 0) then
          prev ← getitem (cumulated_rewards t) (i - 1);
          c ← setitem (cumulated_rewards t) i (reward + DISCOUNT_FACTOR * prev)%Q;
          u ← setitem (undiscounted_rewards t) i reward;
          Ok (c, u)
        else Ok (cumulated_rewards t, undiscounted_rewards t));
  a ← getitem replay_actions i;
  let action_id := ra0_action_id a in
  let action_target := ra1_action_target a in
  let valid_actions := ra2_valid_actions a in
  indices ← valid_actions_indices valid_actions;
  valid ← setitem (valid_non_spatial_action t) i indices;
  k ← list_index action_id executable_actions_ids;
  selected ← setitem2 (non_spatial_action_selected t) i k 1%Q;
  f ← of_option KeyError (FUNCTIONS action_id);
  hs ← mark_spatial i action_target (fn_args f)
         (has_spatial_action t, spatial_action_selected t);
  Ok {| cumulated_rewards := cu.1;
        undiscounted_rewards := cu.2;
        has_spatial_action := hs.1;
        spatial_action_selected := hs.2;
        valid_non_spatial_action := valid;
        non_spatial_action_selected := selected;
        screen_states := screen_states t ++ [scr];
        non_spatial_feature_states := non_spatial_feature_states t ++ [info] |}.

(** Lines 351-391: the arrays after the loop over the reversed buffers. *)
Definition compute_targets (R : Q) (replay_states : list replay_state)
    (replay_actions : list replay_action) : result targets :=
  t0 ← init_targets (length replay_states) R;
  for_each (range (length replay_states))
    (update_body replay_states replay_actions) t0.

(** *** update: the batches and the training runs (lines 410-436) *)

(** The feed dictionary of one run of [self.train]. *)
Record feed := Feed {
  feed_screen : list Screen;
  feed_non_spatial_features : list Info;
  feed_R : list Q;
  feed_has_spatial_action : list Q;
  feed_spatial_action_selected : list (list Q);
  feed_valid_non_spatial_actions : list (list Q);
  feed_non_spatial_action_selected : list (list Q);
  feed_learning_rate : Q }.

(** One run of [[self.train, self.summary_op, self.policy_loss,
    self.value_loss]]: the new parameters and the two losses. *)
Variable train : Weights → feed → Weights * (Q * Q).

(** The TensorFlow session: the network parameters, and the training runs
    issued so far, oldest first. *)
Record session := Session {
  variables : Weights;
  train_runs : list feed }.

(** The arrays of [targets] after the seven calls of [np.array_split]. *)
Record batches := Batches {
  b_screen_states : list (list Screen);
  b_non_spatial_feature_states : list (list Info);
  b_cumulated_rewards : list (list Q);
  b_has_spatial_action : list (list Q);
  b_spatial_action_selected : list (list (list Q));
  b_valid_non_spatial_action : list (list (list Q));
  b_non_spatial_action_selected : list (list (list Q)) }.

Definition split_targets (t : targets) : result batches :=
  s ← array_split (screen_states t) NUM_BATCHES;
  n ← array_split (non_spatial_feature_states t) NUM_BATCHES;
  c ← array_split (cumulated_rewards t) NUM_BATCHES;
  h ← array_split (has_spatial_action t) NUM_BATCHES;
  sp ← array_split (spatial_action_selected t) NUM_BATCHES;
  v ← array_split (valid_non_spatial_action t) NUM_BATCHES;
  ns ← array_split (non_spatial_action_selected t) NUM_BATCHES;
  Ok (Batches s n c h sp v ns).

Definition batch_feed (b : batches) (learning_rate : Q) (i : Z) : result feed :=
  s ← getitem (b_screen_states b) i;
  n ← getitem (b_non_spatial_feature_states b) i;
  c ← getitem (b_cumulated_rewards b) i;
  h ← getitem (b_has_spatial_action b) i;
  sp ← getitem (b_spatial_action_selected b) i;
  v ← getitem (b_valid_non_spatial_action b) i;
  ns ← getitem (b_non_spatial_action_selected b) i;
  Ok (Feed s n c h sp v ns learning_rate).

(** Lines 424-436: one turn of the training loop.  The summary handed to
    [summary_writer] is not modelled. *)
Definition train_body (b : batches) (learning_rate : Q) (i : Z)
    (st : session * list (Q * Q)) : result (session * list (Q * Q)) :=
  feed_dict ← batch_feed b learning_rate i;
  let '(w, (policy_loss, value_loss)) := train (variables st.1) feed_dict in
  Ok (Session w (train_runs st.1 ++ [feed_dict]), st.2 ++ [(policy_loss, value_loss)]).

(** *** The agent and the class-level counters *)

Record agent := Agent {
  agent_id : nat;
  episodes : Z;
  steps : Z;
  replay_states : list replay_state;
  replay_actions : list replay_action }.

Definition set_replay (self : agent) (states : list replay_state)
    (acts : list replay_action) : agent :=
  Agent (agent_id self) (episodes self) (steps self) states acts.

(** *** update (lines 322-443) *)

(** Line 338: [LEARNING_RATE * (1 - 0.9 * STEP_COUNTER / MAX_STEPS_TOTAL)],
    evaluated as Python does: the two literals are floats, the ints are
    converted, and the product, the quotient, the difference and the
    product are each rounded. *)
Definition learning_rate_at (STEP_COUNTER : Z) : Q :=
  float_mul (float LEARNING_RATE)
    (float_sub (float_of_int 1)
       (float_div (float_mul (float (9 # 10)) (float_of_int STEP_COUNTER))
          (float_of_int MAX_STEPS_TOTAL))).

(** The same expression without rounding: the line from LEARNING_RATE at
    step 0 to a tenth of it at MAX_STEPS_TOTAL. *)
Definition learning_rate_line (STEP_COUNTER : Z) : Q :=
  (LEARNING_RATE * (1 - (9 # 10) * inject_Z STEP_COUNTER / inject_Z MAX_STEPS_TOTAL))%Q.

(** The buffers are reversed in place before the loop and reversed again
    after the training runs; the result is the triple
    [(total_rewards, avg_losses[0], avg_losses[1])]. *)
Definition update (STEP_COUNTER : Z) (ses : session) (self : agent)
    : result (session * agent * (Q * Q * Q)) :=
  let learning_rate := learning_rate_at STEP_COUNTER in
  R ← bootstrap (variables ses) (replay_states self);
  let self := set_replay self (reverse (replay_states self)) (reverse (replay_actions self)) in
  t ← compute_targets R (replay_states self) (replay_actions self);
  let total_rewards := np_sum (undiscounted_rewards t) in
  b ← split_targets t;
  r ← for_each (range NUM_BATCHES) (train_body b learning_rate) (ses, []);
  let '(ses, losses) := r in
  let self := set_replay self (reverse (replay_states self)) (reverse (replay_actions self)) in
  Ok (ses, self, (total_rewards, np_mean losses.*1, np_mean losses.*2)).

(** The loop invariant for the two reward arrays after [k] turns. *)
Definition rewards_inv (states : list replay_state) (R : Q) (k : nat) (t : targets) : Prop :=
  length (cumulated_rewards t) = length states ∧
  length (undiscounted_rewards t) = length states ∧
  cumulated_rewards t !! 0%nat = Some R ∧
  undiscounted_rewards t !! 0%nat = Some R ∧
  (∀ (i : nat) s prev, (0 < i < k)%nat → states !! i = Some s →
     cumulated_rewards t !! (i - 1)%nat = Some prev →
     cumulated_rewards t !! i = Some (rs2_reward s + DISCOUNT_FACTOR * prev)%Q) ∧
  (∀ i : nat, (0 < i < k)%nat →
     undiscounted_rewards t !! i = rs2_reward <$> states !! i).

(** *** step (lines 248-320) *)

(** What [step] reads of [obs]: the raw feature layers, from which
    [create_feed_dict] builds the network input, the available action ids,
    the cumulative score vector, the reward and the end-of-episode flag. *)
Context {RawObservation : Type}.
Record timestep := TimeStep {
  obs_observation : RawObservation;
  obs_available_actions : list Z;
  obs_score_cumulative : list Z;
  obs_reward : Q;
  obs_last : bool }.

(** [create_feed_dict] (lines 445-472) scales and reshapes the feature
    layers; only its result enters here. *)
Variable create_feed_dict : RawObservation → list Z → Screen * Info.

(** [session.run([self.nn.non_spatial_action, self.nn.spatial_action], ...)],
    both flattened. *)
Variable nn_policy : Weights → Screen → Info → list Q * list Q.

(** [np.random]: the generator state and the three draws [step] makes. *)
Context {Rng : Type}.
Variable rand : Rng → Q * Rng.
Variable choice : Rng → list Z → result Z * Rng.
Variable randint : Rng → Z → Z → Z * Rng.

(** [list(valid_actions)] (lines 290 and 307): the elements of the set
    [valid_actions] in the iteration order of its hash table, which the
    program does not control.  The set is built from [available_actions]
    alone, so the order is a function of that list. *)
Variable valid_actions_list : list Z → list Z.

(** [FunctionCall(action_id, arguments)] *)
Record function_call := FunctionCall {
  call_function : Z;
  call_arguments : list (list Z) }.

(** Line 271: [set(available_actions).intersection(self.executable_actions_ids)]. *)
Definition valid_actions_of (available_actions : list Z) : gset Z :=
  list_to_set available_actions ∩ list_to_set executable_actions_ids.

(** What is known of [list(valid_actions)]: it lists every element of the
    set once. *)
Definition lists_valid_actions : Prop :=
  ∀ available_actions,
    NoDup (valid_actions_list available_actions) ∧
    ∀ i, i ∈ valid_actions_list available_actions ↔ i ∈ valid_actions_of available_actions.

(** What is known of [np.random.choice(a)]: it draws a position with
    [randint(0, len(a))], uniform on 0 .. len(a) - 1, and returns the
    element there; an empty [a] raises [ValueError]. *)
Definition choice_by_position : Prop :=
  (∀ g, (choice g []).1 = Raise ValueError) ∧
  ∀ g a, a ≠ [] →
    choice g a = (getitem a (randint g 0 (Z.of_nat (length a))).1,
                  (randint g 0 (Z.of_nat (length a))).2).

(** Lines 272-275: the mask, [True] for actions that are not legal. *)
Definition valid_actions_mask (available_actions : list Z) (valid_actions : gset Z)
    : result (list bool) :=
  for_each available_actions
    (λ i mask,
       if decide (i ∈ valid_actions) then
         k ← list_index i executable_actions_ids; setitem mask k false
       else Ok mask)
    (replicate num_actions true).

(** Lines 270-277: the legal action of highest probability. *)
Definition greedy_action (non_spatial_action : list Q) (available_actions : list Z)
    : result Z :=
  let valid_actions := valid_actions_of available_actions in
  mask ← valid_actions_mask available_actions valid_actions;
  k ← ma_argmax non_spatial_action mask;
  getitem executable_actions_ids k.

(** Lines 279-280: the flattened argmax cell as a pair. *)
Definition decode_target (action_target : Z) : Z * Z :=
  (action_target `div` A3C_SCREEN_SIZE_Y, action_target `mod` A3C_SCREEN_SIZE_X).

(** Line 287: the exploration schedule. *)
Definition explore_at (STEP_COUNTER : Z) : Q :=
  ((inject_Z STEP_COUNTER + (1 - EXPLORATION_RATE) * inject_Z MAX_STEPS_TOTAL)
     / inject_Z MAX_STEPS_TOTAL)%Q.

(** [np.random.rand() > explore or np.random.rand() < self.epsilon]: the
    second draw is made only when the first does not exceed the schedule. *)
Definition explore_check (g : Rng) (explore : Q) : bool * Rng :=
  let '(d1, g) := rand g in
  if Qltb explore d1 then (true, g)
  else
    let '(d2, g) := rand g in
    (Qltb d2 EPSILON, g).

(** Lines 289-292: the override of the action. *)
Definition explore_action (g : Rng) (explore : Q) (valid_actions : list Z) (action_id : Z)
    : result (Rng * Z * bool) :=
  let '(hit, g) := explore_check g explore in
  if hit then
    let '(r, g) := choice g valid_actions in
    action_id ← r; Ok (g, action_id, true)
  else Ok (g, action_id, false).

(** Lines 294-296: the override of the target. *)
Definition explore_position (g : Rng) (explore : Q) (action_target : Z * Z)
    : Rng * (Z * Z) * bool :=
  let '(hit, g) := explore_check g explore in
  if hit then
    let '(y, g) := randint g 0 (A3C_SCREEN_SIZE_Y - 1) in
    let '(x, g) := randint g 0 (A3C_SCREEN_SIZE_X - 1) in
    (g, (y, x), true)
  else (g, action_target, false).

(** Lines 309-315: the arguments of the call. *)
Definition call_arguments_of (f : function_info) (action_target : Z * Z) : list (list Z) :=
  (λ arg, if in_screen arg then [action_target.1; action_target.2] else [0]) <$> fn_args f.

(** One step of the agent.  The class counter [STEP_COUNTER] is read at the
    start and written back incremented; the steps of other workers in
    between are not modelled. *)
Definition step (g : Rng) (STEP_COUNTER : Z) (ses : session) (self : agent) (obs : timestep)
    : result (Rng * Z * session * agent * function_call) :=
  let self := Agent (agent_id self) (episodes self) (steps self + 1)
                (replay_states self) (replay_actions self) in
  if decide (STEP_COUNTER >= MAX_STEPS_TOTAL) then
    _ ← update STEP_COUNTER ses self; Raise KeyboardInterrupt
  else
    let nn_input := create_feed_dict (obs_observation obs) (obs_available_actions obs) in
    let '(non_spatial_action, spatial_action) :=
      nn_policy (variables ses) nn_input.1 nn_input.2 in
    let available_actions := obs_available_actions obs in
    let valid_actions := valid_actions_list available_actions in
    action_id ← greedy_action non_spatial_action available_actions;
    action_target ← np_argmax spatial_action;
    let action_target := decode_target action_target in
    r ← (if TRAINING then
           let explore := explore_at STEP_COUNTER in
           r ← explore_action g explore valid_actions action_id;
           let '(g, action_id, random_action) := r in
           let '(g, action_target, random_position) :=
             explore_position g explore action_target in
           Ok (g, action_id, action_target, random_action, random_position)
         else Ok (g, action_id, action_target, false, false));
    let '(g, action_id, action_target, random_action, random_position) := r in
    collected_minerals ← getitem (obs_score_cumulative obs) 7;
    collected_vespene ← getitem (obs_score_cumulative obs) 8;
    let self :=
      set_replay self
        (replay_states self ++
           [ReplayState nn_input.1 nn_input.2 (obs_reward obs)
              collected_minerals collected_vespene (obs_last obs)])
        (replay_actions self ++
           [ReplayAction action_id action_target valid_actions
              random_action random_position]) in
    f ← of_option KeyError (FUNCTIONS action_id);
    let arguments := call_arguments_of f action_target in
    Ok (g, STEP_COUNTER + 1, ses, self, FunctionCall action_id arguments).

(** *** The action log (lines 536-605) *)

(** An [action] element and an [episode] element of a worker's XML log.
    Attributes are written with [str] and read back with [int]; they are
    kept here as the values themselves. *)
Record action_entry := ActionEntry {
  ae_name : string;
  ae_x : Z;
  ae_y : Z;
  ae_random_action : bool;
  ae_random_position : bool;
  ae_collected_minerals : Z;
  ae_collected_gas : Z }.

Record episode_entry := EpisodeEntry {
  num_global : Z;
  num_agent : Z;
  total_collected_minerals : Z;
  total_collected_gas : Z;
  loss_actor : Q;
  loss_critic : Q;
  reward : Q;
  actions : list action_entry }.

(** The attributes of an episode, without its action elements. *)
Definition summary (t : episode_entry) : Z * Z * Z * Z * Q * Q * Q :=
  (num_global t, num_agent t, total_collected_minerals t, total_collected_gas t,
   loss_actor t, loss_critic t, reward t).

(** Lines 558-567: the (episode, value) pairs of the new episode and of the
    episodes in the log. *)
Definition minerals_per_episode (episodes value : Z)
    (tree : list episode_entry) : list (Z * Z) :=
  (episodes, value)
    :: ((λ t, (num_agent t, total_collected_minerals t)) <$> tree).
Definition gas_per_episode (episodes value : Z)
    (tree : list episode_entry) : list (Z * Z) :=
  (episodes, value)
    :: ((λ t, (num_agent t, total_collected_gas t)) <$> tree).

(** Lines 571-574, with [mins] and [gas] the two lists of pairs. *)
Definition kept_episodes (episodes : Z) (mins gas : list (Z * Z)) : gset Z :=
  list_to_set
    (((take DETAILED_LOGS (sort_desc mins) ++ take DETAILED_LOGS (sort_desc gas)).*1)
     ++ seqZ (episodes - Z.of_nat DETAILED_LOGS + 1) (Z.of_nat DETAILED_LOGS)).
Definition other_episodes (episodes : Z) (mins gas : list (Z * Z)) : gset Z :=
  list_to_set ((sort_desc mins ++ sort_desc gas).*1) ∖ kept_episodes episodes mins gas.

(** Lines 586-598: the action elements of the new episode. *)
Definition performed_action (replay_states : list replay_state)
    (ia : nat * replay_action) : result action_entry :=
  let '(i, action) := ia in
  f ← of_option KeyError (FUNCTIONS (ra0_action_id action));
  s ← getitem replay_states (Z.of_nat i);
  let collected_minerals := rs4_collected_vespene s in
  let collected_gas := Z.b2z (rs5_last s) in
  Ok (ActionEntry (fn_name f) (ra1_action_target action).1 (ra1_action_target action).2
        (ra3_random_action action) (ra4_random_position action)
        collected_minerals collected_gas).

Fixpoint map_result {A B} (f : A → result B) (l : list A) : result (list B) :=
  match l with
  | [] => Ok []
  | x :: l' => y ← f x; ys ← map_result f l'; Ok (y :: ys)
  end.

(** Lines 601-603: [tree.find] gives the first episode with that number, and
    its action elements are removed. *)
Definition clear_actions (t : episode_entry) : episode_entry :=
  EpisodeEntry (num_global t) (num_agent t) (total_collected_minerals t)
    (total_collected_gas t) (loss_actor t) (loss_critic t) (reward t) [].

Fixpoint remove_actions (e : Z) (tree : list episode_entry) : result (list episode_entry) :=
  match tree with
  | [] => Raise AttributeError
  | t :: tree' =>
      if decide (num_agent t = e) then Ok (clear_actions t :: tree')
      else tree'' ← remove_actions e tree'; Ok (t :: tree'')
  end.

(** [save_action_log]: [log] is [A3CAgent.action_logs[self.agent_id]], the
    result is the tree stored there at the end. *)
Definition save_action_log (log : option (list episode_entry)) (self : agent)
    (num_episode : Z) (reward policy_loss value_loss : Q) : result (list episode_entry) :=
  let tree := default [] log in
  last_state ← getitem (replay_states self) (-1);
  let total_collected_minerals := rs4_collected_vespene last_state in
  let total_collected_gas := Z.b2z (rs5_last last_state) in
  let mins := minerals_per_episode (episodes self) total_collected_minerals tree in
  let gas := gas_per_episode (episodes self) total_collected_gas tree in
  let kept := kept_episodes (episodes self) mins gas in
  let other := other_episodes (episodes self) mins gas in
  trace ← (if decide (episodes self ∈ kept) then
             map_result (performed_action (replay_states self))
               (imap pair (replay_actions self))
           else Ok []);
  let log_entry :=
    EpisodeEntry num_episode (episodes self) total_collected_minerals total_collected_gas
      policy_loss value_loss reward trace in
  for_each (elements other) remove_actions (tree ++ [log_entry]).

(** *** Class attributes, files and checkpoints (lines 474-534) *)

(** [A3CAgent.STEP_COUNTER], [A3CAgent.EPISODE_COUNTER] and
    [A3CAgent.action_logs]; the lock around the counters is not modelled. *)
Record class_state := ClassState {
  STEP_COUNTER : Z;
  EPISODE_COUNTER : Z;
  action_logs : gmap nat (option (list episode_entry)) }.

(** The files under [SAVE_PATH] and [LOG_PATH]: whether the directory
    exists, the pickled tuple, the TensorFlow checkpoint and the XML log of
    each agent.  Writing a tree and parsing it back is taken to give the tree. *)
Record file_system := FileSystem {
  fs_save_path : bool;
  fs_python_vars : option (Z * Z * Z * Z);
  fs_checkpoint : option Weights;
  fs_logs : gmap nat (list episode_entry) }.

(** Lines 493-497: the XML file of one agent; a log that is still [None]
    has no [getroot]. *)
Definition write_log (kv : nat * option (list episode_entry)) (fs : file_system)
    : result file_system :=
  tree ← of_option AttributeError kv.2;
  Ok (FileSystem (fs_save_path fs) (fs_python_vars fs) (fs_checkpoint fs)
        (<[kv.1 := tree]> (fs_logs fs))).

Definition save_checkpoint (fs : file_system) (cls : class_state) (ses : session)
    (global_steps global_episodes : Z) : result file_system :=
  let action_logs := action_logs cls in
  let fs := FileSystem true
              (Some (global_steps, global_episodes, A3C_SCREEN_SIZE_Y, A3C_SCREEN_SIZE_X))
              (Some (variables ses)) (fs_logs fs) in
  for_each (map_to_list action_logs) write_log fs.

(** Line 528: the message printed when an agent's XML file is missing. *)
Definition missing_log_message (agent_id : nat) : string :=
  "Could not find XML file for agent " +:+ pretty agent_id.

(** [load_checkpoint]; [out] is what has been printed so far.  The result
    carries the return value [loaded_successfully]. *)
Definition load_checkpoint (fs : file_system) (cls : class_state) (ses : session)
    (self : agent) (out : list string)
    : result (class_state * session * agent * list string * bool) :=
  if negb (fs_save_path fs) then Raise FileNotFoundError
  else
    python_vars ← of_option FileNotFoundError (fs_python_vars fs);
    let '(v0, v1, v2, v3) := python_vars in
    let cls := ClassState v0 v1 (action_logs cls) in
    let screen_x := v2 in
    let screen_y := v3 in
    if negb (screen_x =? A3C_SCREEN_SIZE_X) then
      Raise (AssertionError "Agent was trained for a different resolution (X-axis)")
    else if negb (screen_y =? A3C_SCREEN_SIZE_Y) then
      Raise (AssertionError "Agent was trained for a different resolution (Y-axis)")
    else
      r ← match fs_logs fs !! agent_id self with
          | Some tree =>
              let cls := ClassState (STEP_COUNTER cls) (EPISODE_COUNTER cls)
                           (<[agent_id self := Some tree]> (action_logs cls)) in
              last_episode ← getitem tree (-1);
              Ok (cls,
                  Agent (agent_id self) (num_agent last_episode) (steps self)
                    (replay_states self) (replay_actions self),
                  out, true)
          | None =>
              Ok (cls, self,
                  out ++ [missing_log_message (agent_id self)],
                  false)
          end;
      let '(cls, self, out, loaded_successfully) := r in
      w ← of_option AttributeError (fs_checkpoint fs);
      Ok (cls, Session w (train_runs ses), self, out, loaded_successfully).

(** No XML file holds a log without episodes. *)
Definition logs_nonempty (fs : file_system) : Prop :=
  ∀ k tree, fs_logs fs !! k = Some tree → tree ≠ [].

(** *** reset (lines 208-246) *)

(** The progress messages and the episode clock are not modelled. *)
Definition reset (fs : file_system) (cls : class_state) (ses : session) (self : agent)
    : result (file_system * class_state * session * agent) :=
  if negb TRAINING then
    Ok (fs, cls, ses,
        Agent (agent_id self) (episodes self + 1) 0 (replay_states self) (replay_actions self))
  else if decide (0 < length (replay_states self))%nat then
    let self := Agent (agent_id self) (episodes self + 1) 0
                  (replay_states self) (replay_actions self) in
    let cls := ClassState (STEP_COUNTER cls) (EPISODE_COUNTER cls + 1) (action_logs cls) in
    let global_episode := EPISODE_COUNTER cls in
    let global_steps := STEP_COUNTER cls in
    r ← update (STEP_COUNTER cls) ses self;
    let '(ses, self, (reward, policy_loss, value_loss)) := r in
    log ← of_option KeyError (action_logs cls !! agent_id self);
    tree ← save_action_log log self global_episode reward policy_loss value_loss;
    let cls := ClassState (STEP_COUNTER cls) (EPISODE_COUNTER cls)
                 (<[agent_id self := Some tree]> (action_logs cls)) in
    let self := set_replay self [] [] in
    if decide (global_episode `mod` CHECKPOINT = 0) then
      fs ← save_checkpoint fs cls ses global_steps global_episode;
      Ok (fs, cls, ses, self)
    else Ok (fs, cls, ses, self)
  else Ok (fs, cls, ses, self).

(** *** start_a3c_agent (main.py, lines 47-91) *)

(** [A3CAgent(session, i, summary_writer)]: a fresh agent, whose entry in
    [action_logs] is set to [None]. *)
Definition new_agent (cls : class_state) (i : nat) : class_state * agent :=
  (ClassState (STEP_COUNTER cls) (EPISODE_COUNTER cls) (<[i := None]> (action_logs cls)),
   Agent i 0 0 [] []).

(** [session.run(tf.global_variables_initializer())] *)
Variable initial_weights : Weights.

(** Lines 72-80: one turn of the loop that builds [agents]. *)
Definition start_agent (fs : file_system) (i : nat)
    (st : class_state * session * list agent * list string)
    : result (class_state * session * list agent * list string) :=
  let '(cls, ses, agents, out) := st in
  let '(cls, new) := new_agent cls i in
  if fs_save_path fs then
    r ← load_checkpoint fs cls ses new out;
    let '(cls, ses, new, out, loaded) := r in
    if (loaded : bool) then Ok (cls, ses, agents ++ [new], out)
    else Ok (cls, ses, agents, out)
  else Ok (cls, ses, agents ++ [new], out).

(** The agents for which a thread is started, with the class attributes, the
    session and the printed output at that point. *)
Definition start_a3c_agent (fs : file_system) (cls : class_state) (ses : session)
    : result (class_state * session * list agent * list string) :=
  let parallel := if negb TRAINING then 1%nat else PARALLEL_THREADS in
  r ← for_each (seq 0 parallel) (start_agent fs) (cls, ses, [], []);
  let '(cls, ses, agents, out) := r in
  Ok (cls, Session initial_weights (train_runs ses), agents, out).

(** The loop of [start_a3c_agent] after [k] turns on the files [fs], whose
    pickled counters are [s] and [e]: the agents kept are those whose log
    was found; for every other one the message was printed and its entry in
    [action_logs] is still [None]. *)
Definition start_inv (fs : file_system) (s e : Z) (k : nat)
    (st : class_state * session * list agent * list string) : Prop :=
  let cls := fst (fst (fst st)) in
  let agents := snd (fst st) in
  let out := snd st in
  agent_id <$> agents = filter (λ i, is_Some (fs_logs fs !! i)) (seq 0 k) ∧
  (∀ i, (i < k)%nat → fs_logs fs !! i = None →
     missing_log_message i ∈ out ∧ action_logs cls !! i = Some None) ∧
  ((0 < k)%nat → STEP_COUNTER cls = s ∧ EPISODE_COUNTER cls = e).

(** The retained set [save_action_log] computes when the buffer ends in
    [last_state]: the ten best episodes by each of the two recorded totals
    and the ten most recent episode numbers. *)
Definition retained_set (tree : list episode_entry) (self : agent)
    (last_state : replay_state) : gset Z :=
  kept_episodes (episodes self)
    (minerals_per_episode (episodes self) (rs4_collected_vespene last_state) tree)
    (gas_per_episode (episodes self) (Z.b2z (rs5_last last_state)) tree).

(** A buffer whose trace can be written: a state for every action, and
    actions pysc2 knows. *)
Definition loggable (self : agent) : Prop :=
  (length (replay_actions self) ≤ length (replay_states self))%nat ∧
  Forall (λ a, is_Some (FUNCTIONS (ra0_action_id a))) (replay_actions self).

(** The episodes of a log that still have action elements. *)
Definition traced_episodes (tree : list episode_entry) : gset Z :=
  list_to_set (num_agent <$> filter (λ t, actions t ≠ []) tree).

(** The loop keeps every array at the length of the buffer, every row at
    its width, and has collected the feature arrays of the first [k]
    transitions. *)
Definition shape_inv (states : list replay_state) (k : nat) (t : targets) : Prop :=
  length (cumulated_rewards t) = length states ∧
  length (undiscounted_rewards t) = length states ∧
  length (has_spatial_action t) = length states ∧
  length (spatial_action_selected t) = length states ∧
  Forall (λ row, length row = num_cells) (spatial_action_selected t) ∧
  length (valid_non_spatial_action t) = length states ∧
  length (non_spatial_action_selected t) = length states ∧
  Forall (λ row, length row = num_actions) (non_spatial_action_selected t) ∧
  screen_states t = rs0_screen <$> take k states ∧
  non_spatial_feature_states t = rs1_non_spatial <$> take k states.

(** What [step] records: an executable action among executable legal
    actions, known to pysc2, with a target inside the flattened grid. *)
Definition wf_action (a : replay_action) : Prop :=
  ra0_action_id a ∈ executable_actions_ids ∧
  Forall (λ j, j ∈ executable_actions_ids) (ra2_valid_actions a) ∧
  is_Some (FUNCTIONS (ra0_action_id a)) ∧
  0 ≤ spatial_index (ra1_action_target a) < A3C_SCREEN_SIZE_X * A3C_SCREEN_SIZE_Y.

(** A buffer [update] can process: one action per state, at least one. *)
Definition wf_buffer (self : agent) : Prop :=
  replay_states self ≠ [] ∧
  length (replay_actions self) = length (replay_states self) ∧
  Forall wf_action (replay_actions self).

(** The batches are the splits of the target arrays. *)
Definition batches_of (t : targets) (b : batches) : Prop :=
  splits_of NUM_BATCHES (screen_states t) (b_screen_states b) ∧
  splits_of NUM_BATCHES (non_spatial_feature_states t) (b_non_spatial_feature_states b) ∧
  splits_of NUM_BATCHES (cumulated_rewards t) (b_cumulated_rewards b) ∧
  splits_of NUM_BATCHES (has_spatial_action t) (b_has_spatial_action b) ∧
  splits_of NUM_BATCHES (spatial_action_selected t) (b_spatial_action_selected b) ∧
  splits_of NUM_BATCHES (valid_non_spatial_action t) (b_valid_non_spatial_action b) ∧
  splits_of NUM_BATCHES (non_spatial_action_selected t) (b_non_spatial_action_selected b).

(** The feeds of the first [k] training runs are the first [k] batches. *)
Definition feeds_are (b : batches) (learning_rate : Q) (k : nat) (feeds : list feed) : Prop :=
  feed_screen <$> feeds = take k (b_screen_states b) ∧
  feed_non_spatial_features <$> feeds = take k (b_non_spatial_feature_states b) ∧
  feed_R <$> feeds = take k (b_cumulated_rewards b) ∧
  feed_has_spatial_action <$> feeds = take k (b_has_spatial_action b) ∧
  feed_spatial_action_selected <$> feeds = take k (b_spatial_action_selected b) ∧
  feed_valid_non_spatial_actions <$> feeds = take k (b_valid_non_spatial_action b) ∧
  feed_non_spatial_action_selected <$> feeds = take k (b_non_spatial_action_selected b) ∧
  Forall (λ f, feed_learning_rate f = learning_rate) feeds.

(** The training loop after [k] turns, started in session [ses0]. *)
Definition train_inv (ses0 : session) (b : batches) (learning_rate : Q) (k : nat)
    (st : session * list (Q * Q)) : Prop :=
  ∃ feeds, train_runs st.1 = train_runs ses0 ++ feeds ∧
    length st.2 = k ∧ feeds_are b learning_rate k feeds.

(** The training feeds put together give back every target array. *)
Definition feeds_cover (feeds : list feed) (t : targets) : Prop :=
  concat (feed_screen <$> feeds) = screen_states t ∧
  concat (feed_non_spatial_features <$> feeds) = non_spatial_feature_states t ∧
  concat (feed_R <$> feeds) = cumulated_rewards t ∧
  concat (feed_has_spatial_action <$> feeds) = has_spatial_action t ∧
  concat (feed_spatial_action_selected <$> feeds) = spatial_action_selected t ∧
  concat (feed_valid_non_spatial_actions <$> feeds) = valid_non_spatial_action t ∧
  concat (feed_non_spatial_action_selected <$> feeds) = non_spatial_action_selected t.

(** Every array of one feed holds [n] samples. *)
Definition feed_size (f : feed) (n : nat) : Prop :=
  length (feed_screen f) = n ∧
  length (feed_non_spatial_features f) = n ∧
  length (feed_R f) = n ∧
  length (feed_has_spatial_action f) = n ∧
  length (feed_spatial_action_selected f) = n ∧
  length (feed_valid_non_spatial_actions f) = n ∧
  length (feed_non_spatial_action_selected f) = n.

End Agent.

(** [t] without its action elements when its episode number satisfies [P]. *)
Definition clear_if (P : Z → Prop) `{!∀ e, Decision (P e)} (t : episode_entry) : episode_entry :=
  if decide (P (num_agent t)) then clear_actions t else t.

(** ** A sample instantiation

    A function table with ids and argument names in the manner of pysc2's
    for the thirteen functions, a network whose value output is the constant
    10 and whose training run reports the losses 1 and 2, and feature arrays
    without content. *)

Definition sample_function_id (f : sc2_function) : Z :=
  match f with
  | no_op => 0 | Train_SCV_quick => 490 | select_point => 2
  | select_idle_worker => 6 | Build_CommandCenter_screen => 44
  | Build_Refinery_screen => 79 | Build_SupplyDepot_screen => 91
  | Harvest_Gather_screen => 264 | Harvest_Return_quick => 269
  | Morph_SupplyDepot_Lower_quick => 318 | Morph_SupplyDepot_Raise_quick => 319
  | Move_screen => 331 | Rally_Workers_screen => 343
  end.

Definition sample_FUNCTIONS (id : Z) : option function_info :=
  if decide (id = 0) then Some (FunctionInfo "no_op" [])
  else if decide (id = 2) then Some (FunctionInfo "select_point" ["select_point_act"; "screen"])
  else if decide (id = 6) then Some (FunctionInfo "select_idle_worker" ["select_worker"])
  else if decide (id = 44) then Some (FunctionInfo "Build_CommandCenter_screen" ["queued"; "screen"])
  else if decide (id = 79) then Some (FunctionInfo "Build_Refinery_screen" ["queued"; "screen"])
  else if decide (id = 91) then Some (FunctionInfo "Build_SupplyDepot_screen" ["queued"; "screen"])
  else if decide (id = 264) then Some (FunctionInfo "Harvest_Gather_screen" ["queued"; "screen"])
  else if decide (id = 269) then Some (FunctionInfo "Harvest_Return_quick" ["queued"])
  else if decide (id = 318) then Some (FunctionInfo "Morph_SupplyDepot_Lower_quick" ["queued"])
  else if decide (id = 319) then Some (FunctionInfo "Morph_SupplyDepot_Raise_quick" ["queued"])
  else if decide (id = 331) then Some (FunctionInfo "Move_screen" ["queued"; "screen"])
  else if decide (id = 343) then Some (FunctionInfo "Rally_Workers_screen" ["queued"; "screen"])
  else if decide (id = 490) then Some (FunctionInfo "Train_SCV_quick" ["queued"])
  else None.

Definition sample_nn_value (w : unit) (scr info : unit) : Q := 10%Q.
Definition sample_train (w : unit) (f : @feed unit unit) : unit * (Q * Q) := (tt, (1%Q, 2%Q)).

(** A transition with reward [r] and terminal flag [l], and a [no_op] action. *)
Definition sample_state (r : Q) (l : bool) : @replay_state unit unit :=
  ReplayState tt tt r 0 0 l.
Definition sample_no_op : replay_action := ReplayAction 0 (0, 0) [0] false false.

(** The three-step episode with chronological rewards 1, 2, 3 that does not
    end in a terminal state. *)
Definition sample_states : list (@replay_state unit unit) :=
  [sample_state 1 false; sample_state 2 false; sample_state 3 false].
Definition sample_actions : list replay_action := [sample_no_op; sample_no_op; sample_no_op].

Definition sample_update (self_states : list (@replay_state unit unit))
    (self_actions : list replay_action) :=
  update sample_function_id sample_FUNCTIONS sample_nn_value sample_train
    0 (Session tt []) (Agent 0 1 0 self_states self_actions).

(** An episode of 21 steps, one more than [NUM_BATCHES]. *)
Definition sample_long_states : list (@replay_state unit unit) :=
  replicate 21 (sample_state 1 false).
Definition sample_long_actions : list replay_action := replicate 21 sample_no_op.

(** The value a computation returned, [d] if it raised. *)
Definition from_Ok {A} (d : A) (r : result A) : A :=
  match r with Ok a => a | Raise _ => d end.

Definition no_outcome : @session unit unit unit * @agent unit unit * (Q * Q * Q) :=
  (Session tt [], Agent 0 0 0 [] [], (0, 0, 0)%Q).

(** A generator that replays a tape of uniform variates in [0, 1), one half
    once the tape is used up; a choice picks the element at the scaled
    variate. *)
Definition tape_rand (g : list Q) : Q * list Q :=
  match g with
  | [] => (1 # 2, [])
  | d :: g' => (d, g')
  end.
Definition tape_choice (g : list Q) (l : list Z) : result Z * list Q :=
  let '(d, g') := tape_rand g in
  (if decide (l = []) then Raise ValueError
   else getitem l (Qfloor (d * inject_Z (Z.of_nat (length l)))), g').
Definition tape_randint (g : list Q) (low high : Z) : Z * list Q :=
  let '(d, g') := tape_rand g in
  (low + Qfloor (d * inject_Z (high - low)), g').

(** A policy network that prefers [Move_screen] (position 11 among the
    executable actions) and the cell with flattened index 1. *)
Definition sample_nn_policy (w : unit) (scr info : unit) : list Q * list Q :=
  (replicate 11 0%Q ++ [1%Q; 0%Q], [0%Q; 1%Q] ++ replicate 1022 0%Q).

(** An observation in which [no_op] and [Move_screen] are available. *)
Definition sample_obs : @timestep unit :=
  TimeStep tt [0; 331] (replicate 13 0) 0%Q false.

(** An iteration order for the samples: that of first occurrence in
    [available_actions], which is the order CPython gives for the set
    {0, 331} of the sample observation. *)
Definition sample_valid_actions_list (available_actions : list Z) : list Z :=
  filter (λ i, i ∈ executable_actions_ids sample_function_id)
    (remove_dups available_actions).

Definition sample_step (g : list Q) (STEP_COUNTER : Z) (self : @agent unit unit) :=
  step sample_function_id sample_FUNCTIONS sample_nn_value sample_train
    (λ _ _, (tt, tt)) sample_nn_policy tape_rand tape_choice tape_randint
    sample_valid_actions_list
    g STEP_COUNTER (Session tt []) self sample_obs.

(** One greedy step from an empty buffer, evaluated: no draw on the tape
    triggers exploration. *)
Definition no_step_outcome
    : list Q * Z * @session unit unit unit * @agent unit unit * function_call :=
  ([], 0, Session tt [], Agent 0 0 0 [] [], FunctionCall 0 []).
Definition sample_step_outcome :=
  Eval vm_compute in from_Ok no_step_outcome (sample_step [] 0 (Agent 0 0 0 [] [])).

(** The same step when the first draw exceeds the schedule and the choice
    variate is 0.75. *)
Definition sample_random_step_outcome :=
  Eval vm_compute in
    from_Ok no_step_outcome (sample_step [9 # 10; 3 # 4] 0 (Agent 0 0 0 [] [])).

(** [update] after the greedy step, evaluated. *)
Definition sample_step_update_outcome :=
  Eval vm_compute in
    from_Ok no_outcome
      (update sample_function_id sample_FUNCTIONS sample_nn_value sample_train
         1 (Session tt []) sample_step_outcome.1.2).

(** What [update] returns on the two sample episodes, evaluated. *)
Definition sample_outcome : @session unit unit unit * @agent unit unit * (Q * Q * Q) :=
  Eval vm_compute in from_Ok no_outcome (sample_update sample_states sample_actions).
Definition sample_long_outcome : @session unit unit unit * @agent unit unit * (Q * Q * Q) :=
  Eval vm_compute in from_Ok no_outcome (sample_update sample_long_states sample_long_actions).

(** The target arrays of the three-step episode, evaluated. *)
Definition sample_targets : @targets unit unit :=
  Eval vm_compute in
    from_Ok (Targets [] [] [] [] [] [] [] [])
      (compute_targets sample_function_id sample_FUNCTIONS 10
         (reverse sample_states) (reverse sample_actions)).

(** A worker's log over a run of episodes: episode [k] ends, in a terminal
    state, with the cumulative score [v] at position 8, and is appended with
    [self.episodes = k]. *)
Definition sample_log_agent (k v : Z) : @agent unit unit :=
  Agent 0 k 0 [ReplayState tt tt 0 0 v true] [sample_no_op].
Definition log_episode (log : option (list episode_entry)) (k v : Z)
    : result (list episode_entry) :=
  save_action_log sample_FUNCTIONS log (sample_log_agent k v) k 0 0 0.
Fixpoint log_episodes (log : option (list episode_entry)) (k : Z) (vs : list Z)
    : result (option (list episode_entry)) :=
  match vs with
  | [] => Ok log
  | v :: vs' => tree ← log_episode log k v; log_episodes (Some tree) (k + 1) vs'
  end.

(** Twenty episodes: the first ten and the twentieth score 5, the others 0. *)
Definition sample_scores : list Z := replicate 10 5 ++ replicate 9 0 ++ [5].
Definition sample_log_20 : option (list episode_entry) :=
  Eval vm_compute in from_Ok None (log_episodes None 1 sample_scores).
(** The log after a twenty-first episode that scores 0. *)
Definition sample_log_21 : list episode_entry :=
  Eval vm_compute in from_Ok [] (log_episode sample_log_20 21 0).

(** A checkpoint of agent 0 after the sample run, written into an empty
    file system at step 100 of global episode 500. *)
Definition empty_fs : @file_system unit := FileSystem false None None ∅.
Definition sample_class : class_state := ClassState 100 500 {[0%nat := Some sample_log_21]}.
Definition sample_saved_fs : @file_system unit :=
  Eval vm_compute in
    from_Ok empty_fs
      (save_checkpoint (Screen:=unit) (Info:=unit) empty_fs sample_class
         (Session tt []) 100 500).

(** The same files when the log of agent 3 is missing and those of the other
    fifteen agents are there. *)
Definition sample_resume_fs : @file_system unit :=
  FileSystem true (Some (100, 500, 32, 32)) (Some tt)
    (list_to_map ((λ i, (i, sample_log_21)) <$> filter (λ i, i ≠ 3%nat) (seq 0 16))).

Definition sample_start :=
  start_a3c_agent (Screen:=unit) (Info:=unit) tt sample_resume_fs
    (ClassState 0 0 ∅) (Session tt []).
Definition sample_start_outcome
    : class_state * @session unit unit unit * list (@agent unit unit) * list string :=
  Eval vm_compute in from_Ok (ClassState 0 0 ∅, Session tt [], [], []) sample_start.

(** The resume as the specification words it: worker [k] is started, with
    zero prior episodes. *)
Definition started_from_zero (agents : list (@agent unit unit)) (k : nat) : Prop :=
  ∃ a, a ∈ agents ∧ agent_id a = k ∧ episodes a = 0.

(** The retention rule as the specification words it: after an append the
    episodes that have a trace are exactly the retained set. *)
Definition trace_iff_retained (tree' : list episode_entry) (kept : gset Z) : Prop :=
  traced_episodes tree' = kept.

(** The worked example as the specification words it: reversed returns
    10, 12.9 and about 14.77. *)
Definition worked_example_as_specified (returns : list Q) : Prop :=
  ∃ r0 r1 r2, returns = [r0; r1; r2] ∧
    (r0 == 10)%Q ∧ (r1 == 129 # 10)%Q ∧ (Qabs (r2 - (1477 # 100)) <= 1 # 100)%Q.

(** ** A generator with well-ranged draws

    The state counts the draws: [rand] gives the hundredths 0.00, 0.01, ...,
    [choice] and [randint] take the count modulo the number of alternatives. *)
Definition clock_rand (n : nat) : Q * nat := (Z.of_nat (n mod 100) # 100, S n).
Definition clock_choice (n : nat) (l : list Z) : result Z * nat :=
  (of_option ValueError (l !! (n mod length l)%nat), S n).
Definition clock_randint (n : nat) (low high : Z) : Z * nat :=
  (low + Z.of_nat n `mod` (high - low), S n).

Definition sample_clock_step (n : nat) (STEP_COUNTER : Z) (self : @agent unit unit) :=
  step sample_function_id sample_FUNCTIONS sample_nn_value sample_train
    (λ _ _, (tt, tt)) sample_nn_policy clock_rand clock_choice clock_randint
    sample_valid_actions_list n STEP_COUNTER (Session tt []) self sample_obs.

Definition no_clock_outcome
    : nat * Z * @session unit unit unit * @agent unit unit * function_call :=
  (0%nat, 0, Session tt [], Agent 0 0 0 [] [], FunctionCall 0 []).
(** The first step of a run, and a step late in the run, evaluated. *)
Definition sample_clock_outcome :=
  Eval vm_compute in from_Ok no_clock_outcome (sample_clock_step 0 0 (Agent 0 0 0 [] [])).
Definition sample_late_outcome :=
  Eval vm_compute in
    from_Ok no_clock_outcome (sample_clock_step 0 2000000 (Agent 0 0 0 [] [])).

(** The log of a worker that has finished [episodes] episodes: the episode
    numbers in it increase and none exceeds [episodes]. *)
Definition log_sorted (log : option (list episode_entry)) (episodes : Z) : Prop :=
  StronglySorted Z.lt (num_agent <$> default [] log) ∧
  Forall (λ t, num_agent t ≤ episodes) (default [] log).

(** The class attributes when worker 0 has been created and has not
    finished an episode, after [e] global episodes; and the same with a
    second worker. *)
Definition sample_fresh_class (e : Z) : class_state := ClassState 100 e {[0%nat := None]}.
Definition sample_pair_class (e : Z) : class_state :=
  ClassState 100 e {[0%nat := None; 1%nat := None]}.

(** Row [i] of the target arrays, for the recorded action [a]: the one-hot
    of the action among the executable ones, the mask of its valid actions,
    and, when the function of the action takes a screen argument, the flag
    and the one-hot of the target cell (else a zero flag and a zero row). *)
Definition target_row {Screen Info : Type} (function_id : sc2_function → Z)
    (FUNCTIONS : Z → option function_info) (a : replay_action)
    (t : @targets Screen Info) (i : nat) : Prop :=
  ∃ (f : function_info) (idx : nat) (valid_row : list Q),
    FUNCTIONS (ra0_action_id a) = Some f ∧
    list_index (ra0_action_id a) (executable_actions_ids function_id) = Ok (Z.of_nat idx) ∧
    non_spatial_action_selected t !! i
      = Some (<[idx := 1%Q]> (zeros (num_actions function_id))) ∧
    valid_non_spatial_action t !! i = Some valid_row ∧
    length valid_row = num_actions function_id ∧
    (∀ j : nat,
       (∃ id, id ∈ ra2_valid_actions a ∧
          list_index id (executable_actions_ids function_id) = Ok (Z.of_nat j)) →
       valid_row !! j = Some 1%Q) ∧
    (∀ j : nat, (j < num_actions function_id)%nat →
       (∀ id, id ∈ ra2_valid_actions a →
          list_index id (executable_actions_ids function_id) ≠ Ok (Z.of_nat j)) →
       valid_row !! j = Some 0%Q) ∧
    if existsb in_screen (fn_args f) then
      has_spatial_action t !! i = Some 1%Q ∧
      ∃ c, py_index num_cells (spatial_index (ra1_action_target a)) = Ok c ∧
        spatial_action_selected t !! i = Some (<[c := 1%Q]> (zeros num_cells))
    else
      has_spatial_action t !! i = Some 0%Q ∧
      spatial_action_selected t !! i = Some (zeros num_cells).

(** The loop of [compute_targets] after [k] turns: the rows of the first
    [k] actions are filled, the others are still zero. *)
Definition rows_inv {Screen Info : Type} (function_id : sc2_function → Z)
    (FUNCTIONS : Z → option function_info) (states : list (@replay_state Screen Info))
    (acts : list replay_action) (k : nat) (t : @targets Screen Info) : Prop :=
  shape_inv function_id states k t ∧
  (∀ i, (k ≤ i < length states)%nat →
     has_spatial_action t !! i = Some 0%Q ∧
     spatial_action_selected t !! i = Some (zeros num_cells) ∧
     non_spatial_action_selected t !! i = Some (zeros (num_actions function_id))) ∧
  (∀ i a, (i < k)%nat → acts !! i = Some a → target_row function_id FUNCTIONS a t i).

(** Training on a list of feeds one after the other, each run starting from
    the parameters the previous one left: the final parameters and the pair
    of losses of every run. *)
Fixpoint run_feeds {Screen Info Weights : Type}
    (train : Weights → @feed Screen Info → Weights * (Q * Q))
    (w : Weights) (feeds : list (@feed Screen Info)) : Weights * list (Q * Q) :=
  match feeds with
  | [] => (w, [])
  | f :: feeds' =>
      let '(w', loss) := train w f in
      let '(w'', losses) := run_feeds train w' feeds' in
      (w'', loss :: losses)
  end.

(** The schedule as the specification words it: the linear function that
    is 1 - explorationRate at step 0 and 1.0 at maxSteps. *)
Definition schedule_as_specified (s : Z) : Q :=
  ((1 - EXPLORATION_RATE) + EXPLORATION_RATE * inject_Z s / inject_Z MAX_STEPS_TOTAL)%Q.

(** A step half-way through the run whose first draw is 0.95 and whose
    second is 0.5, and a first step whose first draw is 0.90, evaluated. *)
Definition sample_mid_step_outcome :=
  Eval vm_compute in
    from_Ok no_step_outcome (sample_step [95 # 100; 1 # 2] 5000000 (Agent 0 0 0 [] [])).
Definition sample_clock_random_outcome :=
  Eval vm_compute in from_Ok no_clock_outcome (sample_clock_step 90 0 (Agent 0 0 0 [] [])).

(** * Properties *)

(** ** The error monad and Python sequences *)

Lemma bind_Ok {A B} (m : result A) (f : A → result B) (b : B) :
  (m ≫= f) = Ok b ↔ ∃ a, m = Ok a ∧ f a = Ok b.
Proof.
  destruct m as [a|e]; simpl; split.
  - intros H. exists a. done.
  - intros (a' & [= <-] & H). done.
  - discriminate.
  - intros (a' & H & _). discriminate.
Qed.

Lemma Ok_bind {A B} (a : A) (f : A → result B) : (Ok a ≫= f) = f a.
Proof. done. Qed.

(** Splits a hypothesis [... = Ok _] along the binds of the program. *)
Ltac inv_Ok H :=
  repeat match type of H with
  | (_ ≫= _) = Ok _ =>
      let a := fresh "a" in let Ha := fresh "H" a in
      apply bind_Ok in H as (a & Ha & H)
  | Ok _ = Ok _ => injection H as H
  | Raise _ = Ok _ => discriminate H
  | of_option _ ?o = Ok _ =>
      let E := fresh "E" in destruct o eqn:E; simpl in H; [|discriminate H]
  end.

Lemma py_index_nat (n k : nat) : (k < n)%nat → py_index n (Z.of_nat k) = Ok k.
Proof.
  intros Hk. unfold py_index. rewrite decide_True by lia. by rewrite Nat2Z.id.
Qed.

Lemma py_index_lt (n : nat) (i : Z) (k : nat) : py_index n i = Ok k → (k < n)%nat.
Proof.
  unfold py_index. repeat case_decide; intros [= <-]; lia.
Qed.

Lemma py_index_nonneg (n : nat) (i : Z) (k : nat) :
  0 ≤ i → py_index n i = Ok k → k = Z.to_nat i.
Proof.
  unfold py_index. intros Hi. repeat case_decide; intros [= <-]; lia.
Qed.

Lemma getitem_nat {A} (l : list A) (k : nat) (x : A) :
  l !! k = Some x → getitem l (Z.of_nat k) = Ok x.
Proof.
  intros Hx. unfold getitem. rewrite py_index_nat by (by eapply lookup_lt_Some).
  simpl. by rewrite Hx.
Qed.

Lemma getitem_nat_inv {A} (l : list A) (k : nat) (x : A) :
  getitem l (Z.of_nat k) = Ok x → l !! k = Some x.
Proof.
  unfold getitem. intros H. inv_Ok H.
  apply py_index_nonneg in Ha; [|lia]. rewrite Nat2Z.id in Ha. by subst.
Qed.

Lemma getitem_last {A} (l : list A) (x : A) : getitem (l ++ [x]) (-1) = Ok x.
Proof.
  assert (Hi : py_index (length (l ++ [x])) (-1) = Ok (length l)).
  { unfold py_index. rewrite length_app. simpl.
    repeat case_decide; try lia. f_equal. lia. }
  unfold getitem. rewrite Hi. simpl.
  by rewrite lookup_app_r, Nat.sub_diag by lia.
Qed.

Lemma getitem_nil {A} (i : Z) : getitem (@nil A) i = Raise IndexError.
Proof. unfold getitem, py_index. simpl. repeat case_decide; try lia. done. Qed.

Lemma setitem_nat {A} (l : list A) (k : nat) (v : A) :
  (k < length l)%nat → setitem l (Z.of_nat k) v = Ok (<[k:=v]> l).
Proof. intros Hk. unfold setitem. by rewrite py_index_nat. Qed.

Lemma setitem_nat_inv {A} (l l' : list A) (k : nat) (v : A) :
  setitem l (Z.of_nat k) v = Ok l' → (k < length l)%nat ∧ l' = <[k:=v]> l.
Proof.
  unfold setitem. intros H. inv_Ok H. pose proof (py_index_lt _ _ _ Ha).
  apply py_index_nonneg in Ha; [|lia]. rewrite Nat2Z.id in Ha. by subst.
Qed.

Lemma setitem_length {A} (l l' : list A) (i : Z) (v : A) :
  setitem l i v = Ok l' → length l' = length l.
Proof. unfold setitem. intros H. inv_Ok H. subst. apply length_insert. Qed.

(** A loop over [range(n)] keeps an invariant indexed by the turn. *)
Lemma for_each_seq_inv {S} (body : Z → S → result S) (P : nat → S → Prop)
    (start len : nat) (s0 s : S) :
  P start s0 →
  (∀ k s s', (start ≤ k < start + len)%nat → P k s →
     body (Z.of_nat k) s = Ok s' → P (Datatypes.S k) s') →
  for_each (Z.of_nat <$> seq start len) body s0 = Ok s → P (start + len)%nat s.
Proof.
  revert start s0. induction len as [|len IH]; intros start s0 H0 Hstep H; simpl in H.
  - injection H as <-. by rewrite Nat.add_0_r.
  - inv_Ok H. rewrite <- Nat.add_succ_comm. apply (IH (Datatypes.S start) a); [|intros; apply Hstep with s1; [lia|done..]|done].
    apply Hstep with s0; [lia|done..].
Qed.

Lemma for_each_range_inv {S} (body : Z → S → result S) (P : nat → S → Prop)
    (n : nat) (s0 s : S) :
  P 0%nat s0 →
  (∀ k s s', (k < n)%nat → P k s → body (Z.of_nat k) s = Ok s' → P (Datatypes.S k) s') →
  for_each (range n) body s0 = Ok s → P n s.
Proof.
  intros H0 Hstep H. apply (for_each_seq_inv body P 0 n s0 s H0); [|done].
  intros k s1 s' Hk. apply Hstep. lia.
Qed.

(** The same loop returns when every turn does. *)
Lemma for_each_seq_total {S} (body : Z → S → result S) (P : nat → S → Prop)
    (start len : nat) (s0 : S) :
  P start s0 →
  (∀ k s, (start ≤ k < start + len)%nat → P k s →
     ∃ s', body (Z.of_nat k) s = Ok s' ∧ P (Datatypes.S k) s') →
  ∃ s, for_each (Z.of_nat <$> seq start len) body s0 = Ok s ∧ P (start + len)%nat s.
Proof.
  revert start s0. induction len as [|len IH]; intros start s0 H0 Hstep; simpl.
  - exists s0. by rewrite Nat.add_0_r.
  - destruct (Hstep start s0) as (s' & -> & HP); [lia|done|]. rewrite Ok_bind.
    rewrite <- Nat.add_succ_comm.
    apply (IH (Datatypes.S start) s'); [done|]. intros k s1 Hk. apply Hstep. lia.
Qed.

Lemma for_each_range_total {S} (body : Z → S → result S) (P : nat → S → Prop)
    (n : nat) (s0 : S) :
  P 0%nat s0 →
  (∀ k s, (k < n)%nat → P k s → ∃ s', body (Z.of_nat k) s = Ok s' ∧ P (Datatypes.S k) s') →
  ∃ s, for_each (range n) body s0 = Ok s ∧ P n s.
Proof.
  intros H0 Hstep. apply (for_each_seq_total body P 0 n s0 H0).
  intros k s1 Hk. apply Hstep. lia.
Qed.

Lemma for_each_inv {A S} (body : A → S → result S) (P : S → Prop) (xs : list A) (s0 s : S) :
  P s0 → (∀ x s s', x ∈ xs → P s → body x s = Ok s' → P s') →
  for_each xs body s0 = Ok s → P s.
Proof.
  revert s0. induction xs as [|x xs IH]; intros s0 H0 Hstep H; simpl in H.
  - by injection H as <-.
  - apply bind_Ok in H as (s1 & H1 & H). apply (IH s1); [|by eauto using list_elem_of_further|done].
    apply (Hstep x s0); [apply list_elem_of_here|done..].
Qed.

Lemma for_each_total {A S} (body : A → S → result S) (P : S → Prop) (xs : list A) (s0 : S) :
  P s0 → (∀ x s, x ∈ xs → P s → ∃ s', body x s = Ok s' ∧ P s') →
  ∃ s, for_each xs body s0 = Ok s ∧ P s.
Proof.
  revert s0. induction xs as [|x xs IH]; intros s0 H0 Hstep; simpl.
  - by exists s0.
  - destruct (Hstep x s0) as (s1 & -> & H1); [apply list_elem_of_here|done|]. simpl.
    apply IH; [done|]. intros y s Hy. apply Hstep. by apply list_elem_of_further.
Qed.

Lemma list_index_Ok (x : Z) (l : list Z) :
  x ∈ l → ∃ k : nat, list_index x l = Ok (Z.of_nat k) ∧ (k < length l)%nat.
Proof.
  induction l as [|y l IH]; intros Hx; [by apply elem_of_nil in Hx|]. simpl.
  case_decide as Hy.
  - exists 0%nat. split; [done|lia].
  - apply elem_of_cons in Hx as [->|Hx]; [done|].
    destruct (IH Hx) as (k & -> & Hk). exists (S k). simpl. split; [f_equal; lia|lia].
Qed.

Lemma setitem_Ok {A} (l : list A) (k : nat) (v : A) :
  (k < length l)%nat → ∃ l', setitem l (Z.of_nat k) v = Ok l' ∧ length l' = length l.
Proof.
  intros Hk. rewrite setitem_nat by done. eexists. split; [done|apply length_insert].
Qed.

Lemma getitem_Ok {A} (l : list A) (k : nat) :
  (k < length l)%nat → ∃ x, getitem l (Z.of_nat k) = Ok x ∧ l !! k = Some x.
Proof.
  intros Hk. destruct (lookup_lt_is_Some_2 l k Hk) as [x Hx].
  exists x. split; [by apply getitem_nat|done].
Qed.

Lemma setitem_Forall {A} (P : A → Prop) (l l' : list A) (i : Z) (v : A) :
  Forall P l → P v → setitem l i v = Ok l' → Forall P l'.
Proof.
  intros Hl Hv H. unfold setitem in H. apply bind_Ok in H as (k & _ & [= <-]).
  by apply Forall_insert.
Qed.

Lemma getitem_Forall {A} (P : A → Prop) (l : list A) (i : Z) (x : A) :
  Forall P l → getitem l i = Ok x → P x.
Proof.
  intros Hl H. unfold getitem in H. apply bind_Ok in H as (k & _ & H).
  destruct (l !! k) eqn:E; [|done]. injection H as <-.
  by eapply Forall_lookup_1.
Qed.

(** [a[i, j] = v] keeps the shape of [a]. *)
Lemma setitem2_shape (a a' : list (list Q)) (i j : Z) (v : Q) (m : nat) :
  setitem2 a i j v = Ok a' → Forall (λ row, length row = m) a →
  length a' = length a ∧ Forall (λ row, length row = m) a'.
Proof.
  unfold setitem2. intros H Ha.
  apply bind_Ok in H as (row & Hrow & H). apply bind_Ok in H as (row' & Hrow' & H).
  split; [by eapply setitem_length|].
  eapply setitem_Forall; [done| |done].
  rewrite (setitem_length _ _ _ _ Hrow').
  by apply (getitem_Forall (λ row, length row = m) a i).
Qed.

Lemma setitem2_Ok (a : list (list Q)) (i j : nat) (v : Q) (m : nat) :
  (i < length a)%nat → (j < m)%nat → Forall (λ row, length row = m) a →
  ∃ a', setitem2 a (Z.of_nat i) (Z.of_nat j) v = Ok a'.
Proof.
  intros Hi Hj Ha. unfold setitem2.
  destruct (getitem_Ok a i Hi) as (row & -> & Hrow). simpl.
  assert (length row = m) as Hm
    by apply (Forall_lookup_1 (λ row, length row = m) a i row Ha Hrow).
  destruct (setitem_Ok row j v) as (row' & -> & _); [lia|]. simpl.
  destruct (setitem_Ok a i row' Hi) as (a' & -> & _). by eexists.
Qed.

(** ** numpy.array_split *)

Lemma take_take_drop {A} (l : list A) (m k : nat) :
  take m l ++ take k (drop m l) = take (m + k) l.
Proof.
  revert l. induction m as [|m IH]; intros [|x l]; simpl; try done.
  - by rewrite take_nil.
  - by rewrite IH.
Qed.

Lemma slice_app {A} (l : list A) (a b c : nat) :
  (a ≤ b)%nat → (b ≤ c)%nat → slice l a b ++ slice l b c = slice l a c.
Proof.
  intros Hab Hbc. unfold slice.
  replace (drop b l) with (drop (b - a) (drop a l)) by (rewrite drop_drop; f_equal; lia).
  rewrite take_take_drop. f_equal. lia.
Qed.

Lemma slice_all {A} (l : list A) : slice l 0 (length l) = l.
Proof. unfold slice. rewrite drop_0, Nat.sub_0_r. apply firstn_all. Qed.

Lemma slice_length {A} (l : list A) (a b : nat) :
  (b ≤ length l)%nat → length (slice l a b) = (b - a)%nat.
Proof. intros Hb. unfold slice. rewrite length_take, length_drop. lia. Qed.

(** Consecutive slices between non-decreasing division points. *)
Lemma concat_slices {A} (l : list A) (d : nat → nat) (n : nat) :
  (∀ i, (i < n)%nat → (d i ≤ d (S i))%nat) →
  (d 0%nat ≤ d n)%nat ∧
  concat ((λ i, slice l (d i) (d (i + 1)%nat)) <$> seq 0 n) = slice l (d 0%nat) (d n).
Proof.
  induction n as [|n IH]; intros Hmono.
  - split; [done|]. simpl. unfold slice. by rewrite Nat.sub_diag, take_0.
  - destruct IH as [Hle IH]; [intros; apply Hmono; lia|].
    pose proof (Hmono n ltac:(lia)) as Hn. split; [lia|].
    rewrite seq_S, fmap_app, concat_app, IH. simpl.
    rewrite app_nil_r, Nat.add_1_r. by apply slice_app.
Qed.

Lemma cumsum_from_lookup (acc : nat) (sizes : list nat) (i : nat) :
  (i < length sizes)%nat →
  cumsum_from acc sizes !! i = Some (acc + sum_list (take (S i) sizes))%nat.
Proof.
  revert acc i. induction sizes as [|x sizes IH]; intros acc i Hi; simpl in *; [lia|].
  destruct i as [|i]; simpl.
  - f_equal. destruct sizes; simpl; lia.
  - rewrite IH by lia. f_equal. simpl. lia.
Qed.

(** The division points are the partial sums of the section sizes. *)
Lemma cumsum_lookup_total (sizes : list nat) (i : nat) :
  (i ≤ length sizes)%nat → cumsum (0%nat :: sizes) !!! i = sum_list (take i sizes).
Proof.
  intros Hi. unfold cumsum. simpl. destruct i as [|i]; [done|].
  rewrite list_lookup_total_alt. simpl.
  by rewrite cumsum_from_lookup by lia.
Qed.

Lemma sum_list_take_S (sizes : list nat) (i : nat) :
  (i < length sizes)%nat →
  sum_list (take (S i) sizes) = (sum_list (take i sizes) + sizes !!! i)%nat.
Proof.
  intros Hi. destruct (lookup_lt_is_Some_2 sizes i Hi) as [x Hx].
  rewrite (take_S_r _ _ _ Hx), sum_list_with_app, (list_lookup_total_correct _ _ _ Hx).
  simpl. lia.
Qed.

Lemma sum_list_take_le (sizes : list nat) (i : nat) :
  (sum_list (take i sizes) ≤ sum_list sizes)%nat.
Proof.
  rewrite <- (take_drop i sizes) at 2. rewrite sum_list_with_app. lia.
Qed.

Lemma section_sizes_lookup (Ntotal Nsections i : nat) :
  (0 < Nsections)%nat → (i < Nsections)%nat →
  tail (section_sizes Ntotal Nsections) !!! i = section_length Ntotal Nsections i.
Proof.
  intros Hn Hi. unfold section_sizes, section_length. simpl.
  pose proof (Nat.mod_upper_bound Ntotal Nsections ltac:(lia)) as He.
  apply list_lookup_total_correct. case_decide.
  - rewrite lookup_app_l by (rewrite length_replicate; lia).
    by rewrite lookup_replicate_2 by lia.
  - rewrite lookup_app_r by (rewrite length_replicate; lia).
    rewrite length_replicate, lookup_replicate_2 by lia. f_equal. lia.
Qed.

Lemma section_sizes_length (Ntotal Nsections : nat) :
  (0 < Nsections)%nat → length (tail (section_sizes Ntotal Nsections)) = Nsections.
Proof.
  intros Hn. unfold section_sizes. simpl.
  pose proof (Nat.mod_upper_bound Ntotal Nsections ltac:(lia)) as He.
  rewrite length_app, !length_replicate. lia.
Qed.

Lemma section_sizes_sum (Ntotal Nsections : nat) :
  (0 < Nsections)%nat → sum_list (tail (section_sizes Ntotal Nsections)) = Ntotal.
Proof.
  intros Hn. unfold section_sizes. simpl.
  pose proof (Nat.mod_upper_bound Ntotal Nsections ltac:(lia)) as He.
  rewrite sum_list_with_app, !sum_list_replicate.
  pose proof (Nat.div_mod_eq Ntotal Nsections). nia.
Qed.

(** [np.array_split] returns [Nsections] consecutive sections that make up
    the array, section [i] of length [section_length]. *)
Lemma array_split_spec {A} (ary : list A) (Nsections : nat) :
  (0 < Nsections)%nat →
  ∃ chunks, array_split ary Nsections = Ok chunks ∧ splits_of Nsections ary chunks.
Proof.
  intros Hn. unfold array_split, splits_of. rewrite decide_False by lia.
  eexists. split; [done|].
  set (sizes := tail (section_sizes (length ary) Nsections)).
  assert (Hsz : section_sizes (length ary) Nsections = 0%nat :: sizes) by done.
  rewrite Hsz.
  pose proof (section_sizes_length (length ary) Nsections Hn) as Hlen.
  pose proof (section_sizes_sum (length ary) Nsections Hn) as Hsum.
  fold sizes in Hlen, Hsum.
  set (d := λ i, cumsum (0%nat :: sizes) !!! i).
  assert (Hd : ∀ i, (i ≤ Nsections)%nat → d i = sum_list (take i sizes)).
  { intros i Hi. apply cumsum_lookup_total. lia. }
  assert (Hmono : ∀ i, (i < Nsections)%nat → (d i ≤ d (S i))%nat).
  { intros i Hi. rewrite !Hd by lia. rewrite sum_list_take_S by lia. lia. }
  split; [by rewrite length_fmap, length_seq|]. split.
  - trans (concat ((λ i, slice ary (d i) (d (i + 1)%nat)) <$> seq 0 Nsections)); [done|].
    destruct (concat_slices ary d Nsections Hmono) as [_ ->].
    rewrite !Hd by lia. rewrite take_0, firstn_all2 by lia. simpl.
    rewrite Hsum. apply slice_all.
  - intros i chunk Hi. rewrite list_lookup_fmap in Hi.
    destruct (seq 0 Nsections !! i) as [j|] eqn:Hj; [|done].
    apply lookup_seq in Hj as [-> Hlt]. simpl in Hi. injection Hi as <-.
    change (length (slice ary (d i) (d (i + 1)%nat)) =
            section_length (length ary) Nsections i).
    rewrite Nat.add_1_r, slice_length.
    + rewrite !Hd by lia. rewrite sum_list_take_S by lia.
      pose proof (section_sizes_lookup (length ary) Nsections i Hn Hlt) as Hi.
      fold sizes in Hi. lia.
    + rewrite Hd by lia. pose proof (sum_list_take_le sizes (S i)). lia.
Qed.

(** ** Returns, bootstrap and reported reward *)

Section UpdateProperties.
Context {Screen Info Weights : Type}.
Variable function_id : sc2_function → Z.
Variable FUNCTIONS : Z → option function_info.
Variable nn_value : Weights → Screen → Info → Q.
Variable train : Weights → @feed Screen Info → Weights * (Q * Q).

Implicit Types (states : list (@replay_state Screen Info)) (acts : list replay_action).
Implicit Types (t : @targets Screen Info) (R : Q).

Lemma init_targets_inv (T : nat) R t :
  init_targets function_id T R = Ok t →
  (0 < T)%nat ∧
  cumulated_rewards t = <[0%nat:=R]> (zeros T) ∧
  undiscounted_rewards t = <[0%nat:=R]> (zeros T) ∧
  screen_states t = [] ∧ non_spatial_feature_states t = [].
Proof.
  unfold init_targets. intros H. inv_Ok H. subst t. simpl.
  apply (setitem_nat_inv _ _ 0%nat) in Ha as [Hlen ->].
  apply (setitem_nat_inv _ _ 0%nat) in Ha0 as [_ ->].
  unfold zeros in Hlen. rewrite length_replicate in Hlen. done.
Qed.

(** What one turn of the loop does to the two reward arrays. *)
Lemma update_body_rewards states acts (k : nat) t t' :
  update_body function_id FUNCTIONS states acts (Z.of_nat k) t = Ok t' →
  ∃ s, states !! k = Some s ∧
    if decide (0 < k)%nat then
      ∃ prev, cumulated_rewards t !! (k - 1)%nat = Some prev ∧
        (k < length (cumulated_rewards t))%nat ∧
        (k < length (undiscounted_rewards t))%nat ∧
        cumulated_rewards t' =
          <[k:=(rs2_reward s + DISCOUNT_FACTOR * prev)%Q]> (cumulated_rewards t) ∧
        undiscounted_rewards t' = <[k:=rs2_reward s]> (undiscounted_rewards t)
    else
      cumulated_rewards t' = cumulated_rewards t ∧
      undiscounted_rewards t' = undiscounted_rewards t.
Proof.
  unfold update_body. intros H.
  apply bind_Ok in H as (s & Hs & H). apply getitem_nat_inv in Hs.
  apply bind_Ok in H as (cu & Hcu & H).
  inv_Ok H. subst t'. simpl. exists s. split; [done|].
  destruct (decide (Z.of_nat k > 0)) as [Hk|Hk].
  - rewrite decide_True by lia.
    apply bind_Ok in Hcu as (prev & Hprev & Hcu).
    apply bind_Ok in Hcu as (c & Hc & Hcu).
    apply bind_Ok in Hcu as (u & Hu & [= <-]). simpl.
    replace (Z.of_nat k - 1) with (Z.of_nat (k - 1)) in Hprev by lia.
    apply getitem_nat_inv in Hprev.
    apply setitem_nat_inv in Hc as [? ->]. apply setitem_nat_inv in Hu as [? ->].
    by exists prev.
  - rewrite decide_False by lia. by injection Hcu as <-.
Qed.

Lemma rewards_inv_init states R t :
  init_targets function_id (length states) R = Ok t → rewards_inv states R 0 t.
Proof.
  unfold rewards_inv, zeros.
  intros (HT & -> & -> & _)%init_targets_inv. unfold zeros.
  rewrite !length_insert, !length_replicate.
  rewrite !list_lookup_insert_eq by (by rewrite length_replicate).
  repeat split; intros; lia.
Qed.

Lemma rewards_inv_step states acts R (k : nat) t t' :
  rewards_inv states R k t →
  update_body function_id FUNCTIONS states acts (Z.of_nat k) t = Ok t' →
  rewards_inv states R (S k) t'.
Proof.
  intros (Hlc & Hlu & Hc0 & Hu0 & Hc & Hu) (s & Hs & H)%update_body_rewards.
  unfold rewards_inv.
  destruct (decide (0 < k)%nat) as [Hk|Hk].
  - destruct H as (prev & Hprev & Hkc & Hku & -> & ->).
    rewrite !length_insert.
    rewrite !list_lookup_insert_ne by lia.
    repeat split; try done.
    + intros i s' prev' Hi Hs' Hp.
      rewrite list_lookup_insert_ne in Hp by lia.
      destruct (decide (i = k)) as [->|Hne].
      * rewrite list_lookup_insert_eq by done. congruence.
      * rewrite list_lookup_insert_ne by done. apply Hc; [lia|done..].
    + intros i Hi. destruct (decide (i = k)) as [->|Hne].
      * rewrite list_lookup_insert_eq by done. by rewrite Hs.
      * rewrite list_lookup_insert_ne by done. apply Hu. lia.
  - destruct H as [-> ->].
    repeat split; try done; intros; lia.
Qed.

Lemma compute_targets_rewards_inv R states acts t :
  compute_targets function_id FUNCTIONS R states acts = Ok t →
  rewards_inv states R (length states) t.
Proof.
  unfold compute_targets. intros H.
  apply bind_Ok in H as (t0 & Ht0 & H).
  revert H. apply for_each_range_inv with (P := rewards_inv states R).
  - by apply rewards_inv_init.
  - intros k s s' _. apply rewards_inv_step.
Qed.

(** The undiscounted array holds the bootstrap value in front of the rewards
    of all but the first element of the buffer it was computed from. *)
Lemma compute_targets_undiscounted R states acts t :
  compute_targets function_id FUNCTIONS R states acts = Ok t →
  undiscounted_rewards t = R :: (rs2_reward <$> tail states).
Proof.
  intros (_ & Hlu & _ & Hu0 & _ & Hu)%compute_targets_rewards_inv.
  apply list_eq. intros [|i]; [done|]. simpl.
  rewrite list_lookup_fmap, lookup_tail.
  destruct (decide (S i < length states)%nat) as [Hi|Hi].
  - apply Hu. lia.
  - rewrite !lookup_ge_None_2 by lia. done.
Qed.

(** *** The shape of the target arrays, and termination of the loop *)

Lemma valid_actions_indices_length (valid_actions : list Z) (indices : list Q) :
  valid_actions_indices function_id valid_actions = Ok indices →
  length indices = num_actions function_id.
Proof.
  unfold valid_actions_indices.
  apply for_each_inv with (P := λ l : list Q, length l = num_actions function_id).
  - apply length_replicate.
  - intros j l l' _ Hl H. apply bind_Ok in H as (k & _ & H).
    by rewrite (setitem_length _ _ _ _ H).
Qed.

Lemma valid_actions_indices_Ok (valid_actions : list Z) :
  Forall (λ j, j ∈ executable_actions_ids function_id) valid_actions →
  ∃ indices, valid_actions_indices function_id valid_actions = Ok indices.
Proof.
  intros Hva. unfold valid_actions_indices.
  edestruct (for_each_total
    (λ j indices, k ← list_index j (executable_actions_ids function_id); setitem indices k 1%Q)
    (λ l : list Q, length l = num_actions function_id) valid_actions)
    as (l & Hl & _); [apply length_replicate| |by eexists].
  intros j l Hj Hl. rewrite Forall_forall in Hva.
  destruct (list_index_Ok j _ (Hva j Hj)) as (k & -> & Hk). simpl.
  destruct (setitem_Ok l k 1%Q) as (l' & -> & Hl'); [by rewrite Hl|].
  exists l'. split; [done|congruence].
Qed.

Lemma mark_spatial_shape (i : Z) (target : Z * Z) (args : list string)
    (hs hs' : list Q) (ss ss' : list (list Q)) :
  mark_spatial i target args (hs, ss) = Ok (hs', ss') →
  Forall (λ row, length row = num_cells) ss →
  length hs' = length hs ∧ length ss' = length ss ∧
  Forall (λ row, length row = num_cells) ss'.
Proof.
  intros H Hss. unfold mark_spatial in H. revert H.
  apply for_each_inv with (P := λ p : list Q * list (list Q),
    length p.1 = length hs ∧ length p.2 = length ss ∧
    Forall (λ row, length row = num_cells) p.2); [done|].
  intros arg [h1 s1] [h2 s2] _ (Hh & Hs & Hw) H. simpl in *.
  destruct (in_screen arg); [|by injection H as <- <-].
  apply bind_Ok in H as (h & Hh' & H). apply bind_Ok in H as (s' & Hs' & [= <- <-]).
  destruct (setitem2_shape _ _ _ _ _ _ Hs' Hw) as [? ?].
  rewrite (setitem_length _ _ _ _ Hh'). repeat split; [done|congruence|done].
Qed.

Lemma mark_spatial_Ok (k : nat) (target : Z * Z) (args : list string)
    (hs : list Q) (ss : list (list Q)) :
  (k < length hs)%nat → (k < length ss)%nat →
  Forall (λ row, length row = num_cells) ss →
  0 ≤ spatial_index target < A3C_SCREEN_SIZE_X * A3C_SCREEN_SIZE_Y →
  ∃ r, mark_spatial (Z.of_nat k) target args (hs, ss) = Ok r.
Proof.
  intros Hh Hs Hw Hidx. unfold mark_spatial.
  edestruct (for_each_total
    (λ arg '(has_spatial, selected),
       if in_screen arg then
         has_spatial' ← setitem has_spatial (Z.of_nat k) 1%Q;
         let index := spatial_index target in
         selected' ← setitem2 selected (Z.of_nat k) index 1%Q;
         Ok (has_spatial', selected')
       else Ok (has_spatial, selected))
    (λ p : list Q * list (list Q),
      length p.1 = length hs ∧ length p.2 = length ss ∧
      Forall (λ row, length row = num_cells) p.2) args (hs, ss))
    as (r & Hr & _); [done| |by eexists].
  intros arg [h1 s1] _ (Hh1 & Hs1 & Hw1). simpl in *.
  destruct (in_screen arg); [|by eexists].
  destruct (setitem_Ok h1 k 1%Q) as (h2 & -> & Hh2); [lia|]. simpl.
  rewrite <- (Z2Nat.id (spatial_index target)) by lia.
  destruct (setitem2_Ok s1 k (Z.to_nat (spatial_index target)) 1%Q num_cells)
    as (s2 & Hs2); [lia|unfold num_cells; lia|done|].
  rewrite Hs2. simpl. eexists. split; [done|]. simpl.
  destruct (setitem2_shape _ _ _ _ _ _ Hs2 Hw1) as [? ?].
  repeat split; [lia|lia|done].
Qed.

Lemma update_body_shape states acts (k : nat) t t' :
  update_body function_id FUNCTIONS states acts (Z.of_nat k) t = Ok t' →
  shape_inv function_id states k t → shape_inv function_id states (S k) t'.
Proof.
  intros H (Hc & Hu & Hh & Hs & Hsw & Hv & Hn & Hnw & Hscr & Hinfo).
  pose proof (update_body_rewards _ _ _ _ _ H) as (s0 & Hs0 & Hrew).
  unfold update_body in H.
  apply bind_Ok in H as (s & Hst & H). apply getitem_nat_inv in Hst.
  assert (s0 = s) as -> by congruence.
  apply bind_Ok in H as (cu & _ & H).
  apply bind_Ok in H as (a & _ & H).
  apply bind_Ok in H as (indices & _ & H).
  apply bind_Ok in H as (valid & Hvalid & H).
  apply bind_Ok in H as (j & _ & H).
  apply bind_Ok in H as (selected & Hsel & H).
  apply bind_Ok in H as (f & _ & H).
  apply bind_Ok in H as ([hs ss] & Hmark & H).
  destruct (mark_spatial_shape _ _ _ _ _ _ _ Hmark Hsw) as (? & ? & ?).
  destruct (setitem2_shape _ _ _ _ _ _ Hsel Hnw) as [? ?].
  pose proof (setitem_length _ _ _ _ Hvalid).
  assert (length (cumulated_rewards t') = length (cumulated_rewards t) ∧
          length (undiscounted_rewards t') = length (undiscounted_rewards t)) as [? ?].
  { case_decide.
    - destruct Hrew as (? & _ & _ & _ & -> & ->). by rewrite !length_insert.
    - by destruct Hrew as [-> ->]. }
  injection H as <-. simpl in *. unfold shape_inv. simpl.
  rewrite (take_S_r _ _ _ Hs0), !fmap_app, Hscr, Hinfo. simpl.
  repeat split; (done || congruence).
Qed.

Lemma update_body_Ok states acts (k : nat) t (a : replay_action) :
  (k < length states)%nat → acts !! k = Some a → wf_action function_id FUNCTIONS a →
  shape_inv function_id states k t →
  ∃ t', update_body function_id FUNCTIONS states acts (Z.of_nat k) t = Ok t'.
Proof.
  intros Hk Ha (Hid & Hva & [f Hf] & Hidx) (Hc & Hu & Hh & Hs & Hsw & Hv & Hn & Hnw & _).
  unfold update_body.
  destruct (getitem_Ok states k Hk) as (s & -> & _). rewrite Ok_bind.
  assert (∃ cu, (if decide (Z.of_nat k > 0)
      then prev ← getitem (cumulated_rewards t) (Z.of_nat k - 1);
           c ← setitem (cumulated_rewards t) (Z.of_nat k)
                 (rs2_reward s + DISCOUNT_FACTOR * prev)%Q;
           u ← setitem (undiscounted_rewards t) (Z.of_nat k) (rs2_reward s);
           Ok (c, u)
      else Ok (cumulated_rewards t, undiscounted_rewards t)) = Ok cu) as [cu ->].
  { case_decide; [|by eexists].
    replace (Z.of_nat k - 1) with (Z.of_nat (k - 1)) by lia.
    destruct (getitem_Ok (cumulated_rewards t) (k - 1)) as (prev & -> & _); [lia|].
    rewrite Ok_bind.
    destruct (setitem_Ok (cumulated_rewards t) k (rs2_reward s + DISCOUNT_FACTOR * prev)%Q)
      as (c & -> & _); [lia|]. rewrite Ok_bind.
    destruct (setitem_Ok (undiscounted_rewards t) k (rs2_reward s)) as (u & -> & _); [lia|].
    by eexists. }
  rewrite Ok_bind, (getitem_nat _ _ _ Ha), Ok_bind.
  destruct (valid_actions_indices_Ok _ Hva) as [indices ->]. rewrite Ok_bind.
  destruct (setitem_Ok (valid_non_spatial_action t) k indices) as (valid & -> & _); [lia|].
  rewrite Ok_bind. destruct (list_index_Ok _ _ Hid) as (j & -> & Hj). rewrite Ok_bind.
  destruct (setitem2_Ok (non_spatial_action_selected t) k j 1%Q (num_actions function_id))
    as [selected ->]; [lia|done|done|]. rewrite Ok_bind.
  rewrite Hf. unfold of_option. rewrite Ok_bind.
  destruct (mark_spatial_Ok k (ra1_action_target a) (fn_args f)
              (has_spatial_action t) (spatial_action_selected t)) as [hs ->];
    [lia|lia|done|done|].
  by eexists.
Qed.

Lemma init_targets_shape states R t :
  init_targets function_id (length states) R = Ok t → shape_inv function_id states 0 t.
Proof.
  intros H. pose proof (init_targets_inv _ _ _ H) as (_ & Hc & Hu & Hscr & Hinfo).
  unfold init_targets in H. apply bind_Ok in H as (c & _ & H).
  apply bind_Ok in H as (u & _ & [= <-]).
  cbn [cumulated_rewards undiscounted_rewards] in Hc, Hu. subst c u.
  unfold shape_inv, zeros2, zeros.
  cbn [cumulated_rewards undiscounted_rewards has_spatial_action
       spatial_action_selected valid_non_spatial_action
       non_spatial_action_selected screen_states non_spatial_feature_states].
  rewrite !length_insert, !length_replicate.
  repeat split; try done; apply Forall_replicate, length_replicate.
Qed.

Lemma compute_targets_shape R states acts t :
  compute_targets function_id FUNCTIONS R states acts = Ok t →
  shape_inv function_id states (length states) t.
Proof.
  unfold compute_targets. intros H. apply bind_Ok in H as (t0 & Ht0 & H).
  revert H. apply for_each_range_inv with (P := shape_inv function_id states).
  - by apply (init_targets_shape _ R).
  - intros k s s' _ Hs Hbody. by apply (update_body_shape _ acts _ s).
Qed.

(** The loop returns on every non-empty buffer that holds what [step] records. *)
Lemma compute_targets_Ok R states acts :
  states ≠ [] → length acts = length states →
  Forall (wf_action function_id FUNCTIONS) acts →
  ∃ t, compute_targets function_id FUNCTIONS R states acts = Ok t.
Proof.
  intros Hne Hlen Hwf. unfold compute_targets.
  assert (Hpos : (0 < length states)%nat) by (destruct states; [done|simpl; lia]).
  assert (∃ t0, init_targets function_id (length states) R = Ok t0) as [t0 Ht0].
  { unfold init_targets, zeros.
    destruct (setitem_Ok (replicate (length states) 0%Q) 0 R) as (c & Hc & _);
      [by rewrite length_replicate|].
    change (Z.of_nat 0) with 0 in Hc. rewrite Hc. simpl. by eexists. }
  rewrite Ht0, Ok_bind.
  edestruct (for_each_range_total (update_body function_id FUNCTIONS states acts)
               (shape_inv function_id states) (length states) t0) as (t & Ht & _);
    [| |by exists t].
  - by apply (init_targets_shape _ R).
  - intros k t Hk Hshape.
    destruct (lookup_lt_is_Some_2 acts k ltac:(lia)) as [a Ha].
    destruct (update_body_Ok states acts k t a) as [t' Ht']; [done|done| |done|].
    { by apply (Forall_lookup_1 _ _ _ _ Hwf Ha). }
    exists t'. split; [done|]. by apply (update_body_shape _ acts _ t).
Qed.

(** *** The batches and the training runs *)

Lemma split_targets_spec t : ∃ b, split_targets t = Ok b ∧ batches_of t b.
Proof.
  unfold split_targets, batches_of.
  assert (Hn : (0 < NUM_BATCHES)%nat) by (unfold NUM_BATCHES; lia).
  destruct (array_split_spec (screen_states t) _ Hn) as (s & -> & ?).
  destruct (array_split_spec (non_spatial_feature_states t) _ Hn) as (n & -> & ?).
  destruct (array_split_spec (cumulated_rewards t) _ Hn) as (c & -> & ?).
  destruct (array_split_spec (has_spatial_action t) _ Hn) as (h & -> & ?).
  destruct (array_split_spec (spatial_action_selected t) _ Hn) as (sp & -> & ?).
  destruct (array_split_spec (valid_non_spatial_action t) _ Hn) as (v & -> & ?).
  destruct (array_split_spec (non_spatial_action_selected t) _ Hn) as (ns & -> & ?).
  rewrite !Ok_bind. eexists. split; [done|]. simpl. by repeat (split; [assumption|]).
Qed.

Lemma take_fmap_snoc {A B} (f : A → B) (l : list A) (x : A) (bs : list B) (k : nat) :
  f <$> l = take k bs → bs !! k = Some (f x) → f <$> (l ++ [x]) = take (S k) bs.
Proof. intros Hl Hx. by rewrite fmap_app, Hl, (take_S_r _ _ _ Hx). Qed.

Lemma train_body_step (ses0 : session) t b (learning_rate : Q) (k : nat)
    (st : session * list (Q * Q)) :
  batches_of t b → (k < NUM_BATCHES)%nat →
  train_inv ses0 b learning_rate k st →
  ∃ st', train_body train b learning_rate (Z.of_nat k) st = Ok st' ∧
    train_inv ses0 b learning_rate (S k) st'.
Proof.
  intros ([L1 _] & [L2 _] & [L3 _] & [L4 _] & [L5 _] & [L6 _] & [L7 _]) Hk
    (feeds & Hruns & Hlosses & F1 & F2 & F3 & F4 & F5 & F6 & F7 & Hlr).
  unfold train_body, batch_feed.
  destruct (getitem_Ok (b_screen_states b) k) as (x1 & -> & H1); [lia|].
  destruct (getitem_Ok (b_non_spatial_feature_states b) k) as (x2 & -> & H2); [lia|].
  destruct (getitem_Ok (b_cumulated_rewards b) k) as (x3 & -> & H3); [lia|].
  destruct (getitem_Ok (b_has_spatial_action b) k) as (x4 & -> & H4); [lia|].
  destruct (getitem_Ok (b_spatial_action_selected b) k) as (x5 & -> & H5); [lia|].
  destruct (getitem_Ok (b_valid_non_spatial_action b) k) as (x6 & -> & H6); [lia|].
  destruct (getitem_Ok (b_non_spatial_action_selected b) k) as (x7 & -> & H7); [lia|].
  rewrite !Ok_bind.
  destruct (train (variables st.1) _) as [w [policy_loss value_loss]].
  eexists. split; [done|].
  exists (feeds ++ [Feed x1 x2 x3 x4 x5 x6 x7 learning_rate]). simpl.
  split; [by rewrite Hruns, app_assoc|]. split; [rewrite length_app; simpl; lia|].
  unfold feeds_are.
  repeat split; try (by apply take_fmap_snoc).
  apply Forall_app. split; [done|]. by apply Forall_singleton.
Qed.

(** The training loop returns after [NUM_BATCHES] runs, one per batch and in
    the order of the batches. *)
Lemma train_loop_spec (ses : session) t b (learning_rate : Q) :
  batches_of t b →
  ∃ ses' losses feeds,
    for_each (range NUM_BATCHES) (train_body train b learning_rate) (ses, [])
      = Ok (ses', losses) ∧
    train_runs ses' = train_runs ses ++ feeds ∧
    length losses = NUM_BATCHES ∧
    feeds_are b learning_rate NUM_BATCHES feeds.
Proof.
  intros Hb.
  destruct (for_each_range_total (train_body train b learning_rate)
              (train_inv ses b learning_rate) NUM_BATCHES (ses, []))
    as ([ses' losses] & Hloop & feeds & Hruns & Hlosses & Hfeeds).
  - exists []. simpl. rewrite app_nil_r. by repeat split.
  - intros k st Hk Hinv. by apply (train_body_step ses t).
  - by exists ses', losses, feeds.
Qed.

Lemma fmap_take_all {A B} (f : A → B) (l : list A) (bs : list B) (n : nat) :
  f <$> l = take n bs → length bs = n → f <$> l = bs ∧ length l = n.
Proof.
  intros Hl Hn. rewrite firstn_all2 in Hl by lia. split; [done|].
  by rewrite <- (length_fmap f), Hl.
Qed.

(** All batches fed: the feeds cover the target arrays, and feed [i] holds
    the samples of section [i] of every array. *)
Lemma feeds_are_cover states t b (learning_rate : Q) (feeds : list feed) :
  shape_inv function_id states (length states) t →
  batches_of t b → feeds_are b learning_rate NUM_BATCHES feeds →
  length feeds = NUM_BATCHES ∧ feeds_cover feeds t ∧
  ∀ i f, feeds !! i = Some f →
    feed_size f (section_length (length states) NUM_BATCHES i).
Proof.
  intros (Hc & _ & Hh & Hs & _ & Hv & Hn & _ & Hscr & Hinfo)
    ((L1 & C1 & S1) & (L2 & C2 & S2) & (L3 & C3 & S3) & (L4 & C4 & S4) &
     (L5 & C5 & S5) & (L6 & C6 & S6) & (L7 & C7 & S7))
    (F1 & F2 & F3 & F4 & F5 & F6 & F7 & _).
  apply fmap_take_all in F1 as [F1 Hlen]; [|done].
  apply fmap_take_all in F2 as [F2 _]; [|done].
  apply fmap_take_all in F3 as [F3 _]; [|done].
  apply fmap_take_all in F4 as [F4 _]; [|done].
  apply fmap_take_all in F5 as [F5 _]; [|done].
  apply fmap_take_all in F6 as [F6 _]; [|done].
  apply fmap_take_all in F7 as [F7 _]; [|done].
  split; [done|]. split.
  - unfold feeds_cover. by rewrite F1, F2, F3, F4, F5, F6, F7.
  - intros i f Hf.
    assert (Hscr' : length (screen_states t) = length states)
      by (by rewrite Hscr, firstn_all, length_fmap).
    assert (Hinfo' : length (non_spatial_feature_states t) = length states)
      by (by rewrite Hinfo, firstn_all, length_fmap).
    unfold feed_size.
    rewrite <- Hscr' at 1. rewrite <- Hinfo' at 1. rewrite <- Hc at 1.
    rewrite <- Hh at 1. rewrite <- Hs at 1. rewrite <- Hv at 1. rewrite <- Hn at 1.
    repeat split;
      [apply S1; rewrite <- F1|apply S2; rewrite <- F2|apply S3; rewrite <- F3
      |apply S4; rewrite <- F4|apply S5; rewrite <- F5|apply S6; rewrite <- F6
      |apply S7; rewrite <- F7];
      by rewrite list_lookup_fmap, Hf.
Qed.

(** C1 (amended). For a trajectory processed in reverse chronological order
    with bootstrap value [R], the computation returns only for T >= 1, and
    then return[0] = R and, for every reversed index i > 0,
    return[i] = reward of the transition at reversed index i (original
    index T-1-i) + discount * return[i-1].  For chronological rewards
    1, 2, 3 and R = 10 the reversed returns are 10, 2 + 0.99*10 = 11.9 and
    1 + 0.99*11.9 = 12.781. *)
Theorem discounted_returns_recurrence R states acts t :
  compute_targets function_id FUNCTIONS R (reverse states) (reverse acts) = Ok t →
  (1 ≤ length states)%nat ∧
  length (cumulated_rewards t) = length states ∧
  cumulated_rewards t !! 0%nat = Some R ∧
  (∀ (i : nat) s prev, (0 < i < length states)%nat →
     states !! (length states - 1 - i)%nat = Some s →
     cumulated_rewards t !! (i - 1)%nat = Some prev →
     cumulated_rewards t !! i = Some (rs2_reward s + DISCOUNT_FACTOR * prev)%Q) ∧
  (rs2_reward <$> states = [1%Q; 2%Q; 3%Q] → R = 10%Q →
     ∃ r1 r2, cumulated_rewards t = [10%Q; r1; r2] ∧
       (r1 == 119 # 10)%Q ∧ (r2 == 12781 # 1000)%Q).
Proof.
  intros H. pose proof (compute_targets_rewards_inv _ _ _ _ H) as (Hlc & _ & Hc0 & _ & Hc & _).
  rewrite length_reverse in Hlc, Hc.
  assert (Hrec : ∀ (i : nat) s prev, (0 < i < length states)%nat →
     states !! (length states - 1 - i)%nat = Some s →
     cumulated_rewards t !! (i - 1)%nat = Some prev →
     cumulated_rewards t !! i = Some (rs2_reward s + DISCOUNT_FACTOR * prev)%Q).
  { intros i s prev Hi Hs Hp. apply Hc; [done| |done].
    rewrite reverse_lookup by lia. rewrite <- Hs. f_equal. lia. }
  assert (HT : (1 ≤ length states)%nat).
  { apply lookup_lt_Some in Hc0. lia. }
  repeat split; try done.
  intros Hrew ->.
  destruct states as [|s1 [|s2 [|s3 [|]]]]; try discriminate Hrew.
  injection Hrew as Hr1 Hr2 Hr3. simpl in *.
  destruct (cumulated_rewards t) as [|r0 [|r1 [|r2 [|]]]]; try discriminate Hlc.
  injection Hc0 as ->.
  pose proof (Hrec 1%nat s2 10%Q ltac:(lia) eq_refl eq_refl) as [= ->].
  pose proof (Hrec 2%nat s1 _ ltac:(lia) eq_refl eq_refl) as [= ->].
  eexists _, _. split; [done|]. rewrite Hr1, Hr2. by split.
Qed.

Lemma bootstrap_last (w : Weights) states (s : replay_state) :
  bootstrap nn_value w (states ++ [s]) =
    Ok (if rs5_last s then 0%Q else nn_value w (rs0_screen s) (rs1_non_spatial s)).
Proof.
  unfold bootstrap. rewrite getitem_last. simpl. by destruct (rs5_last s).
Qed.

(** C2. For a non-empty trajectory the bootstrap value that seeds the
    returns is 0 when the final transition is terminal, whatever the
    network's value output, and the network's value estimate of the final
    state otherwise. *)
Theorem bootstrap_value (w : Weights) states (s : replay_state) :
  bootstrap nn_value w (states ++ [s]) =
    Ok (if rs5_last s then 0%Q else nn_value w (rs0_screen s) (rs1_non_spatial s)) ∧
  ∀ acts R t,
    bootstrap nn_value w (states ++ [s]) = Ok R →
    compute_targets function_id FUNCTIONS R (reverse (states ++ [s])) (reverse acts) = Ok t →
    cumulated_rewards t !! 0%nat =
      Some (if rs5_last s then 0%Q else nn_value w (rs0_screen s) (rs1_non_spatial s)).
Proof.
  split; [apply bootstrap_last|]. intros acts R t HR Ht.
  rewrite bootstrap_last in HR. injection HR as <-.
  by destruct (compute_targets_rewards_inv _ _ _ _ Ht) as (_ & _ & -> & _).
Qed.

(** An empty buffer makes [update] raise at [self.replay_states[-1]]. *)
Lemma bootstrap_empty (w : Weights) : bootstrap nn_value w [] = Raise IndexError.
Proof. unfold bootstrap. by rewrite getitem_nil. Qed.

(** The parts of a run of [update] that returns. *)
Lemma update_inv (STEP_COUNTER : Z) (ses ses' : session) (self self' : agent)
    (total p_loss v_loss : Q) :
  update function_id FUNCTIONS nn_value train STEP_COUNTER ses self
    = Ok (ses', self', (total, p_loss, v_loss)) →
  ∃ R t b losses,
    bootstrap nn_value (variables ses) (replay_states self) = Ok R ∧
    compute_targets function_id FUNCTIONS R
      (reverse (replay_states self)) (reverse (replay_actions self)) = Ok t ∧
    split_targets t = Ok b ∧
    for_each (range NUM_BATCHES) (train_body train b (learning_rate_at STEP_COUNTER))
      (ses, []) = Ok (ses', losses) ∧
    self' = set_replay self (reverse (reverse (replay_states self)))
              (reverse (reverse (replay_actions self))) ∧
    total = np_sum (undiscounted_rewards t) ∧
    p_loss = np_mean losses.*1 ∧ v_loss = np_mean losses.*2.
Proof.
  unfold update. intros H.
  apply bind_Ok in H as (R & HR & H).
  apply bind_Ok in H as (t & Ht & H).
  apply bind_Ok in H as (b & Hb & H).
  apply bind_Ok in H as ([ses1 losses] & Hl & H).
  injection H as <- <- <- <- <-.
  exists R, t, b, losses. by repeat split.
Qed.

(** What [update] reports as the reward: the bootstrap value plus the
    rewards of every transition but the chronologically last one. *)
Lemma update_total_rewards (STEP_COUNTER : Z) (ses ses' : session) (self self' : agent)
    (total p_loss v_loss : Q) :
  update function_id FUNCTIONS nn_value train STEP_COUNTER ses self
    = Ok (ses', self', (total, p_loss, v_loss)) →
  ∃ R, bootstrap nn_value (variables ses) (replay_states self) = Ok R ∧
    total = np_sum (R :: (rs2_reward <$> tail (reverse (replay_states self)))).
Proof.
  intros (R & t & b & losses & HR & Ht & _ & _ & _ & -> & _)%update_inv.
  exists R. split; [done|]. by rewrite (compute_targets_undiscounted _ _ _ _ Ht).
Qed.

Lemma bootstrap_Ok (w : Weights) states :
  states ≠ [] → ∃ R, bootstrap nn_value w states = Ok R.
Proof.
  destruct states as [|s states _] using rev_ind; [done|]. intros _.
  rewrite bootstrap_last. by eexists.
Qed.

(** [update] returns on every buffer that holds what [step] records. *)
Lemma update_Ok (STEP_COUNTER : Z) (ses : session) (self : agent) :
  wf_buffer function_id FUNCTIONS self →
  ∃ ses' self' res,
    update function_id FUNCTIONS nn_value train STEP_COUNTER ses self = Ok (ses', self', res).
Proof.
  intros (Hne & Hlen & Hwf). unfold update.
  destruct (bootstrap_Ok (variables ses) _ Hne) as [R ->]. rewrite Ok_bind.
  cbn [replay_states replay_actions set_replay].
  destruct (compute_targets_Ok R (reverse (replay_states self))
              (reverse (replay_actions self))) as [t ->].
  { intros Hnil. apply Hne. by rewrite <- (reverse_involutive (replay_states self)), Hnil. }
  { by rewrite !length_reverse. }
  { by apply Forall_reverse. }
  rewrite Ok_bind. destruct (split_targets_spec t) as (b & -> & Hb). rewrite Ok_bind.
  destruct (train_loop_spec ses t b (learning_rate_at STEP_COUNTER) Hb)
    as (ses' & losses & feeds & -> & _).
  rewrite Ok_bind. by eexists _, _, _.
Qed.

(** C5 (amended). For every trajectory length T for which [update] returns
    (T >= 1), the T-length target arrays are split into NUM_BATCHES
    contiguous chunks of near-equal size, the first T mod NUM_BATCHES of them
    holding one sample more than the others; the chunks put together give
    back every array, so every sample is fed exactly once, whether
    T >= NUM_BATCHES or T < NUM_BATCHES (then chunks are empty), and one
    training run is issued per chunk, in order. *)
Theorem batch_coverage (STEP_COUNTER : Z) (ses ses' : session) (self self' : agent)
    (res : Q * Q * Q) :
  update function_id FUNCTIONS nn_value train STEP_COUNTER ses self = Ok (ses', self', res) →
  ∃ R t feeds,
    compute_targets function_id FUNCTIONS R
      (reverse (replay_states self)) (reverse (replay_actions self)) = Ok t ∧
    length (cumulated_rewards t) = length (replay_states self) ∧
    (1 ≤ length (replay_states self))%nat ∧
    train_runs ses' = train_runs ses ++ feeds ∧
    length feeds = NUM_BATCHES ∧
    feeds_cover feeds t ∧
    ∀ i f, feeds !! i = Some f →
      feed_size f (section_length (length (replay_states self)) NUM_BATCHES i).
Proof.
  destruct res as [[total p_loss] v_loss].
  intros (R & t & b & losses & HR & Ht & Hb & Hloop & _)%update_inv.
  pose proof (compute_targets_shape _ _ _ _ Ht) as Hshape.
  destruct (split_targets_spec t) as (b' & Hb' & Hbatches).
  assert (b' = b) as -> by congruence.
  destruct (train_loop_spec ses t b (learning_rate_at STEP_COUNTER) Hbatches)
    as (ses1 & losses1 & feeds & Hloop1 & Hruns & _ & Hfeeds).
  assert (ses1 = ses') as -> by congruence.
  destruct (feeds_are_cover _ _ _ _ _ Hshape Hbatches Hfeeds) as (Hlen & Hcover & Hsize).
  rewrite length_reverse in Hsize.
  exists R, t, feeds. split; [done|]. split.
  { destruct Hshape as [-> _]. apply length_reverse. }
  split.
  { destruct (replay_states self); [by rewrite bootstrap_empty in HR|simpl; lia]. }
  done.
Qed.

End UpdateProperties.

Lemma sample_targets_eq :
  compute_targets sample_function_id sample_FUNCTIONS 10
    (reverse sample_states) (reverse sample_actions) = Ok sample_targets.
Proof. vm_compute. reflexivity. Qed.

Lemma sample_update_eq :
  update sample_function_id sample_FUNCTIONS sample_nn_value sample_train
    0 (Session tt []) (Agent 0 1 0 sample_states sample_actions)
  = Ok (sample_outcome.1.1, sample_outcome.1.2, sample_outcome.2).
Proof. vm_compute. reflexivity. Qed.

Lemma sample_long_update_eq :
  update sample_function_id sample_FUNCTIONS sample_nn_value sample_train
    0 (Session tt []) (Agent 0 1 0 sample_long_states sample_long_actions)
  = Ok (sample_long_outcome.1.1, sample_long_outcome.1.2, sample_long_outcome.2).
Proof. vm_compute. reflexivity. Qed.

Lemma discounted_returns_recurrence_witness :
  (1 ≤ length sample_states)%nat ∧
  length (cumulated_rewards sample_targets) = length sample_states ∧
  cumulated_rewards sample_targets !! 0%nat = Some 10%Q ∧
  (∀ (i : nat) s prev, (0 < i < length sample_states)%nat →
     sample_states !! (length sample_states - 1 - i)%nat = Some s →
     cumulated_rewards sample_targets !! (i - 1)%nat = Some prev →
     cumulated_rewards sample_targets !! i = Some (rs2_reward s + DISCOUNT_FACTOR * prev)%Q) ∧
  (rs2_reward <$> sample_states = [1%Q; 2%Q; 3%Q] → 10%Q = 10%Q →
     ∃ r1 r2, cumulated_rewards sample_targets = [10%Q; r1; r2] ∧
       (r1 == 119 # 10)%Q ∧ (r2 == 12781 # 1000)%Q).
Proof.
  exact (discounted_returns_recurrence sample_function_id sample_FUNCTIONS
           10 sample_states sample_actions sample_targets sample_targets_eq).
Defined.

(** The returns the code computes for the worked example. *)
Lemma sample_returns :
  match compute_targets sample_function_id sample_FUNCTIONS 10
          (reverse sample_states) (reverse sample_actions) with
  | Ok t => Qred <$> cumulated_rewards t = [10%Q; 119 # 10; 12781 # 1000]
  | Raise _ => False
  end.
Proof. by vm_compute. Qed.

(** C1, as stated, fails on the worked example: the second reversed return
    is 11.9, not 12.9. *)
Lemma worked_example_counterexample :
  ∃ t, compute_targets sample_function_id sample_FUNCTIONS 10
         (reverse sample_states) (reverse sample_actions) = Ok t ∧
    ¬ worked_example_as_specified (cumulated_rewards t).
Proof.
  pose proof sample_returns as H.
  destruct (compute_targets _ _ _ _ _) as [t|]; [|done].
  exists t. split; [done|]. intros (r0 & r1 & r2 & Heq & _ & H1 & _).
  rewrite Heq in H. injection H as _ H _.
  rewrite <- (Qred_correct r1), H in H1. by vm_compute in H1.
Qed.

(** C4 at a failing input: for the non-terminal episode with rewards 1, 2, 3
    and value estimate 10, [update] reports 10 + 2 + 1 = 13, not 1 + 2 + 3 = 6. *)
Lemma reported_reward_sample :
  match sample_update sample_states sample_actions with
  | Ok (_, _, (total_rewards, _, _)) =>
      (total_rewards == 13)%Q ∧
      ¬ (total_rewards == np_sum (rs2_reward <$> sample_states))%Q
  | Raise _ => False
  end.
Proof. vm_compute. split; [done|discriminate]. Qed.

(** The same on an episode that ends in a terminal state: [update] reports
    0 + 2 + 1 = 3. *)
Lemma reported_reward_terminal_sample :
  match sample_update
          [sample_state 1 false; sample_state 2 false; sample_state 3 true]
          sample_actions with
  | Ok (_, _, (total_rewards, _, _)) => (total_rewards == 3)%Q
  | Raise _ => False
  end.
Proof. by vm_compute. Qed.

Lemma batch_coverage_witness :
  ∃ R t feeds,
    compute_targets sample_function_id sample_FUNCTIONS R
      (reverse sample_states) (reverse sample_actions) = Ok t ∧
    length (cumulated_rewards t) = length sample_states ∧
    (1 ≤ length sample_states)%nat ∧
    train_runs sample_outcome.1.1 = [] ++ feeds ∧
    length feeds = NUM_BATCHES ∧
    feeds_cover feeds t ∧
    ∀ i f, feeds !! i = Some f →
      feed_size f (section_length (length sample_states) NUM_BATCHES i).
Proof.
  exact (batch_coverage sample_function_id sample_FUNCTIONS sample_nn_value sample_train
           0 (Session tt []) sample_outcome.1.1
           (Agent 0 1 0 sample_states sample_actions) sample_outcome.1.2
           sample_outcome.2 sample_update_eq).
Defined.

(** The sizes of the chunks fed for a 21-step episode. *)
Lemma sample_long_chunks :
  length <$> (feed_R <$> train_runs sample_long_outcome.1.1)
    = 2%nat :: replicate 19 1%nat.
Proof. vm_compute. reflexivity. Qed.

(** C5, as stated, fails for T = 21: the first chunk, not the final one,
    takes the extra sample. *)
Lemma final_chunk_counterexample :
  ∃ ses' self' res,
    update sample_function_id sample_FUNCTIONS sample_nn_value sample_train
      0 (Session tt []) (Agent 0 1 0 sample_long_states sample_long_actions)
      = Ok (ses', self', res) ∧
    length sample_long_states = 21%nat ∧
    ¬ final_chunk_absorbs_remainder NUM_BATCHES 21 (feed_R <$> train_runs ses').
Proof.
  exists sample_long_outcome.1.1, sample_long_outcome.1.2, sample_long_outcome.2.
  split; [exact sample_long_update_eq|]. split; [done|].
  intros Hspec. pose proof sample_long_chunks as H.
  destruct (feed_R <$> train_runs sample_long_outcome.1.1) as [|chunk chunks]; [done|].
  specialize (Hspec 0%nat chunk eq_refl). injection H as H _.
  rewrite H in Hspec. by vm_compute in Hspec.
Qed.

(** ** step: exploration and the spatial target *)

Lemma Qltb_lt (x y : Q) : Qltb x y = true ↔ (x < y)%Q.
Proof. unfold Qltb, Qlt. apply Z.ltb_lt. Qed.

Section StepProperties.
Context {Screen Info Weights RawObservation Rng : Type}.
Variable function_id : sc2_function → Z.
Variable FUNCTIONS : Z → option function_info.
Variable nn_value : Weights → Screen → Info → Q.
Variable train : Weights → @feed Screen Info → Weights * (Q * Q).
Variable create_feed_dict : RawObservation → list Z → Screen * Info.
Variable nn_policy : Weights → Screen → Info → list Q * list Q.
Variable rand : Rng → Q * Rng.
Variable choice : Rng → list Z → result Z * Rng.
Variable randint : Rng → Z → Z → Z * Rng.
Variable valid_actions_list : list Z → list Z.

(** The schedule is linear in the step counter, with slope 1 / MAX_STEPS_TOTAL. *)
Lemma explore_at_linear (STEP_COUNTER : Z) :
  (explore_at STEP_COUNTER ==
     (1 - EXPLORATION_RATE) + inject_Z STEP_COUNTER / inject_Z MAX_STEPS_TOTAL)%Q.
Proof. unfold explore_at. field. by vm_compute. Qed.

Lemma explore_check_spec (g : Rng) (explore : Q) :
  (explore_check rand g explore).1 = true ↔
  (explore < (rand g).1 ∨ (rand (rand g).2).1 < EPSILON)%Q.
Proof.
  unfold explore_check. destruct (rand g) as [d1 g1]. simpl.
  destruct (Qltb explore d1) eqn:E1.
  - simpl. apply Qltb_lt in E1. split; [by left|done].
  - destruct (rand g1) as [d2 g2]. simpl. rewrite Qltb_lt. split; [by right|].
    intros [H|H]; [|done]. apply Qltb_lt in H. congruence.
Qed.

Lemma explore_action_inv (g g' : Rng) (explore : Q) (valid_actions : list Z)
    (action_id action_id' : Z) (random_action : bool) :
  explore_action rand choice g explore valid_actions action_id
    = Ok (g', action_id', random_action) →
  random_action = (explore_check rand g explore).1 ∧
  (random_action = true →
     (choice (explore_check rand g explore).2 valid_actions).1 = Ok action_id') ∧
  (random_action = false → action_id' = action_id).
Proof.
  unfold explore_action. destruct (explore_check rand g explore) as [hit g1]. simpl.
  destruct hit.
  - destruct (choice g1 valid_actions) as [r g2]. simpl. intros H.
    apply bind_Ok in H as (a & -> & [= <- <- <-]). by repeat split.
  - intros [= <- <- <-]. by repeat split.
Qed.

(** The action a returning [step] records: the buffers grow by one
    transition, whose action is the greedy one unless the exploration check
    hits. *)
Lemma step_inv (g g' : Rng) (STEP_COUNTER STEP_COUNTER' : Z) (ses ses' : session)
    (self self' : agent) (obs : timestep) (call : function_call) :
  step function_id FUNCTIONS nn_value train create_feed_dict nn_policy rand choice randint
    valid_actions_list g STEP_COUNTER ses self obs = Ok (g', STEP_COUNTER', ses', self', call) →
  let nn_input := create_feed_dict (obs_observation obs) (obs_available_actions obs) in
  let probs := nn_policy (variables ses) nn_input.1 nn_input.2 in
  ∃ greedy cell g1 a,
    STEP_COUNTER < MAX_STEPS_TOTAL ∧ STEP_COUNTER' = STEP_COUNTER + 1 ∧
    greedy_action function_id probs.1 (obs_available_actions obs) = Ok greedy ∧
    np_argmax probs.2 = Ok cell ∧
    explore_action rand choice g (explore_at STEP_COUNTER)
      (valid_actions_list (obs_available_actions obs)) greedy
      = Ok (g1, ra0_action_id a, ra3_random_action a) ∧
    (ra4_random_position a = false → ra1_action_target a = decode_target cell) ∧
    ra2_valid_actions a = valid_actions_list (obs_available_actions obs) ∧
    replay_actions self' = replay_actions self ++ [a] ∧
    length (replay_states self') = S (length (replay_states self)).
Proof.
  unfold step. case_decide as Hs.
  { intros H. by apply bind_Ok in H as (? & _ & ?). }
  destruct (nn_policy _ _ _) as [non_spatial_action spatial_action] eqn:Epol.
  intros H. simpl.
  apply bind_Ok in H as (greedy & Hgreedy & H).
  apply bind_Ok in H as (cell & Hcell & H).
  apply bind_Ok in H as ([[[[g2 action_id] action_target] random_action] random_position] & Hr & H).
  apply bind_Ok in H as (minerals & _ & H).
  apply bind_Ok in H as (vespene & _ & H).
  apply bind_Ok in H as (f & _ & H).
  injection H as <- <- <- <- <-.
  change TRAINING with true in Hr. cbv iota in Hr.
  apply bind_Ok in Hr as ([[g1 a1] ra] & Hact & Hr).
  destruct (explore_position rand randint g1 (explore_at STEP_COUNTER) (decode_target cell))
    as [[g3 pos] rp] eqn:Epos.
  injection Hr as <- <- <- <- <-.
  exists greedy, cell, g1,
    (ReplayAction a1 pos (valid_actions_list (obs_available_actions obs)) ra rp).
  simpl. repeat split; try done; try lia.
  - intros ->. unfold explore_position in Epos.
    destruct (explore_check rand g1 (explore_at STEP_COUNTER)) as [[] g4].
    + by destruct (randint g4 _ _) as [y g5], (randint g5 _ _) as [x g6].
    + by injection Epos as <- <-.
  - rewrite length_app. simpl. lia.
Qed.

(** C3 (amended). For every global step count s at which [step] returns
    (s < maxSteps), the schedule value it computes is the linear function
    (1 - explorationRate) + s / maxSteps: it equals 1 - explorationRate at
    s = 0, reaches 1.0 already at s = explorationRate * maxSteps and is above
    1.0 from there on.  The recorded action is replaced exactly when a random
    draw exceeds the schedule value or the following draw falls below
    epsilon, and is the greedy action otherwise.  The replacement is a
    uniform random draw over the currently legal actions: it is the element
    at the position that [randint] draws from 0 .. n - 1 in the list of the
    n legal actions, a list in which every legal action occurs exactly once. *)
Theorem exploration_override (g g' : Rng) (STEP_COUNTER STEP_COUNTER' : Z)
    (ses ses' : session) (self self' : agent) (obs : timestep) (call : function_call) :
  lists_valid_actions function_id valid_actions_list →
  choice_by_position choice randint →
  (∀ g0 low high, low < high → low ≤ (randint g0 low high).1 < high) →
  step function_id FUNCTIONS nn_value train create_feed_dict nn_policy rand choice randint
    valid_actions_list g STEP_COUNTER ses self obs
    = Ok (g', STEP_COUNTER', ses', self', call) →
  STEP_COUNTER < MAX_STEPS_TOTAL ∧
  (explore_at STEP_COUNTER ==
     (1 - EXPLORATION_RATE) + inject_Z STEP_COUNTER / inject_Z MAX_STEPS_TOTAL)%Q ∧
  (explore_at 0 == 1 - EXPLORATION_RATE)%Q ∧
  (explore_at 2000000 == 1)%Q ∧
  (2000000 < STEP_COUNTER → (1 < explore_at STEP_COUNTER)%Q) ∧
  let nn_input := create_feed_dict (obs_observation obs) (obs_available_actions obs) in
  let probs := nn_policy (variables ses) nn_input.1 nn_input.2 in
  ∃ greedy a,
    greedy_action function_id probs.1 (obs_available_actions obs) = Ok greedy ∧
    replay_actions self' = replay_actions self ++ [a] ∧
    NoDup (ra2_valid_actions a) ∧
    (∀ i, i ∈ ra2_valid_actions a ↔
       i ∈ obs_available_actions obs ∧ i ∈ executable_actions_ids function_id) ∧
    (ra3_random_action a = true ↔
       (explore_at STEP_COUNTER < (rand g).1 ∨ (rand (rand g).2).1 < EPSILON)%Q) ∧
    (ra3_random_action a = true →
       let g0 := (explore_check rand g (explore_at STEP_COUNTER)).2 in
       let n := Z.of_nat (length (ra2_valid_actions a)) in
       let k := (randint g0 0 n).1 in
       0 ≤ k < n ∧ ra2_valid_actions a !! Z.to_nat k = Some (ra0_action_id a)) ∧
    (ra3_random_action a = false → ra0_action_id a = greedy).
Proof.
  intros Horder [Hempty Hchoice] Hrandint Hstep.
  destruct (step_inv _ _ _ _ _ _ _ _ _ _ Hstep)
    as (greedy & cell & g1 & a & Hs & _ & Hgreedy & _ & Hact & _ & Hvalid & Hacts & _).
  split; [done|]. split; [apply explore_at_linear|]. split; [by vm_compute|].
  split; [by vm_compute|]. split.
  { intros Hlate. rewrite explore_at_linear. unfold EXPLORATION_RATE.
    change (inject_Z MAX_STEPS_TOTAL) with (10000000 # 1)%Q.
    rewrite Zlt_Qlt in Hlate. change (inject_Z 2000000) with (2000000 # 1)%Q in Hlate.
    assert (inject_Z STEP_COUNTER / (10000000 # 1)
            == inject_Z STEP_COUNTER * (1 # 10000000))%Q as -> by (by field).
    lra. }
  destruct (explore_action_inv _ _ _ _ _ _ _ Hact) as (Hra & Hrandom & Hkeep).
  destruct (Horder (obs_available_actions obs)) as [Hnd Hmem].
  exists greedy, a. split; [done|]. split; [done|]. rewrite Hvalid.
  split; [done|]. split.
  { intros i. rewrite Hmem. unfold valid_actions_of.
    rewrite elem_of_intersection, !elem_of_list_to_set. tauto. }
  split; [rewrite Hra; apply explore_check_spec|]. split; [|done].
  intros Htrue. specialize (Hrandom Htrue). cbv zeta.
  set (legal := valid_actions_list (obs_available_actions obs)) in *.
  set (g0 := (explore_check rand g (explore_at STEP_COUNTER)).2) in *.
  assert (Hne : legal ≠ []).
  { intros Hnil. rewrite Hnil, Hempty in Hrandom. done. }
  rewrite (Hchoice g0 legal Hne) in Hrandom. cbn [fst] in Hrandom.
  assert (Hpos : 0 < Z.of_nat (length legal)).
  { destruct legal; [done|]. simpl. lia. }
  pose proof (Hrandint g0 0 (Z.of_nat (length legal)) Hpos) as Hk.
  split; [done|].
  rewrite <- (Z2Nat.id (randint g0 0 (Z.of_nat (length legal))).1) in Hrandom by lia.
  by apply getitem_nat_inv in Hrandom.
Qed.

End StepProperties.

Lemma tape_choice_elem (g : list Q) (l : list Z) (x : Z) :
  (tape_choice g l).1 = Ok x → x ∈ l.
Proof.
  unfold tape_choice. destruct (tape_rand g) as [d g1]. simpl.
  case_decide; [done|]. unfold getitem. intros Hx.
  apply bind_Ok in Hx as (k & _ & Hx). destruct (l !! k) eqn:E; [|done].
  injection Hx as <-. by eapply list_elem_of_lookup_2.
Qed.

Lemma sample_step_eq :
  sample_step [] 0 (Agent 0 0 0 [] []) =
    Ok (sample_step_outcome.1.1.1.1, sample_step_outcome.1.1.1.2,
        sample_step_outcome.1.1.2, sample_step_outcome.1.2, sample_step_outcome.2).
Proof. vm_compute. reflexivity. Qed.

Lemma sample_random_step_eq :
  sample_step [9 # 10; 3 # 4] 0 (Agent 0 0 0 [] []) =
    Ok (sample_random_step_outcome.1.1.1.1, sample_random_step_outcome.1.1.1.2,
        sample_random_step_outcome.1.1.2, sample_random_step_outcome.1.2,
        sample_random_step_outcome.2).
Proof. vm_compute. reflexivity. Qed.

(** The first-occurrence order lists every legal action once. *)
Lemma sample_lists_valid_actions :
  lists_valid_actions sample_function_id sample_valid_actions_list.
Proof.
  intros available. unfold sample_valid_actions_list, valid_actions_of. split.
  - apply NoDup_filter, NoDup_remove_dups.
  - intros i. rewrite list_elem_of_filter, elem_of_remove_dups.
    rewrite elem_of_intersection, !elem_of_list_to_set. tauto.
Qed.

(** The counting generator draws the position of a choice as [randint]
    does, and its integers lie in the requested range. *)
Lemma clock_choice_by_position : choice_by_position clock_choice clock_randint.
Proof.
  split; [done|]. intros n a Ha. unfold clock_choice, clock_randint. cbn [fst snd].
  f_equal. rewrite Z.add_0_l, Z.sub_0_r.
  assert (Hlen : (0 < length a)%nat) by (destruct a; [done|simpl; lia]).
  rewrite <- Nat2Z.inj_mod.
  destruct (lookup_lt_is_Some_2 a (n mod length a)) as [x Hx].
  { apply Nat.mod_upper_bound. lia. }
  by rewrite Hx, (getitem_nat _ _ _ Hx).
Qed.

Lemma clock_randint_range (n : nat) (low high : Z) :
  low < high → low ≤ (clock_randint n low high).1 < high.
Proof.
  intros Hlt. unfold clock_randint. simpl.
  pose proof (Z.mod_pos_bound (Z.of_nat n) (high - low) ltac:(lia)). lia.
Qed.

Lemma sample_clock_random_step_eq :
  sample_clock_step 90 0 (Agent 0 0 0 [] []) =
    Ok (sample_clock_random_outcome.1.1.1.1, sample_clock_random_outcome.1.1.1.2,
        sample_clock_random_outcome.1.1.2, sample_clock_random_outcome.1.2,
        sample_clock_random_outcome.2).
Proof. vm_compute. reflexivity. Qed.

Lemma exploration_override_witness :
  ∃ a,
    replay_actions sample_clock_random_outcome.1.2 = [] ++ [a] ∧
    NoDup (ra2_valid_actions a) ∧
    (∀ i, i ∈ ra2_valid_actions a ↔
       i ∈ [0; 331] ∧ i ∈ executable_actions_ids sample_function_id) ∧
    (ra3_random_action a = true ↔
       (explore_at 0 < (clock_rand 90).1 ∨ (clock_rand (clock_rand 90).2).1 < EPSILON)%Q) ∧
    (ra3_random_action a = true →
       let g0 := (explore_check clock_rand 90%nat (explore_at 0)).2 in
       let n := Z.of_nat (length (ra2_valid_actions a)) in
       let k := (clock_randint g0 0 n).1 in
       0 ≤ k < n ∧ ra2_valid_actions a !! Z.to_nat k = Some (ra0_action_id a)).
Proof.
  destruct (exploration_override sample_function_id sample_FUNCTIONS sample_nn_value
              sample_train (λ _ _, (tt, tt)) sample_nn_policy clock_rand clock_choice
              clock_randint sample_valid_actions_list 90%nat _ 0 _ (Session tt []) _
              (Agent 0 0 0 [] []) _ sample_obs _
              sample_lists_valid_actions clock_choice_by_position clock_randint_range
              sample_clock_random_step_eq)
    as (_ & _ & _ & _ & _ & greedy & a & _ & H1 & H2 & H3 & H4 & H5 & _).
  exists a. split; [exact H1|]. split; [exact H2|]. split; [exact H3|].
  split; [exact H4|exact H5].
Defined.

Lemma sample_mid_step_eq :
  sample_step [95 # 100; 1 # 2] 5000000 (Agent 0 0 0 [] []) =
    Ok (sample_mid_step_outcome.1.1.1.1, sample_mid_step_outcome.1.1.1.2,
        sample_mid_step_outcome.1.1.2, sample_mid_step_outcome.1.2,
        sample_mid_step_outcome.2).
Proof. vm_compute. reflexivity. Qed.

(** C3, as stated, fails at s = maxSteps / 2 = 5000000, a step that
    returns.  The schedule as specified is 0.9 there, and the first draw,
    0.95, exceeds it, so the action would be replaced; the schedule the code
    computes is 1.3, the draw does not exceed it, the second draw, 0.5, is
    not below epsilon, and the recorded action is the greedy one. *)
Lemma schedule_counterexample :
  (schedule_as_specified 0 == 1 - EXPLORATION_RATE)%Q ∧
  (schedule_as_specified MAX_STEPS_TOTAL == 1)%Q ∧
  (schedule_as_specified 5000000 == 9 # 10)%Q ∧
  (explore_at 5000000 == 13 # 10)%Q ∧
  (tape_rand [95 # 100; 1 # 2]).1 = 95 # 100 ∧
  (schedule_as_specified 5000000 < 95 # 100)%Q ∧
  ∃ g s ses self call,
    sample_step [95 # 100; 1 # 2] 5000000 (Agent 0 0 0 [] []) = Ok (g, s, ses, self, call) ∧
    replay_actions self = [ReplayAction 331 (0, 1) [0; 331] false false] ∧
    greedy_action sample_function_id (sample_nn_policy tt tt tt).1 [0; 331] = Ok 331.
Proof.
  split; [by vm_compute|]. split; [by vm_compute|]. split; [by vm_compute|].
  split; [by vm_compute|]. split; [done|]. split; [by vm_compute|].
  eexists _, _, _, _, _. split; [exact sample_mid_step_eq|].
  split; by vm_compute.
Qed.

(** *** The spatial target between [step] and [update] *)

(** [step] reads the flattened cell row-major; [update] writes the recorded
    pair back column-major, so the marked cell is the transposed one. *)
Lemma spatial_index_decode (f : Z) :
  spatial_index (decode_target f)
    = f `mod` A3C_SCREEN_SIZE_X * A3C_SCREEN_SIZE_Y + f `div` A3C_SCREEN_SIZE_Y.
Proof. done. Qed.

(** The marked cell is the chosen one only on the diagonal of the grid. *)
Lemma spatial_index_decode_fixed (f : Z) :
  spatial_index (decode_target f) = f ↔ f `div` 32 = f `mod` 32.
Proof.
  rewrite spatial_index_decode. unfold A3C_SCREEN_SIZE_X, A3C_SCREEN_SIZE_Y.
  pose proof (Z.div_mod f 32 ltac:(lia)). lia.
Qed.

Lemma sample_step_update_eq :
  update sample_function_id sample_FUNCTIONS sample_nn_value sample_train
    1 (Session tt []) sample_step_outcome.1.2
  = Ok (sample_step_update_outcome.1.1, sample_step_update_outcome.1.2,
        sample_step_update_outcome.2).
Proof. vm_compute. reflexivity. Qed.

(** C9 at a failing input: the network's spatial map has its maximum at
    flattened index 1 and the greedy action is [Move_screen], which takes a
    screen argument.  [step] records the target (0, 1); [update] then marks
    index 32 of the spatial one-hot vector, and leaves index 1 at zero. *)
Lemma spatial_roundtrip_sample :
  np_argmax (sample_nn_policy tt tt tt).2 = Ok 1 ∧
  ∃ g s ses self call,
    sample_step [] 0 (Agent 0 0 0 [] []) = Ok (g, s, ses, self, call) ∧
    replay_actions self = [ReplayAction 331 (0, 1) [0; 331] false false] ∧
    spatial_index (decode_target 1) = 32 ∧
    ∃ ses' self' res f,
      update sample_function_id sample_FUNCTIONS sample_nn_value sample_train
        1 (Session tt []) self = Ok (ses', self', res) ∧
      train_runs ses' !! 0%nat = Some f ∧
      feed_has_spatial_action f = [1%Q] ∧
      feed_spatial_action_selected f = [<[32%nat:=1%Q]> (zeros 1024)].
Proof.
  split; [by vm_compute|].
  eexists _, _, _, _, _. split; [exact sample_step_eq|].
  split; [by vm_compute|]. split; [done|].
  eexists _, _, _, _. split; [exact sample_step_update_eq|].
  split; [by vm_compute|]. split; by vm_compute.
Qed.

(** ** The action log *)

(** *** The stable descending sort *)

Lemma insert_desc_Permutation (x : Z * Z) (l : list (Z * Z)) : insert_desc x l ≡ₚ x :: l.
Proof.
  induction l as [|y l IH]; simpl; [done|]. case_decide; [|done].
  rewrite IH. apply Permutation_swap.
Qed.

Lemma sort_desc_Permutation (l : list (Z * Z)) : sort_desc l ≡ₚ l.
Proof.
  induction l as [|x l IH]; simpl; [done|].
  by rewrite insert_desc_Permutation, IH.
Qed.

Lemma insert_desc_Sorted (x : Z * Z) (l : list (Z * Z)) :
  Sorted (λ a b, b.2 ≤ a.2) l → Sorted (λ a b, b.2 ≤ a.2) (insert_desc x l).
Proof.
  induction 1 as [|y l Hl IH Hy]; simpl; [by repeat constructor|].
  case_decide.
  - constructor; [done|]. destruct Hy as [|z l Hz]; simpl.
    + constructor. lia.
    + case_decide; constructor; lia.
  - repeat constructor; [done|done|lia].
Qed.

Lemma sort_desc_Sorted (l : list (Z * Z)) : Sorted (λ a b, b.2 ≤ a.2) (sort_desc l).
Proof.
  induction l as [|x l IH]; simpl; [constructor|]. by apply insert_desc_Sorted.
Qed.

(** Stability: the pairs of any one value come out in the order they went in. *)
Lemma insert_desc_filter (v : Z) (x : Z * Z) (l : list (Z * Z)) :
  filter (λ p, p.2 = v) (insert_desc x l) = filter (λ p, p.2 = v) (x :: l).
Proof.
  induction l as [|y l IH]; simpl; [done|]. case_decide as Hlt; [|done].
  rewrite filter_cons. rewrite IH. rewrite !filter_cons.
  destruct (decide (y.2 = v)), (decide (x.2 = v)); try done. lia.
Qed.

Lemma sort_desc_stable (v : Z) (l : list (Z * Z)) :
  filter (λ p, p.2 = v) (sort_desc l) = filter (λ p, p.2 = v) l.
Proof.
  induction l as [|x l IH]; simpl; [done|].
  by rewrite insert_desc_filter, !filter_cons, IH.
Qed.

(** *** Removing the action elements *)

Lemma num_agent_clear_if (P : Z → Prop) `{!∀ e, Decision (P e)} (t : episode_entry) :
  num_agent (clear_if P t) = num_agent t.
Proof. unfold clear_if. by case_decide. Qed.

Lemma summary_clear_if (P : Z → Prop) `{!∀ e, Decision (P e)} (t : episode_entry) :
  summary (clear_if P t) = summary t.
Proof. unfold clear_if. by case_decide. Qed.

Lemma clear_if_absent (e : Z) (tree : list episode_entry) :
  e ∉ num_agent <$> tree → clear_if (λ n, n = e) <$> tree = tree.
Proof.
  induction tree as [|t tree IH]; csimpl; [done|]. intros Hne.
  apply not_elem_of_cons in Hne as [Hne Hne']. rewrite IH by done.
  unfold clear_if. by rewrite decide_False.
Qed.

(** With distinct episode numbers [tree.find] meets the only episode of
    that number. *)
Lemma remove_actions_unique (e : Z) (tree : list episode_entry) :
  NoDup (num_agent <$> tree) → e ∈ num_agent <$> tree →
  remove_actions e tree = Ok (clear_if (λ n, n = e) <$> tree).
Proof.
  induction tree as [|t tree IH]; csimpl; intros Hnd He; [by apply elem_of_nil in He|].
  apply NoDup_cons in Hnd as [Hnin Hnd]. unfold clear_if at 1. case_decide as Ht.
  - subst e. by rewrite clear_if_absent.
  - apply elem_of_cons in He as [?|He]; [done|]. by rewrite IH.
Qed.

Lemma for_each_remove_actions (es : list Z) (tree : list episode_entry) :
  NoDup (num_agent <$> tree) → (∀ e, e ∈ es → e ∈ num_agent <$> tree) →
  for_each es remove_actions tree = Ok (clear_if (λ n, n ∈ es) <$> tree).
Proof.
  revert tree. induction es as [|e es IH]; intros tree Hnd Hes; simpl.
  - f_equal. clear Hnd Hes. induction tree as [|t tree IHt]; csimpl; [done|].
    rewrite <- IHt. unfold clear_if. rewrite decide_False; [done|]. apply not_elem_of_nil.
  - assert (Hids : num_agent <$> (clear_if (λ n, n = e) <$> tree) = num_agent <$> tree).
    { rewrite <- list_fmap_compose. apply list_fmap_ext. intros i t _. simpl.
      apply num_agent_clear_if. }
    rewrite remove_actions_unique; [|done|apply Hes; left]. rewrite Ok_bind.
    rewrite IH; [|by rewrite Hids|intros e' He'; rewrite Hids; apply Hes; by right].
    f_equal. rewrite <- list_fmap_compose. apply list_fmap_ext. intros i t _. simpl.
    unfold clear_if. destruct t as [ng na tm tg la lc r acts]. simpl.
    destruct (decide (na = e)) as [->|Hne]; simpl.
    + rewrite (decide_True (P := e ∈ e :: es)) by left. by case_decide.
    + destruct (decide (na ∈ es)) as [Hin|Hnin].
      * by rewrite (decide_True (P := na ∈ e :: es)) by (by right).
      * rewrite (decide_False (P := na ∈ e :: es)); [done|].
        intros [?|?]%elem_of_cons; done.
Qed.

(** *** Appending to the log *)

Lemma clear_if_ext (P Q : Z → Prop) `{!∀ e, Decision (P e)} `{!∀ e, Decision (Q e)}
    (t : episode_entry) :
  (P (num_agent t) ↔ Q (num_agent t)) → clear_if P t = clear_if Q t.
Proof. intros HPQ. unfold clear_if. repeat case_decide; tauto. Qed.

Lemma map_result_Ok {A B} (f : A → result B) (l : list A) :
  (∀ x, x ∈ l → ∃ y, f x = Ok y) →
  ∃ ys, map_result f l = Ok ys ∧ length ys = length l.
Proof.
  induction l as [|x l IH]; intros Hf; simpl; [by exists []|].
  destruct (Hf x) as [y ->]; [left|]. rewrite Ok_bind.
  destruct IH as (ys & -> & Hlen); [intros x' Hx'; apply Hf; by right|].
  rewrite Ok_bind. exists (y :: ys). simpl. by rewrite Hlen.
Qed.

Lemma sort_desc_ids (e : Z) (l : list (Z * Z)) : e ∈ (sort_desc l).*1 ↔ e ∈ l.*1.
Proof. by rewrite sort_desc_Permutation. Qed.

Section LogProperties.
Context {Screen Info : Type}.
Variable FUNCTIONS : Z → option function_info.
Implicit Types (tree : list episode_entry) (self : @agent Screen Info).

(** The new episode is among the ten most recent, hence always retained. *)
Lemma new_episode_kept (episodes : Z) (mins gas : list (Z * Z)) :
  episodes ∈ kept_episodes episodes mins gas.
Proof.
  unfold kept_episodes. rewrite elem_of_list_to_set, elem_of_app. right.
  apply elem_of_seqZ. unfold DETAILED_LOGS. lia.
Qed.

(** The episodes stripped at an append are those of the log outside the
    retained set. *)
Lemma other_episodes_spec (episodes v w e : Z) tree :
  e ∈ other_episodes episodes (minerals_per_episode episodes v tree)
        (gas_per_episode episodes w tree) ↔
  e ∈ num_agent <$> tree ∧
  e ∉ kept_episodes episodes (minerals_per_episode episodes v tree)
        (gas_per_episode episodes w tree).
Proof.
  unfold other_episodes. rewrite elem_of_difference, elem_of_list_to_set.
  rewrite fmap_app, elem_of_app, !sort_desc_ids.
  unfold minerals_per_episode, gas_per_episode. rewrite !fmap_cons. simpl.
  rewrite <- !list_fmap_compose, !elem_of_cons.
  change ((fst ∘ (λ t : episode_entry, (num_agent t, total_collected_minerals t))) <$> tree)
    with (num_agent <$> tree).
  change ((fst ∘ (λ t : episode_entry, (num_agent t, total_collected_gas t))) <$> tree)
    with (num_agent <$> tree).
  pose proof (new_episode_kept episodes
    ((episodes, v) :: ((λ t, (num_agent t, total_collected_minerals t)) <$> tree))
    ((episodes, w) :: ((λ t, (num_agent t, total_collected_gas t)) <$> tree))) as Hnew.
  split.
  - intros [[[->|?]|[->|?]] Hk]; done.
  - intros [? ?]. split; [by left; right|done].
Qed.

Lemma performed_actions_Ok self :
  loggable FUNCTIONS self →
  ∃ trace, map_result (performed_action FUNCTIONS (replay_states self))
             (imap pair (replay_actions self)) = Ok trace ∧
    length trace = length (replay_actions self).
Proof.
  intros [Hlen Hknown].
  destruct (map_result_Ok (performed_action FUNCTIONS (replay_states self))
              (imap pair (replay_actions self))) as (trace & Htrace & Hl).
  - intros [i a] (i' & a' & [= -> ->] & Ha)%elem_of_lookup_imap_1.
    unfold performed_action.
    destruct (Forall_lookup_1 _ _ _ _ Hknown Ha) as [f ->]. simpl.
    destruct (getitem_Ok (replay_states self) i') as (s & -> & _).
    { apply lookup_lt_Some in Ha. lia. }
    by eexists.
  - exists trace. by rewrite Hl, length_imap.
Qed.

Lemma map_result_lookup {A B} (f : A → result B) (l : list A) (ys : list B) :
  map_result f l = Ok ys →
  ∀ i y, ys !! i = Some y → ∃ x, l !! i = Some x ∧ f x = Ok y.
Proof.
  revert ys. induction l as [|x l IH]; intros ys H; simpl in H.
  - injection H as <-. intros i y Hy. by rewrite lookup_nil in Hy.
  - apply bind_Ok in H as (y0 & Hy0 & H). apply bind_Ok in H as (ys0 & Hys0 & [= <-]).
    intros [|i] y Hy; simpl in *.
    + injection Hy as <-. by exists x.
    + by apply (IH ys0).
Qed.

(** A returning append: the episodes of the log outside the retained set
    lose their action elements, and the new entry comes last with the trace
    of the whole buffer. *)
Lemma save_action_log_appends (log : option (list episode_entry)) self
    (states : list replay_state) (s : replay_state)
    (num_episode : Z) (reward policy_loss value_loss : Q) :
  replay_states self = states ++ [s] →
  loggable FUNCTIONS self →
  NoDup (num_agent <$> default [] log) →
  episodes self ∉ (num_agent <$> default [] log) →
  ∃ trace,
    map_result (performed_action FUNCTIONS (replay_states self))
      (imap pair (replay_actions self)) = Ok trace ∧
    length trace = length (replay_actions self) ∧
    save_action_log FUNCTIONS log self num_episode reward policy_loss value_loss
      = Ok ((clear_if (λ n, n ∉ retained_set (default [] log) self s) <$> default [] log)
            ++ [EpisodeEntry num_episode (episodes self) (rs4_collected_vespene s)
                  (Z.b2z (rs5_last s)) policy_loss value_loss reward trace]).
Proof.
  intros Hstates Hlog Hnd Hfresh.
  set (tree := default [] log) in *.
  set (kept := retained_set tree self s).
  assert (Hkept : episodes self ∈ kept) by apply new_episode_kept.
  destruct (performed_actions_Ok self Hlog) as (trace & Htrace & Hlen).
  exists trace. split; [done|]. split; [done|].
  set (entry := EpisodeEntry num_episode (episodes self) (rs4_collected_vespene s)
                  (Z.b2z (rs5_last s)) policy_loss value_loss reward trace).
  unfold save_action_log. rewrite Hstates, getitem_last, Ok_bind. rewrite <- Hstates.
  fold tree. fold (retained_set tree self s). fold kept.
  rewrite decide_True by done. rewrite Htrace, Ok_bind. fold entry.
  rewrite for_each_remove_actions.
  - f_equal. rewrite fmap_app. f_equal.
    + apply list_fmap_ext. intros i t Ht. apply clear_if_ext.
      rewrite elem_of_elements, other_episodes_spec. fold (retained_set tree self s).
      fold kept. split; [tauto|]. intros Hk. split; [|done].
      apply list_elem_of_fmap_2. by eapply list_elem_of_lookup_2.
    + simpl. f_equal. unfold clear_if. rewrite decide_False; [done|]. simpl.
      rewrite elem_of_elements, other_episodes_spec. tauto.
  - rewrite fmap_app. apply NoDup_app. split; [done|]. split; [|apply NoDup_singleton].
    intros e He. simpl. by intros ->%list_elem_of_singleton.
  - intros e He. rewrite elem_of_elements, other_episodes_spec in He.
    rewrite fmap_app, elem_of_app. left. apply He.
Qed.

(** C6 (amended). After every append to a worker's log whose episode
    numbers are distinct and differ from the new one, with
    retained = (ten best episodes by the first recorded total, descending)
    ∪ (ten best by the second) ∪ (the ten most recent episode numbers):
    the new entry is always in the retained set and carries its full trace;
    every other episode outside the retained set has its trace stripped;
    every episode inside it is left as it was, so an episode stripped
    earlier stays without trace; the episodes with a trace are therefore a
    subset of the retained set; and all summary fields are intact. *)
Theorem log_retention (log : option (list episode_entry)) self
    (states : list replay_state) (s : replay_state)
    (num_episode : Z) (reward policy_loss value_loss : Q) :
  replay_states self = states ++ [s] →
  loggable FUNCTIONS self →
  NoDup (num_agent <$> default [] log) →
  episodes self ∉ (num_agent <$> default [] log) →
  ∃ tree' trace,
    save_action_log FUNCTIONS log self num_episode reward policy_loss value_loss = Ok tree' ∧
    tree' = (clear_if (λ n, n ∉ retained_set (default [] log) self s) <$> default [] log)
            ++ [EpisodeEntry num_episode (episodes self) (rs4_collected_vespene s)
                  (Z.b2z (rs5_last s)) policy_loss value_loss reward trace] ∧
    length trace = length (replay_actions self) ∧
    episodes self ∈ retained_set (default [] log) self s ∧
    summary <$> tree' =
      (summary <$> default [] log)
      ++ [(num_episode, episodes self, rs4_collected_vespene s, Z.b2z (rs5_last s),
           policy_loss, value_loss, reward)] ∧
    traced_episodes tree' ⊆ retained_set (default [] log) self s ∧
    (∀ t, t ∈ tree' → num_agent t ∉ retained_set (default [] log) self s → actions t = []) ∧
    (∀ t, t ∈ default [] log → num_agent t ∈ retained_set (default [] log) self s → t ∈ tree').
Proof.
  intros Hstates Hlog Hnd Hfresh.
  destruct (save_action_log_appends log self states s num_episode reward policy_loss
              value_loss Hstates Hlog Hnd Hfresh) as (trace & _ & Hlen & Hsave).
  set (tree := default [] log) in *.
  set (kept := retained_set tree self s) in *.
  assert (Hkept : episodes self ∈ kept) by apply new_episode_kept.
  set (entry := EpisodeEntry num_episode (episodes self) (rs4_collected_vespene s)
                  (Z.b2z (rs5_last s)) policy_loss value_loss reward trace) in *.
  exists ((clear_if (λ n, n ∉ kept) <$> tree) ++ [entry]), trace.
  split; [done|]. split; [done|]. split; [done|]. split; [done|]. split.
  { rewrite fmap_app. f_equal. rewrite <- list_fmap_compose.
    apply list_fmap_ext. intros i t _. simpl. apply summary_clear_if. }
  assert (Hstripped : ∀ t, t ∈ (clear_if (λ n, n ∉ kept) <$> tree) ++ [entry] →
            num_agent t ∉ kept → actions t = []).
  { intros t [Ht|Ht]%elem_of_app Hout.
    - apply list_elem_of_fmap in Ht as (t0 & -> & _).
      rewrite num_agent_clear_if in Hout. unfold clear_if. by rewrite decide_True.
    - apply list_elem_of_singleton in Ht as ->. done. }
  split; [|split; [done|]].
  - intros e He. unfold traced_episodes in He. rewrite elem_of_list_to_set in He.
    apply list_elem_of_fmap in He as (t & -> & [Hact Ht]%list_elem_of_filter).
    destruct (decide (num_agent t ∈ kept)) as [|Hout]; [done|].
    by specialize (Hstripped t Ht Hout).
  - intros t Ht Hin. apply elem_of_app. left.
    apply list_elem_of_fmap. exists t. split; [|done].
    unfold clear_if. rewrite decide_False; [done|]. by intros ?.
Qed.

End LogProperties.

(** ** The buffers across [update] *)

Section BufferProperties.
Context {Screen Info Weights : Type}.
Variable function_id : sc2_function → Z.
Variable FUNCTIONS : Z → option function_info.
Variable nn_value : Weights → Screen → Info → Q.
Variable train : Weights → @feed Screen Info → Weights * (Q * Q).

Lemma set_replay_same (self : @agent Screen Info) :
  set_replay self (reverse (reverse (replay_states self)))
    (reverse (reverse (replay_actions self))) = self.
Proof. rewrite !reverse_involutive. by destruct self. Qed.

Lemma wf_buffer_loggable (self : @agent Screen Info) :
  wf_buffer function_id FUNCTIONS self → loggable FUNCTIONS self.
Proof.
  intros (_ & Hlen & Hwf). split; [lia|].
  eapply Forall_impl; [exact Hwf|]. by intros a (_ & _ & Hf & _).
Qed.

(** C10. For every non-empty buffer that holds what [step] records,
    [update] returns and leaves the agent, its two replay lists included,
    as it found it: the targets are computed on the reversed lists, and both
    are reversed back before the return.  The log entry written afterwards
    therefore lists the transitions in step order: its i-th action element
    is made from the i-th action and the i-th state of the buffer. *)
Theorem update_restores_buffers (STEP_COUNTER : Z) (ses : session) (self : agent) :
  wf_buffer function_id FUNCTIONS self →
  ∃ ses' res R t,
    update function_id FUNCTIONS nn_value train STEP_COUNTER ses self = Ok (ses', self, res) ∧
    compute_targets function_id FUNCTIONS R
      (reverse (replay_states self)) (reverse (replay_actions self)) = Ok t ∧
    screen_states t = rs0_screen <$> reverse (replay_states self) ∧
    ∀ (log : option (list episode_entry)) (num_episode : Z)
      (reward policy_loss value_loss : Q),
      NoDup (num_agent <$> default [] log) →
      episodes self ∉ (num_agent <$> default [] log) →
      ∃ tree' entry,
        save_action_log FUNCTIONS log self num_episode reward policy_loss value_loss
          = Ok tree' ∧
        last tree' = Some entry ∧
        length (actions entry) = length (replay_actions self) ∧
        ∀ i e, actions entry !! i = Some e →
          ∃ a s f,
            replay_actions self !! i = Some a ∧
            replay_states self !! i = Some s ∧
            FUNCTIONS (ra0_action_id a) = Some f ∧
            e = ActionEntry (fn_name f) (ra1_action_target a).1 (ra1_action_target a).2
                  (ra3_random_action a) (ra4_random_position a)
                  (rs4_collected_vespene s) (Z.b2z (rs5_last s)).
Proof.
  intros Hwf.
  destruct (update_Ok function_id FUNCTIONS nn_value train STEP_COUNTER ses self Hwf)
    as (ses' & self' & [[total p_loss] v_loss] & Hupd).
  destruct (update_inv _ _ _ _ _ _ _ _ _ _ _ _ Hupd)
    as (R & t & b & losses & _ & Ht & _ & _ & Hself & _).
  rewrite set_replay_same in Hself. subst self'.
  exists ses', (total, p_loss, v_loss), R, t. split; [done|]. split; [done|]. split.
  { destruct (compute_targets_shape _ _ _ _ _ _ Ht) as (_ & _ & _ & _ & _ & _ & _ & _ & -> & _).
    by rewrite firstn_all. }
  intros log num_episode reward policy_loss value_loss Hnd Hfresh.
  pose proof (wf_buffer_loggable self Hwf) as Hloggable.
  destruct Hwf as (Hne & _).
  destruct (replay_states self) as [|s states _] eqn:Hstates using rev_ind; [done|].
  destruct (save_action_log_appends FUNCTIONS log self states s num_episode reward
              policy_loss value_loss Hstates Hloggable Hnd Hfresh)
    as (trace & Htrace & Hltrace & Hsave).
  eexists _, _. split; [exact Hsave|]. split; [apply last_snoc|]. split; [done|].
  intros i e He. simpl in He.
  destruct (map_result_lookup _ _ _ Htrace i e He) as ([i' a] & Hia & Hperf).
  rewrite list_lookup_imap in Hia.
  destruct (replay_actions self !! i) as [a'|] eqn:Ha; [|done].
  simpl in Hia. injection Hia as <- <-.
  unfold performed_action in Hperf.
  apply bind_Ok in Hperf as (f & Hf & Hperf).
  apply bind_Ok in Hperf as (s' & Hs' & [= <-]).
  destruct (FUNCTIONS (ra0_action_id a')) as [f'|] eqn:Ef; [|done].
  injection Hf as ->. apply getitem_nat_inv in Hs'. rewrite Hstates in Hs'.
  by exists a', s', f.
Qed.

End BufferProperties.

Lemma sample_buffer_wf :
  wf_buffer sample_function_id sample_FUNCTIONS (Agent 0 1 0 sample_states sample_actions).
Proof.
  split; [done|]. split; [done|].
  assert (wf_action sample_function_id sample_FUNCTIONS sample_no_op) as Hwf.
  { split; [apply (bool_decide_unpack _); by vm_compute|].
    split; [repeat constructor; apply (bool_decide_unpack _); by vm_compute|].
    split; [by eexists|]. by vm_compute. }
  by repeat constructor.
Qed.

Lemma update_restores_buffers_witness :
  ∃ (ses' : @session unit unit unit) res,
    update sample_function_id sample_FUNCTIONS sample_nn_value sample_train
      0 (Session tt []) (Agent 0 1 0 sample_states sample_actions)
    = Ok (ses', Agent 0 1 0 sample_states sample_actions, res).
Proof.
  destruct (update_restores_buffers sample_function_id sample_FUNCTIONS sample_nn_value
              sample_train 0 (Session tt []) (Agent 0 1 0 sample_states sample_actions)
              sample_buffer_wf) as (ses' & res & _ & _ & Hupd & _).
  exists ses', res. exact Hupd.
Defined.

Lemma sample_log_20_eq : log_episodes None 1 sample_scores = Ok sample_log_20.
Proof. vm_compute. reflexivity. Qed.

Lemma sample_log_21_eq : log_episode sample_log_20 21 0 = Ok sample_log_21.
Proof. vm_compute. reflexivity. Qed.

Lemma sample_log_20_NoDup : NoDup (num_agent <$> default [] sample_log_20).
Proof. apply (bool_decide_unpack _). by vm_compute. Qed.

Lemma sample_log_20_fresh : 21 ∉ (num_agent <$> default [] sample_log_20).
Proof. apply (bool_decide_unpack _). by vm_compute. Qed.

Lemma sample_log_agent_loggable (k v : Z) : loggable sample_FUNCTIONS (sample_log_agent k v).
Proof. split; [simpl; lia|]. repeat constructor. by eexists. Qed.

Lemma log_retention_witness :
  ∃ tree',
    save_action_log sample_FUNCTIONS sample_log_20 (sample_log_agent 21 0) 21 0 0 0
      = Ok tree' ∧
    21 ∈ retained_set (default [] sample_log_20) (sample_log_agent 21 0)
           (ReplayState tt tt 0 0 0 true) ∧
    traced_episodes tree' ⊆
      retained_set (default [] sample_log_20) (sample_log_agent 21 0)
        (ReplayState tt tt 0 0 0 true).
Proof.
  destruct (log_retention sample_FUNCTIONS sample_log_20 (sample_log_agent 21 0)
              [] (ReplayState tt tt 0 0 0 true) 21 0 0 0 eq_refl
              (sample_log_agent_loggable 21 0) sample_log_20_NoDup sample_log_20_fresh)
    as (tree' & trace & Hsave & _ & _ & Hnew & _ & Hsub & _).
  exists tree'. split; [exact Hsave|]. split; [exact Hnew|exact Hsub].
Defined.

(** C6, as stated, fails after the twenty-first append of the sample run:
    episode 10 was stripped at the twentieth append, when the new episode
    tied with it and took its place among the ten best; at the twenty-first
    it is back among the ten best, hence in the retained set, without a
    trace. *)
Lemma retained_without_trace_counterexample :
  log_episodes None 1 sample_scores = Ok sample_log_20 ∧
  log_episode sample_log_20 21 0 = Ok sample_log_21 ∧
  10 ∈ retained_set (default [] sample_log_20) (sample_log_agent 21 0)
         (ReplayState tt tt 0 0 0 true) ∧
  (10 ∉ traced_episodes sample_log_21) ∧
  ¬ trace_iff_retained sample_log_21
      (retained_set (default [] sample_log_20) (sample_log_agent 21 0)
         (ReplayState tt tt 0 0 0 true)).
Proof.
  assert (Hin : 10 ∈ retained_set (default [] sample_log_20) (sample_log_agent 21 0)
                  (ReplayState tt tt 0 0 0 true))
    by (apply (bool_decide_unpack _); by vm_compute).
  assert (Hout : 10 ∉ traced_episodes sample_log_21)
    by (apply (bool_decide_unpack _); by vm_compute).
  split; [exact sample_log_20_eq|]. split; [exact sample_log_21_eq|].
  split; [done|]. split; [done|].
  unfold trace_iff_retained. intros Heq. by rewrite Heq in Hout.
Qed.

(** ** Checkpoints *)

Section CheckpointProperties.
Context {Screen Info Weights : Type}.
Implicit Types (fs : @file_system Weights) (cls : class_state).
Implicit Types (ses : @session Screen Info Weights) (self : @agent Screen Info).

Lemma write_log_inv (kv : nat * option (list episode_entry)) fs fs' :
  write_log kv fs = Ok fs' →
  ∃ tree, kv.2 = Some tree ∧
    fs_save_path fs' = fs_save_path fs ∧
    fs_python_vars fs' = fs_python_vars fs ∧
    fs_checkpoint fs' = fs_checkpoint fs ∧
    fs_logs fs' = <[kv.1 := tree]> (fs_logs fs).
Proof.
  unfold write_log. intros H. apply bind_Ok in H as (tree & Htree & [= <-]).
  exists tree. destruct kv.2; [|done]. by injection Htree as ->.
Qed.

(** What a returning [save_checkpoint] leaves on disk. *)
Lemma save_checkpoint_inv fs fs' cls ses (global_steps global_episodes : Z) :
  save_checkpoint fs cls ses global_steps global_episodes = Ok fs' →
  (∀ k tree, action_logs cls !! k = Some (Some tree) → tree ≠ []) →
  logs_nonempty fs →
  fs_save_path fs' = true ∧
  fs_python_vars fs' =
    Some (global_steps, global_episodes, A3C_SCREEN_SIZE_Y, A3C_SCREEN_SIZE_X) ∧
  fs_checkpoint fs' = Some (variables ses) ∧
  logs_nonempty fs'.
Proof.
  unfold save_checkpoint. intros H Hlogs Hfs. revert H.
  apply for_each_inv with (P := λ fs0 : file_system,
    fs_save_path fs0 = true ∧
    fs_python_vars fs0 =
      Some (global_steps, global_episodes, A3C_SCREEN_SIZE_Y, A3C_SCREEN_SIZE_X) ∧
    fs_checkpoint fs0 = Some (variables ses) ∧ logs_nonempty fs0); [done|].
  intros [k v] fs0 fs1 Hkv (H1 & H2 & H3 & H4) (tree & Hv & E1 & E2 & E3 & E4)%write_log_inv.
  simpl in *. subst v. apply elem_of_map_to_list in Hkv.
  rewrite E1, E2, E3. repeat split; try done.
  intros k' tree' Hk'. rewrite E4 in Hk'.
  destruct (decide (k = k')) as [->|Hne].
  - rewrite lookup_insert_eq in Hk'. injection Hk' as <-. by eapply Hlogs.
  - rewrite lookup_insert_ne in Hk' by done. by eapply H4.
Qed.

(** [load_checkpoint] on files whose pickled resolution is the configured
    one, with a checkpoint and without empty logs: it returns, with the
    pickled counters and the saved parameters. *)
Lemma load_checkpoint_Ok fs cls ses self (out : list string) (v0 v1 : Z) (w : Weights) :
  fs_save_path fs = true →
  fs_python_vars fs = Some (v0, v1, A3C_SCREEN_SIZE_X, A3C_SCREEN_SIZE_Y) →
  fs_checkpoint fs = Some w →
  logs_nonempty fs →
  ∃ cls' self' out',
    load_checkpoint fs cls ses self out
      = Ok (cls', Session w (train_runs ses), self', out',
            bool_decide (is_Some (fs_logs fs !! agent_id self))) ∧
    STEP_COUNTER cls' = v0 ∧ EPISODE_COUNTER cls' = v1 ∧
    match fs_logs fs !! agent_id self with
    | Some tree =>
        action_logs cls' = <[agent_id self := Some tree]> (action_logs cls) ∧
        out' = out ∧ agent_id self' = agent_id self ∧
        ∃ last_episode, last tree = Some last_episode ∧
          episodes self' = num_agent last_episode
    | None =>
        action_logs cls' = action_logs cls ∧ self' = self ∧
        out' = out ++ [missing_log_message (agent_id self)]
    end.
Proof.
  intros Hdir Hvars Hckpt Hne. unfold load_checkpoint.
  rewrite Hdir, Hvars, Hckpt. simpl.
  destruct (fs_logs fs !! agent_id self) as [tree|] eqn:Elog.
  - destruct tree as [|t tree _] using rev_ind; [by destruct (Hne _ _ Elog)|].
    rewrite getitem_last. simpl. eexists _, _, _. split; [done|]. simpl.
    repeat split; try done. exists t. by rewrite last_snoc.
  - simpl. eexists _, _, _. by repeat split.
Qed.

(** C7. A checkpoint saved with step counter s and episode counter e
    persists (s, e) with the configured resolution; loading it under the
    same configuration returns and restores s and e (and the saved network
    parameters).  Loading files whose persisted resolution differs from the
    configured one raises an assertion error. *)
Theorem checkpoint_roundtrip fs fs' cls cls0 ses ses0 self (out : list string)
    (global_steps global_episodes : Z) :
  save_checkpoint fs cls ses global_steps global_episodes = Ok fs' →
  (∀ k tree, action_logs cls !! k = Some (Some tree) → tree ≠ []) →
  logs_nonempty fs →
  fs_python_vars fs' =
    Some (global_steps, global_episodes, A3C_SCREEN_SIZE_Y, A3C_SCREEN_SIZE_X) ∧
  (∃ cls' ses' self' out' loaded,
     load_checkpoint fs' cls0 ses0 self out = Ok (cls', ses', self', out', loaded) ∧
     STEP_COUNTER cls' = global_steps ∧ EPISODE_COUNTER cls' = global_episodes ∧
     variables ses' = variables ses) ∧
  (∀ fsx (s e size_y size_x : Z),
     fs_save_path fsx = true →
     fs_python_vars fsx = Some (s, e, size_y, size_x) →
     (size_y, size_x) ≠ (A3C_SCREEN_SIZE_Y, A3C_SCREEN_SIZE_X) →
     ∃ msg, load_checkpoint fsx cls0 ses0 self out = Raise (AssertionError msg)).
Proof.
  intros Hsave Hlogs Hfs.
  destruct (save_checkpoint_inv _ _ _ _ _ _ Hsave Hlogs Hfs) as (Hdir & Hvars & Hckpt & Hne).
  split; [done|]. split.
  - destruct (load_checkpoint_Ok fs' cls0 ses0 self out global_steps global_episodes
                (variables ses) Hdir Hvars Hckpt Hne)
      as (cls' & self' & out' & Hload & Hs & He & _).
    eexists _, _, _, _, _. split; [exact Hload|]. by repeat split.
  - intros fsx s e size_y size_x Hdir' Hvars' Hdiff. unfold load_checkpoint.
    rewrite Hdir', Hvars'. simpl.
    destruct (size_y =? A3C_SCREEN_SIZE_X) eqn:Ex; simpl; [|by eexists].
    destruct (size_x =? A3C_SCREEN_SIZE_Y) eqn:Ey; simpl; [|by eexists].
    apply Z.eqb_eq in Ex, Ey. destruct Hdiff.
    unfold A3C_SCREEN_SIZE_X, A3C_SCREEN_SIZE_Y in *. congruence.
Qed.

End CheckpointProperties.

Lemma sample_save_eq :
  save_checkpoint (Screen:=unit) (Info:=unit) empty_fs sample_class (Session tt []) 100 500
    = Ok sample_saved_fs.
Proof. vm_compute. reflexivity. Qed.

Lemma sample_class_nonempty (k : nat) (tree : list episode_entry) :
  action_logs sample_class !! k = Some (Some tree) → tree ≠ [].
Proof.
  unfold sample_class. simpl. intros [_ [= <-]]%lookup_singleton_Some. done.
Qed.

Lemma empty_fs_nonempty : logs_nonempty empty_fs.
Proof. intros k tree H. simpl in H. by rewrite lookup_empty in H. Qed.

Lemma checkpoint_roundtrip_witness :
  ∃ cls' (ses' : @session unit unit unit) self' out' loaded,
    load_checkpoint sample_saved_fs (ClassState 0 0 ∅) (Session tt [])
      (Agent 0 0 0 [] []) [] = Ok (cls', ses', self', out', loaded) ∧
    STEP_COUNTER cls' = 100 ∧ EPISODE_COUNTER cls' = 500 ∧
    variables ses' = variables (Session tt [] : @session unit unit unit).
Proof.
  exact (proj1 (proj2
    (checkpoint_roundtrip empty_fs sample_saved_fs sample_class (ClassState 0 0 ∅)
       (Session tt []) (Session tt []) (Agent 0 0 0 [] []) [] 100 500
       sample_save_eq sample_class_nonempty empty_fs_nonempty))).
Defined.

(** ** Resuming the workers *)

Lemma for_each_nat_total {S} (body : nat → S → result S) (P : nat → S → Prop)
    (start len : nat) (s0 : S) :
  P start s0 →
  (∀ k s, (start ≤ k < start + len)%nat → P k s →
     ∃ s', body k s = Ok s' ∧ P (Datatypes.S k) s') →
  ∃ s, for_each (seq start len) body s0 = Ok s ∧ P (start + len)%nat s.
Proof.
  revert start s0. induction len as [|len IH]; intros start s0 H0 Hstep; simpl.
  - exists s0. by rewrite Nat.add_0_r.
  - destruct (Hstep start s0) as (s' & -> & HP); [lia|done|]. rewrite Ok_bind.
    rewrite <- Nat.add_succ_comm.
    apply (IH (Datatypes.S start) s'); [done|]. intros k s1 Hk. apply Hstep. lia.
Qed.

Section ResumeProperties.
Context {Screen Info Weights : Type}.
Variable initial_weights : Weights.
Implicit Types (fs : @file_system Weights) (cls : class_state).
Implicit Types (ses : @session Screen Info Weights).

Lemma start_agent_step fs (s e : Z) (w : Weights) (k : nat)
    (st : class_state * @session Screen Info Weights * list agent * list string) :
  fs_save_path fs = true →
  fs_python_vars fs = Some (s, e, A3C_SCREEN_SIZE_X, A3C_SCREEN_SIZE_Y) →
  fs_checkpoint fs = Some w →
  logs_nonempty fs →
  start_inv fs s e k st →
  ∃ st', start_agent fs k st = Ok st' ∧ start_inv fs s e (S k) st'.
Proof.
  intros Hdir Hvars Hckpt Hne (Hids & Hmiss & _).
  destruct st as [[[cls ses] agents] out]. simpl in *.
  unfold start_agent, new_agent. rewrite Hdir.
  destruct (load_checkpoint_Ok fs
              (ClassState (STEP_COUNTER cls) (EPISODE_COUNTER cls)
                 (<[k:=None]> (action_logs cls)))
              ses (Agent k 0 0 [] []) out s e w Hdir Hvars Hckpt Hne)
    as (cls' & self' & out' & -> & Hs & He & Hlog).
  rewrite Ok_bind. simpl in Hlog |- *.
  assert (Hseq : filter (λ i, is_Some (fs_logs fs !! i)) (seq 0 (S k))
                 = filter (λ i, is_Some (fs_logs fs !! i)) (seq 0 k)
                   ++ (if decide (is_Some (fs_logs fs !! k)) then [k] else [])).
  { rewrite seq_S, filter_app. by f_equal. }
  destruct (fs_logs fs !! k) as [tree|] eqn:Elog.
  - destruct Hlog as (Hlogs & -> & Hid & _).
    rewrite bool_decide_true by done. eexists. split; [done|].
    unfold start_inv. cbn [fst snd]. rewrite decide_True in Hseq by done.
    split; [by rewrite fmap_app, Hids, Hseq; simpl; rewrite Hid|]. split; [|done].
    intros i Hi Hnone. assert (i ≠ k) by congruence.
    destruct (Hmiss i ltac:(lia) Hnone) as [? Hi'].
    split; [done|]. rewrite Hlogs. simpl. by rewrite !lookup_insert_ne.
  - destruct Hlog as (Hlogs & -> & ->).
    rewrite bool_decide_false by (by intros [? ?]). eexists. split; [done|].
    unfold start_inv. cbn [fst snd]. rewrite decide_False in Hseq by (by intros [? ?]).
    split; [by rewrite Hseq, app_nil_r|]. split; [|done].
    intros i Hi Hnone. rewrite Hlogs. simpl.
    destruct (decide (i = k)) as [->|Hik].
    + split; [apply elem_of_app; right; apply list_elem_of_singleton; done|].
      by rewrite lookup_insert_eq.
    + destruct (Hmiss i ltac:(lia) Hnone) as [? Hi'].
      split; [apply elem_of_app; by left|]. by rewrite lookup_insert_ne.
Qed.

(** C8 (amended). On resume, when the checkpoint exists and matches the
    configured resolution, the run does not abort for a missing per-worker
    log: [start_a3c_agent] returns with the counters of the checkpoint.  For
    every worker whose log document is missing the message is printed, its
    entry in [action_logs] stays [None], and the worker is left out of the
    list of agents that are started; the agents started are exactly those
    whose log document was found. *)
Theorem resume_with_missing_logs fs cls ses (s e : Z) (w : Weights) :
  fs_save_path fs = true →
  fs_python_vars fs = Some (s, e, A3C_SCREEN_SIZE_X, A3C_SCREEN_SIZE_Y) →
  fs_checkpoint fs = Some w →
  logs_nonempty fs →
  ∃ cls' ses' agents out,
    start_a3c_agent initial_weights fs cls ses = Ok (cls', ses', agents, out) ∧
    STEP_COUNTER cls' = s ∧ EPISODE_COUNTER cls' = e ∧
    agent_id <$> agents
      = filter (λ i, is_Some (fs_logs fs !! i)) (seq 0 PARALLEL_THREADS) ∧
    ∀ k, (k < PARALLEL_THREADS)%nat → fs_logs fs !! k = None →
      missing_log_message k ∈ out ∧
      action_logs cls' !! k = Some None ∧
      k ∉ agent_id <$> agents.
Proof.
  intros Hdir Hvars Hckpt Hne. unfold start_a3c_agent.
  change (if negb TRAINING then 1%nat else PARALLEL_THREADS) with PARALLEL_THREADS.
  destruct (for_each_nat_total (start_agent fs) (start_inv fs s e) 0 PARALLEL_THREADS
              (cls, ses, [], [])) as ([[[cls' ses'] agents] out] & -> & Hids & Hmiss & Hcnt).
  - unfold start_inv. simpl. split; [done|]. split; intros; lia.
  - intros k st _ Hinv. by apply (start_agent_step fs s e w).
  - rewrite Ok_bind. simpl in *. eexists _, _, _, _. split; [done|].
    destruct Hcnt as [-> ->]; [unfold PARALLEL_THREADS; lia|].
    split; [done|]. split; [done|]. split; [done|].
    intros k Hk Hnone. destruct (Hmiss k Hk Hnone) as [? ?].
    split; [done|]. split; [done|]. rewrite Hids.
    intros [HSome _]%list_elem_of_filter. rewrite Hnone in HSome. by destruct HSome.
Qed.

End ResumeProperties.

Lemma sample_start_eq :
  start_a3c_agent (Screen:=unit) (Info:=unit) tt sample_resume_fs
    (ClassState 0 0 ∅) (Session tt [])
  = Ok (sample_start_outcome.1.1.1, sample_start_outcome.1.1.2,
        sample_start_outcome.1.2, sample_start_outcome.2).
Proof. vm_compute. reflexivity. Qed.

Lemma sample_resume_fs_nonempty : logs_nonempty sample_resume_fs.
Proof.
  intros k tree Hk. unfold sample_resume_fs in Hk. cbn [fs_logs] in Hk.
  apply elem_of_list_to_map_2, list_elem_of_fmap in Hk as (i & [= -> ->] & _). done.
Qed.

Lemma resume_with_missing_logs_witness :
  ∃ cls' (ses' : @session unit unit unit) agents out,
    start_a3c_agent tt sample_resume_fs (ClassState 0 0 ∅) (Session tt [])
      = Ok (cls', ses', agents, out) ∧
    STEP_COUNTER cls' = 100 ∧ EPISODE_COUNTER cls' = 500 ∧
    agent_id <$> agents
      = filter (λ i, is_Some (fs_logs sample_resume_fs !! i)) (seq 0 PARALLEL_THREADS) ∧
    ∀ k, (k < PARALLEL_THREADS)%nat → fs_logs sample_resume_fs !! k = None →
      missing_log_message k ∈ out ∧
      action_logs cls' !! k = Some None ∧
      k ∉ agent_id <$> agents.
Proof.
  exact (resume_with_missing_logs tt sample_resume_fs (ClassState 0 0 ∅) (Session tt [])
           100 500 tt eq_refl eq_refl eq_refl sample_resume_fs_nonempty).
Defined.

(** C8, as stated, fails when the log of worker 3 is missing: the run does
    not abort and the message is printed, but worker 3 is not among the
    agents that are started. *)
Lemma dropped_worker_counterexample :
  fs_logs sample_resume_fs !! 3%nat = None ∧
  ∃ cls' (ses' : @session unit unit unit) agents out,
    start_a3c_agent tt sample_resume_fs (ClassState 0 0 ∅) (Session tt [])
      = Ok (cls', ses', agents, out) ∧
    out = ["Could not find XML file for agent 3"] ∧
    agent_id <$> agents = filter (λ i, i ≠ 3%nat) (seq 0 16) ∧
    ¬ started_from_zero agents 3.
Proof.
  split; [by vm_compute|].
  eexists _, _, _, _. split; [exact sample_start_eq|].
  split; [by vm_compute|].
  assert (Hids : agent_id <$> sample_start_outcome.1.2 = filter (λ i, i ≠ 3%nat) (seq 0 16))
    by (by vm_compute).
  split; [exact Hids|].
  intros (a & Ha & Hid & _).
  apply (list_elem_of_fmap_2 agent_id) in Ha. rewrite Hids, Hid in Ha.
  by apply list_elem_of_filter in Ha as [? _].
Qed.

Lemma bootstrap_value_witness :
  bootstrap sample_nn_value tt ([sample_state 1 false; sample_state 2 false]
                                  ++ [sample_state 3 false]) = Ok 10%Q ∧
  cumulated_rewards sample_targets !! 0%nat = Some 10%Q.
Proof.
  pose proof (bootstrap_value sample_function_id sample_FUNCTIONS sample_nn_value tt
                [sample_state 1 false; sample_state 2 false] (sample_state 3 false))
    as [Hboot Hseed].
  split; [exact Hboot|].
  exact (Hseed sample_actions 10%Q sample_targets Hboot sample_targets_eq).
Defined.

(** * Further properties of the agent *)

(** ** The learning rate *)

(** *** Rounding *)

Lemma round_half_even_error (m : Q) :
  (- (1 # 2) <= inject_Z (round_half_even m) - m)%Q ∧
  (inject_Z (round_half_even m) - m <= 1 # 2)%Q.
Proof.
  unfold round_half_even.
  pose proof (Qfloor_le m) as Hlo. pose proof (Qlt_floor m) as Hhi.
  rewrite inject_Z_plus in Hhi. change (inject_Z 1) with 1%Q in Hhi.
  destruct (Qcompare_spec (m - inject_Z (Qfloor m)) (1 # 2)) as [He|Hl|Hg].
  - destruct (Z.even (Qfloor m)).
    + split; lra.
    + rewrite inject_Z_plus. change (inject_Z 1) with 1%Q. split; lra.
  - split; lra.
  - rewrite inject_Z_plus. change (inject_Z 1) with 1%Q. split; lra.
Qed.

Lemma Qlog2_le (x : Q) : (0 < x)%Q → (Qpower 2 (Qlog2 x) <= x)%Q.
Proof.
  intros Hx. unfold Qlog2.
  destruct (Qle_bool _ x) eqn:E; [by apply Qle_bool_imp_le|]. clear E.
  destruct x as [p q]. cbn [Qnum Qden].
  assert (Hp : 0 < p) by (unfold Qlt in Hx; simpl in Hx; lia).
  pose proof (Z.log2_spec p Hp) as [HA _].
  pose proof (Z.log2_spec (Z.pos q) ltac:(lia)) as [_ HB].
  pose proof (Z.log2_nonneg p) as Hlp. pose proof (Z.log2_nonneg (Z.pos q)) as Hlq.
  set (lp := Z.log2 p) in *. set (lq := Z.log2 (Z.pos q)) in *.
  replace (lp - lq - 1) with (lp - Z.succ lq) by lia.
  rewrite Qpower_minus by discriminate.
  rewrite <- !(Zpower_Qpower 2) by lia.
  apply Qle_shift_div_r.
  { rewrite <- (Zlt_Qlt 0). apply Z.pow_pos_nonneg; lia. }
  rewrite Zle_Qle in HA. rewrite Zlt_Qlt in HB.
  assert (Hpq : ((p # q) * inject_Z (Z.pos q) == inject_Z p)%Q).
  { unfold Qeq, Qmult, inject_Z. simpl. lia. }
  assert (Hq : (0 < inject_Z (Z.pos q))%Q) by (rewrite <- (Zlt_Qlt 0); lia).
  nra.
Qed.

(** The relative error of one rounding is at most 2^-53. *)
Lemma round64_error (x : Q) :
  (0 <= x)%Q →
  (x - x * float_eps <= round64 x)%Q ∧ (round64 x <= x + x * float_eps)%Q.
Proof.
  intros Hx. unfold round64. rewrite Qred_correct.
  destruct x as [[|p|p] q]; cbn [Qnum].
  - assert (0 # q == 0)%Q as -> by done. unfold float_eps. split; lra.
  - set (x := Z.pos p # q) in *.
    assert (Hpos : (0 < x)%Q) by done.
    pose proof (Qlog2_le x Hpos) as He.
    unfold round64_pos.
    assert (HU : (0 < Qpower 2 (Qlog2 x - 52))%Q) by (by apply Qpower_0_lt).
    assert (HE : (Qpower 2 (Qlog2 x)
                  == Qpower 2 (Qlog2 x - 52) * (4503599627370496 # 1))%Q).
    { replace (Qlog2 x) with ((Qlog2 x - 52) + 52) at 1 by lia.
      rewrite Qpower_plus by discriminate. done. }
    set (U := Qpower 2 (Qlog2 x - 52)) in *. set (E := Qpower 2 (Qlog2 x)) in *.
    destruct (round_half_even_error (x / U)) as [Hlo Hhi].
    set (N := inject_Z (round_half_even (x / U))) in *.
    assert (HM : (x / U * U == x)%Q) by (field; lra).
    set (M := (x / U)%Q) in *. unfold float_eps.
    clearbody x U E N M. split; nra.
  - exfalso. unfold Qle in Hx. simpl in Hx. lia.
Qed.

(** The rounded learning rate differs from the line by less than 1e-17. *)
Lemma learning_rate_error (s : Z) :
  0 ≤ s ≤ MAX_STEPS_TOTAL →
  (learning_rate_line s - (1 # 100000000000000000) <= learning_rate_at s)%Q ∧
  (learning_rate_at s <= learning_rate_line s + (1 # 100000000000000000))%Q.
Proof.
  intros [H0 H1]. unfold learning_rate_at, learning_rate_line, float_mul, float_sub,
    float_div, float_of_int, float.
  assert (round64 LEARNING_RATE = 5764607523034235 # 576460752303423488) as ->
    by (vm_compute; reflexivity).
  assert (round64 (9 # 10) = 8106479329266893 # 9007199254740992) as ->
    by (vm_compute; reflexivity).
  assert (round64 (inject_Z 1) = 1%Q) as -> by (vm_compute; reflexivity).
  assert (round64 (inject_Z MAX_STEPS_TOTAL) = 10000000 # 1) as ->
    by (vm_compute; reflexivity).
  rewrite Zle_Qle in H0, H1.
  change (inject_Z MAX_STEPS_TOTAL) with (10000000 # 1) in *.
  change (inject_Z 0) with 0%Q in H0. unfold LEARNING_RATE.
  set (S := inject_Z s) in *. clearbody S.
  destruct (round64_error S H0) as [Ht1 Ht2]. unfold float_eps in *.
  set (t := round64 S) in *. clearbody t.
  destruct (round64_error ((8106479329266893 # 9007199254740992) * t)) as [Ha1 Ha2];
    [lra|].
  unfold float_eps in *.
  set (a := round64 ((8106479329266893 # 9007199254740992) * t)) in *. clearbody a.
  assert (Hdiv : ∀ x : Q, (x / (10000000 # 1) == x * (1 # 10000000))%Q)
    by (intros x; field).
  destruct (round64_error (a / (10000000 # 1))) as [Hb1 Hb2]; [rewrite Hdiv; lra|].
  unfold float_eps in *.
  set (b := round64 (a / (10000000 # 1))) in *. clearbody b.
  rewrite Hdiv in Hb1, Hb2.
  destruct (round64_error (1 - b)) as [Hd1 Hd2]; [lra|].
  unfold float_eps in *.
  set (d := round64 (1 - b)) in *. clearbody d.
  destruct (round64_error ((5764607523034235 # 576460752303423488) * d)) as [Hr1 Hr2];
    [lra|].
  unfold float_eps in *.
  set (r := round64 ((5764607523034235 # 576460752303423488) * d)) in *. clearbody r.
  rewrite Hdiv. split; lra.
Qed.

Lemma learning_rate_line_linear (s : Z) :
  (learning_rate_line s == LEARNING_RATE - (9 # 10000000000) * inject_Z s)%Q.
Proof.
  unfold learning_rate_line, LEARNING_RATE.
  change (inject_Z MAX_STEPS_TOTAL) with (10000000 # 1)%Q. field.
Qed.

(** The rounded learning rate falls strictly with the step counter. *)
Lemma learning_rate_decreasing (s s' : Z) :
  0 ≤ s → s < s' → s' ≤ MAX_STEPS_TOTAL →
  (learning_rate_at s' < learning_rate_at s)%Q.
Proof.
  intros H0 Hlt H1.
  destruct (learning_rate_error s ltac:(lia)) as [Hs _].
  destruct (learning_rate_error s' ltac:(lia)) as [_ Hs'].
  rewrite learning_rate_line_linear in Hs, Hs'. unfold LEARNING_RATE in *.
  assert (inject_Z s + 1 <= inject_Z s')%Q.
  { change 1%Q with (inject_Z 1). rewrite <- inject_Z_plus, <- Zle_Qle. lia. }
  lra.
Qed.

Section LearningRate.
Context {Screen Info Weights : Type}.
Variable function_id : sc2_function → Z.
Variable FUNCTIONS : Z → option function_info.
Variable nn_value : Weights → Screen → Info → Q.
Variable train : Weights → @feed Screen Info → Weights * (Q * Q).

(** The learning rate of an update, computed in binary64 arithmetic, stays
    within 1e-17 of the line that falls from LEARNING_RATE at step 0 to a
    tenth of it at MAX_STEPS_TOTAL, and falls strictly with the global step
    counter.  At step 0 it is the float 0.01; at MAX_STEPS_TOTAL it is the
    float 0.0009999999999999998, which is below a tenth of LEARNING_RATE;
    in between it lies between these two.  All training runs of one update
    get the rate computed at its start. *)
Theorem learning_rate_schedule (STEP_COUNTER : Z) (ses ses' : session) (self self' : agent)
    (res : Q * Q * Q) :
  0 ≤ STEP_COUNTER ≤ MAX_STEPS_TOTAL →
  update function_id FUNCTIONS nn_value train STEP_COUNTER ses self = Ok (ses', self', res) →
  (learning_rate_line STEP_COUNTER - (1 # 100000000000000000)
     <= learning_rate_at STEP_COUNTER)%Q ∧
  (learning_rate_at STEP_COUNTER
     <= learning_rate_line STEP_COUNTER + (1 # 100000000000000000))%Q ∧
  (learning_rate_line STEP_COUNTER
     == LEARNING_RATE - (9 # 10000000000) * inject_Z STEP_COUNTER)%Q ∧
  (∀ s, STEP_COUNTER < s ≤ MAX_STEPS_TOTAL →
     (learning_rate_at s < learning_rate_at STEP_COUNTER)%Q) ∧
  (learning_rate_at MAX_STEPS_TOTAL <= learning_rate_at STEP_COUNTER
     <= learning_rate_at 0)%Q ∧
  learning_rate_at 0 = float LEARNING_RATE ∧
  learning_rate_at 0 = 5764607523034235 # 576460752303423488 ∧
  learning_rate_at MAX_STEPS_TOTAL = 4611686018427387 # 4611686018427387904 ∧
  (learning_rate_at MAX_STEPS_TOTAL < (1 # 10) * LEARNING_RATE)%Q ∧
  ∃ feeds, train_runs ses' = train_runs ses ++ feeds ∧
    Forall (λ f, feed_learning_rate f = learning_rate_at STEP_COUNTER) feeds.
Proof.
  intros [H0 H1] Hupd.
  destruct (learning_rate_error STEP_COUNTER (conj H0 H1)) as [Hlo Hhi].
  split; [done|]. split; [done|]. split; [apply learning_rate_line_linear|].
  split; [intros s [Hs Hs']; by apply learning_rate_decreasing|].
  split.
  { split.
    - destruct (decide (STEP_COUNTER = MAX_STEPS_TOTAL)) as [->|Hne]; [apply Qle_refl|].
      apply Qlt_le_weak, learning_rate_decreasing; lia.
    - destruct (decide (STEP_COUNTER = 0)) as [->|Hne]; [apply Qle_refl|].
      apply Qlt_le_weak, learning_rate_decreasing; lia. }
  split; [by vm_compute|]. split; [by vm_compute|]. split; [by vm_compute|].
  split; [by vm_compute|].
  destruct res as [[total p_loss] v_loss].
  apply update_inv in Hupd as (R & t & b & losses & _ & _ & Hb & Hloop & _).
  destruct (split_targets_spec t) as (b' & Hb' & Hbatches).
  assert (b' = b) as -> by congruence.
  destruct (train_loop_spec train ses t b (learning_rate_at STEP_COUNTER) Hbatches)
    as (ses1 & losses1 & feeds & Hloop1 & Hruns & _ & Hfeeds).
  assert (ses1 = ses') as -> by congruence.
  exists feeds. split; [done|]. apply Hfeeds.
Qed.

End LearningRate.

Lemma learning_rate_schedule_witness :
  (learning_rate_line 0 - (1 # 100000000000000000) <= learning_rate_at 0)%Q ∧
  (learning_rate_at 0 <= learning_rate_line 0 + (1 # 100000000000000000))%Q ∧
  (∀ s, 0 < s ≤ MAX_STEPS_TOTAL → (learning_rate_at s < learning_rate_at 0)%Q) ∧
  ∃ feeds, train_runs sample_outcome.1.1 = [] ++ feeds ∧
    Forall (λ f, feed_learning_rate f = learning_rate_at 0) feeds.
Proof.
  destruct (learning_rate_schedule sample_function_id sample_FUNCTIONS sample_nn_value
              sample_train 0 (Session tt []) sample_outcome.1.1
              (Agent 0 1 0 sample_states sample_actions) sample_outcome.1.2
              sample_outcome.2 ltac:(by vm_compute) sample_update_eq)
    as (Hlo & Hhi & _ & Hdec & _ & _ & _ & _ & _ & Hf).
  split; [exact Hlo|]. split; [exact Hhi|]. split; [exact Hdec|exact Hf].
Defined.

Lemma ext_lt_irrefl (a : option Q) : ext_lt a a = false.
Proof.
  destruct a as [x|]; simpl; [|done]. apply not_true_is_false.
  rewrite Qltb_lt. apply Qlt_irrefl.
Qed.

(** [a <= b < c] gives [a < c]. *)
Lemma ext_le_lt_trans (a b c : option Q) :
  ext_lt b a = false → ext_lt b c = true → ext_lt a c = true.
Proof.
  destruct a as [x|], b as [y|], c as [z|]; simpl; try done.
  rewrite !Qltb_lt. intros Hxy%not_true_iff_false. rewrite Qltb_lt in Hxy.
  intros Hyz. apply Qnot_lt_le in Hxy. by eapply Qle_lt_trans.
Qed.

Lemma ext_lt_asym (a b : option Q) : ext_lt a b = true → ext_lt b a = false.
Proof.
  destruct a as [x|], b as [y|]; simpl; try done.
  rewrite Qltb_lt. intros H. apply not_true_is_false. rewrite Qltb_lt.
  apply Qle_not_lt. by apply Qlt_le_weak.
Qed.

(** The search returns the first index of a maximum. *)
Lemma argmax_from_spec (pre l : list (option Q)) (best_i : nat) (best : option Q) :
  pre !! best_i = Some best →
  (∀ j u, pre !! j = Some u → ext_lt best u = false) →
  (∀ j u, (j < best_i)%nat → pre !! j = Some u → ext_lt u best = true) →
  ∃ v, (pre ++ l) !! argmax_from best_i best (length pre) l = Some v ∧
    (∀ j u, (pre ++ l) !! j = Some u → ext_lt v u = false) ∧
    (∀ j u, (j < argmax_from best_i best (length pre) l)%nat →
       (pre ++ l) !! j = Some u → ext_lt u v = true).
Proof.
  revert pre best_i best. induction l as [|x l IH]; intros pre best_i best Hb Hmax Hfirst.
  - simpl. rewrite app_nil_r. by exists best.
  - simpl. replace (pre ++ x :: l) with ((pre ++ [x]) ++ l) by (by rewrite <- app_assoc).
    replace (S (length pre)) with (length (pre ++ [x])) by (rewrite length_app; simpl; lia).
    destruct (ext_lt best x) eqn:Hx.
    + apply IH.
      * by rewrite lookup_app_r, Nat.sub_diag by lia.
      * intros j u Hu. apply lookup_app_Some in Hu as [Hu|[_ Hu]].
        -- apply ext_lt_asym. eapply ext_le_lt_trans; [|exact Hx]. by eapply Hmax.
        -- destruct (j - length pre)%nat; [|done]. injection Hu as <-. apply ext_lt_irrefl.
      * intros j u Hj Hu. rewrite lookup_app_l in Hu by done.
        eapply ext_le_lt_trans; [|exact Hx]. by eapply Hmax.
    + apply IH.
      * rewrite lookup_app_l; [done|]. by eapply lookup_lt_Some.
      * intros j u Hu. apply lookup_app_Some in Hu as [Hu|[_ Hu]]; [by eapply Hmax|].
        destruct (j - length pre)%nat; [|done]. by injection Hu as <-.
      * intros j u Hj Hu. apply lookup_lt_Some in Hb.
        rewrite lookup_app_l in Hu by lia. by eapply Hfirst.
Qed.

Lemma ext_argmax_spec (l : list (option Q)) :
  l ≠ [] →
  ∃ (k : nat) v, ext_argmax l = Ok (Z.of_nat k) ∧ l !! k = Some v ∧
    (∀ j u, l !! j = Some u → ext_lt v u = false) ∧
    (∀ j u, (j < k)%nat → l !! j = Some u → ext_lt u v = true).
Proof.
  destruct l as [|x l]; [done|]. intros _. simpl.
  destruct (argmax_from_spec [x] l 0 x) as (v & Hv & Hmax & Hfirst).
  - done.
  - intros [|j] u Hu; [|done]. injection Hu as <-. apply ext_lt_irrefl.
  - intros; lia.
  - eexists _, v. split; [done|]. by repeat split.
Qed.

Lemma list_index_lookup (x : Z) (l : list Z) (k : Z) :
  list_index x l = Ok k → 0 ≤ k ∧ l !! Z.to_nat k = Some x.
Proof.
  revert k. induction l as [|y l IH]; intros k H; simpl in H; [done|].
  case_decide as Hy.
  - injection H as <-. by subst.
  - apply bind_Ok in H as (k' & Hk' & [= <-]). destruct (IH k' Hk') as [H0 Hl].
    split; [lia|]. replace (Z.to_nat (k' + 1)) with (S (Z.to_nat k')) by lia. done.
Qed.

Section GreedyAction.
Variable function_id : sc2_function → Z.

Lemma valid_actions_of_spec (available_actions : list Z) (i : Z) :
  i ∈ valid_actions_of function_id available_actions ↔
  i ∈ available_actions ∧ i ∈ executable_actions_ids function_id.
Proof.
  unfold valid_actions_of. rewrite elem_of_intersection, !elem_of_list_to_set. tauto.
Qed.

(** The loop of lines 273-275 from any starting mask: the positions it
    clears are the first positions of the legal actions it meets. *)
Lemma mask_loop_spec (available_actions : list Z) (valid_actions : gset Z)
    (mask0 mask : list bool) :
  length mask0 = num_actions function_id →
  (∀ i, i ∈ valid_actions → i ∈ executable_actions_ids function_id) →
  for_each available_actions
    (λ i mask,
       if decide (i ∈ valid_actions) then
         k ← list_index i (executable_actions_ids function_id); setitem mask k false
       else Ok mask) mask0 = Ok mask →
  length mask = num_actions function_id ∧
  ∀ k : nat, mask !! k = Some false ↔
    mask0 !! k = Some false ∨
    ∃ i, i ∈ available_actions ∧ i ∈ valid_actions ∧
      list_index i (executable_actions_ids function_id) = Ok (Z.of_nat k).
Proof.
  intros Hlen Hexec. revert mask0 Hlen.
  induction available_actions as [|i avail IH]; intros mask0 Hlen H; cbn [for_each] in H.
  - injection H as <-. split; [done|]. intros k. split; [by left|].
    intros [?|(i & Hi & _)]; [done|]. by apply elem_of_nil in Hi.
  - apply bind_Ok in H as (mask1 & H1 & H).
    case_decide as Hv.
    + apply bind_Ok in H1 as (k1 & Hk1 & Hset).
      destruct (list_index_Ok i _ (Hexec i Hv)) as (n1 & Hn1 & Hlt).
      assert (k1 = Z.of_nat n1) as -> by congruence.
      apply setitem_nat_inv in Hset as [_ ->].
      destruct (IH (<[n1:=false]> mask0)) as [Hl Hm]; [by rewrite length_insert|done|].
      split; [done|]. intros k. rewrite Hm. split.
      * intros [Hk|(j & Hj & Hjv & Hjk)].
        -- destruct (decide (n1 = k)) as [->|Hne].
           ++ right. exists i. split; [left|done].
           ++ left. by rewrite list_lookup_insert_ne in Hk.
        -- right. exists j. split; [by right|done].
      * intros [Hk|(j & Hj & Hjv & Hjk)].
        -- left. destruct (decide (n1 = k)) as [->|Hne].
           ++ apply list_lookup_insert_eq. unfold num_actions in Hlen. lia.
           ++ by rewrite list_lookup_insert_ne.
        -- apply elem_of_cons in Hj as [->|Hj].
           ++ left. assert (n1 = k) as -> by (apply Nat2Z.inj; congruence).
              apply list_lookup_insert_eq. unfold num_actions in Hlen. lia.
           ++ right. by exists j.
    + injection H1 as <-. destruct (IH mask0 Hlen H) as [Hl Hm].
      split; [done|]. intros k. rewrite Hm. split.
      * intros [?|(j & Hj & Hjv & Hjk)]; [by left|]. right. exists j. split; [by right|done].
      * intros [?|(j & Hj & Hjv & Hjk)]; [by left|].
        apply elem_of_cons in Hj as [->|Hj]; [done|]. right. by exists j.
Qed.

Lemma valid_actions_mask_spec (available_actions : list Z) (mask : list bool) :
  valid_actions_mask function_id available_actions
    (valid_actions_of function_id available_actions) = Ok mask →
  length mask = num_actions function_id ∧
  ∀ k : nat, mask !! k = Some false ↔
    ∃ i, i ∈ valid_actions_of function_id available_actions ∧
      list_index i (executable_actions_ids function_id) = Ok (Z.of_nat k).
Proof.
  intros H. apply mask_loop_spec in H as [Hl Hm].
  - split; [done|]. intros k. rewrite Hm. split.
    + intros [Hk|(i & _ & Hi & Hk)]; [|by exists i].
      apply lookup_replicate in Hk as [? _]. done.
    + intros (i & Hi & Hk). right. exists i. split; [|done].
      by apply valid_actions_of_spec in Hi as [? _].
  - apply length_replicate.
  - by intros i [_ ?]%valid_actions_of_spec.
Qed.

Lemma valid_actions_mask_Ok (available_actions : list Z) :
  ∃ mask, valid_actions_mask function_id available_actions
            (valid_actions_of function_id available_actions) = Ok mask.
Proof.
  unfold valid_actions_mask.
  edestruct (for_each_total
    (λ i mask,
       if decide (i ∈ valid_actions_of function_id available_actions) then
         k ← list_index i (executable_actions_ids function_id); setitem mask k false
       else Ok mask)
    (λ m : list bool, length m = num_actions function_id) available_actions)
    as (mask & Hmask & _); [apply length_replicate| |by eexists].
  intros i m _ Hm. case_decide as Hv; [|by eexists].
  apply valid_actions_of_spec in Hv as [_ Hv].
  destruct (list_index_Ok i _ Hv) as (k & -> & Hk). rewrite Ok_bind.
  destruct (setitem_Ok m k false) as (m' & -> & Hm'); [unfold num_actions in Hm; lia|].
  exists m'. split; [done|congruence].
Qed.

(** The greedy action is a legal action of highest probability: it is
    among the available executable actions, and no legal action has a higher
    probability at its position in the list of executable actions. *)
Theorem greedy_action_legal (non_spatial_action : list Q) (available_actions : list Z) :
  length non_spatial_action = num_actions function_id →
  valid_actions_of function_id available_actions ≠ ∅ →
  ∃ (a : Z) (k : nat) (p : Q),
    greedy_action function_id non_spatial_action available_actions = Ok a ∧
    a ∈ available_actions ∧ a ∈ executable_actions_ids function_id ∧
    list_index a (executable_actions_ids function_id) = Ok (Z.of_nat k) ∧
    non_spatial_action !! k = Some p ∧
    ∀ a' (k' : nat) p',
      a' ∈ available_actions → a' ∈ executable_actions_ids function_id →
      list_index a' (executable_actions_ids function_id) = Ok (Z.of_nat k') →
      non_spatial_action !! k' = Some p' →
      (p' <= p)%Q ∧ ((k' < k)%nat → (p' < p)%Q).
Proof.
  intros Hlen Hne. unfold greedy_action.
  destruct (valid_actions_mask_Ok available_actions) as [mask Hmask].
  rewrite Hmask, Ok_bind.
  apply valid_actions_mask_spec in Hmask as [Hlmask Hm].
  set (L := zip_with (λ x (m : bool), if m then None else Some x) non_spatial_action mask).
  assert (HL : ∀ j : nat, L !! j =
            match non_spatial_action !! j, mask !! j with
            | Some x, Some m => Some (if (m : bool) then None else Some x)
            | _, _ => None
            end).
  { intros j. unfold L. rewrite lookup_zip_with.
    destruct (non_spatial_action !! j); [|done]. simpl. by destruct (mask !! j). }
  (* a legal action exists, so the list is not empty and its maximum is not masked *)
  assert (∃ i0, i0 ∈ valid_actions_of function_id available_actions) as [i0 Hi0]
    by (by apply set_choose_L).
  pose proof Hi0 as [_ Hi0e]%valid_actions_of_spec.
  destruct (list_index_Ok i0 _ Hi0e) as (k0 & Hk0 & Hk0lt).
  assert (Hm0 : mask !! k0 = Some false) by (apply Hm; by exists i0).
  destruct (lookup_lt_is_Some_2 non_spatial_action k0) as [x0 Hx0];
    [unfold num_actions in Hlen; lia|].
  assert (HL0 : L !! k0 = Some (Some x0)) by (by rewrite HL, Hx0, Hm0).
  destruct (ext_argmax_spec L) as (k & v & Hk & Hv & Hmax & Hfirst).
  { intros HLnil. by rewrite HLnil in HL0. }
  unfold ma_argmax. fold L. rewrite Hk, Ok_bind.
  pose proof (Hmax k0 _ HL0) as Hv0.
  destruct v as [p|]; [|done].
  rewrite HL in Hv.
  destruct (non_spatial_action !! k) as [p1|] eqn:Hp1; [|done].
  destruct (mask !! k) as [[]|] eqn:Hmk; try done. injection Hv as ->.
  apply Hm in Hmk as (a & Ha & Hak).
  destruct (list_index_lookup _ _ _ Hak) as [_ Hal]. rewrite Nat2Z.id in Hal.
  rewrite (getitem_nat _ _ _ Hal).
  apply valid_actions_of_spec in Ha as [Haa Hae].
  exists a, k, p. do 5 (split; [done|]).
  intros a' k' p' Ha'a Ha'e Hk' Hp'.
  assert (L !! k' = Some (Some p')) as HL'.
  { rewrite HL, Hp'. erewrite (proj2 (Hm k')); [done|]. exists a'. split; [|done].
    by apply valid_actions_of_spec. }
  split.
  - specialize (Hmax _ _ HL'). simpl in Hmax.
    apply Qnot_lt_le. intros Hlt%Qltb_lt. congruence.
  - intros Hlt. specialize (Hfirst _ _ Hlt HL'). simpl in Hfirst. by apply Qltb_lt.
Qed.

(** The masked probabilities behind the greedy choice: the entries of the
    legal actions, and the position the search returns. *)
Lemma greedy_action_inv (non_spatial_action : list Q) (available_actions : list Z) (a : Z) :
  length non_spatial_action = num_actions function_id →
  greedy_action function_id non_spatial_action available_actions = Ok a →
  ∃ (L : list (option Q)) (k : nat) (v : option Q),
    length L = num_actions function_id ∧
    (∀ j p, L !! j = Some (Some p) ↔
       non_spatial_action !! j = Some p ∧
       ∃ i, i ∈ valid_actions_of function_id available_actions ∧
         list_index i (executable_actions_ids function_id) = Ok (Z.of_nat j)) ∧
    L !! k = Some v ∧
    (∀ j u, L !! j = Some u → ext_lt v u = false) ∧
    (∀ j u, (j < k)%nat → L !! j = Some u → ext_lt u v = true) ∧
    executable_actions_ids function_id !! k = Some a.
Proof.
  intros Hlen H. unfold greedy_action in H.
  apply bind_Ok in H as (mask & Hmask & H).
  apply bind_Ok in H as (k0 & Hk0 & H).
  apply valid_actions_mask_spec in Hmask as [Hlmask Hm].
  unfold ma_argmax in Hk0.
  set (L := zip_with (λ x (m : bool), if m then None else Some x) non_spatial_action mask)
    in *.
  assert (HL : ∀ j : nat, L !! j =
            match non_spatial_action !! j, mask !! j with
            | Some x, Some m => Some (if (m : bool) then None else Some x)
            | _, _ => None
            end).
  { intros j. unfold L. rewrite lookup_zip_with.
    destruct (non_spatial_action !! j); [|done]. simpl. by destruct (mask !! j). }
  assert (HlL : length L = num_actions function_id).
  { unfold L. rewrite length_zip_with. lia. }
  destruct (ext_argmax_spec L) as (k & v & Hk & Hv & Hmax & Hfirst).
  { intros HLnil. rewrite HLnil in HlL. done. }
  assert (k0 = Z.of_nat k) as -> by congruence.
  apply getitem_nat_inv in H.
  exists L, k, v. split; [done|]. split; [|done].
  intros j p. rewrite HL, <- Hm. split.
  - destruct (non_spatial_action !! j) as [x|]; [|done].
    destruct (mask !! j) as [[]|]; [done| |done]. by intros [= ->].
  - intros [-> ->]. done.
Qed.

(** When some available action is executable, the greedy action is one. *)
Lemma greedy_action_valid (non_spatial_action : list Q) (available_actions : list Z)
    (a : Z) :
  length non_spatial_action = num_actions function_id →
  valid_actions_of function_id available_actions ≠ ∅ →
  greedy_action function_id non_spatial_action available_actions = Ok a →
  a ∈ valid_actions_of function_id available_actions.
Proof.
  intros Hlen Hne H.
  destruct (greedy_action_inv _ _ _ Hlen H) as (L & k & v & HlL & HL & Hv & Hmax & _ & Ha).
  apply set_choose_L in Hne as [i0 Hi0].
  pose proof Hi0 as [_ Hi0e]%valid_actions_of_spec.
  destruct (list_index_Ok i0 _ Hi0e) as (k0 & Hk0 & Hk0lt).
  destruct (lookup_lt_is_Some_2 non_spatial_action k0) as [x0 Hx0];
    [unfold num_actions in Hlen; lia|].
  assert (HL0 : L !! k0 = Some (Some x0)) by (apply HL; split; [done|by exists i0]).
  specialize (Hmax _ _ HL0). destruct v as [p|]; [|done].
  apply HL in Hv as (_ & i & Hi & Hik).
  destruct (list_index_lookup _ _ _ Hik) as [_ Hil]. rewrite Nat2Z.id in Hil.
  by assert (a = i) as -> by congruence.
Qed.

(** When no available action is executable, every entry is masked and the
    search returns position 0: the greedy action is [no_op]. *)
Lemma greedy_action_none (non_spatial_action : list Q) (available_actions : list Z)
    (a : Z) :
  length non_spatial_action = num_actions function_id →
  valid_actions_of function_id available_actions = ∅ →
  greedy_action function_id non_spatial_action available_actions = Ok a →
  a = function_id no_op.
Proof.
  intros Hlen Hnone H.
  destruct (greedy_action_inv _ _ _ Hlen H) as (L & k & v & HlL & HL & Hv & _ & Hfirst & Ha).
  assert (Hmasked : ∀ j u, L !! j = Some u → u = None).
  { intros j [p|] Hu; [|done]. apply HL in Hu as (_ & i & Hi & _).
    rewrite Hnone in Hi. by apply elem_of_empty in Hi. }
  assert (k = 0%nat) as ->.
  { destruct k as [|k]; [done|].
    destruct (lookup_lt_is_Some_2 L 0) as [u Hu].
    { apply lookup_lt_Some in Hv. lia. }
    specialize (Hfirst 0%nat u ltac:(lia) Hu).
    rewrite (Hmasked _ _ Hv) in Hfirst. by destruct u. }
  by injection Ha as <-.
Qed.

End GreedyAction.

(** ** step, further *)

Lemma ext_argmax_bound (l : list (option Q)) (k : Z) :
  ext_argmax l = Ok k → 0 ≤ k < Z.of_nat (length l).
Proof.
  intros Hk. destruct (ext_argmax_spec l) as (n & v & Hn & Hv & _).
  { intros ->. done. }
  rewrite Hk in Hn. injection Hn as ->. apply lookup_lt_Some in Hv. lia.
Qed.

Lemma np_argmax_bound (a : list Q) (k : Z) :
  np_argmax a = Ok k → 0 ≤ k < Z.of_nat (length a).
Proof.
  unfold np_argmax. intros H%ext_argmax_bound. by rewrite length_fmap in H.
Qed.

Lemma getitem_elem_of {A} (l : list A) (i : Z) (x : A) : getitem l i = Ok x → x ∈ l.
Proof.
  unfold getitem. intros H. apply bind_Ok in H as (k & _ & H).
  destruct (l !! k) eqn:E; [|done]. injection H as <-. by eapply list_elem_of_lookup_2.
Qed.

Section StepFurther.
Context {Screen Info Weights RawObservation Rng : Type}.
Variable function_id : sc2_function → Z.
Variable FUNCTIONS : Z → option function_info.
Variable nn_value : Weights → Screen → Info → Q.
Variable train : Weights → @feed Screen Info → Weights * (Q * Q).
Variable create_feed_dict : RawObservation → list Z → Screen * Info.
Variable nn_policy : Weights → Screen → Info → list Q * list Q.
Variable rand : Rng → Q * Rng.
Variable choice : Rng → list Z → result Z * Rng.
Variable randint : Rng → Z → Z → Z * Rng.
Variable valid_actions_list : list Z → list Z.

Local Abbreviation step' :=
  (step function_id FUNCTIONS nn_value train create_feed_dict nn_policy rand choice randint
     valid_actions_list).

(** Everything a returning [step] did. *)
Lemma step_inv_full (g g' : Rng) (STEP_COUNTER STEP_COUNTER' : Z) (ses ses' : session)
    (self self' : agent) (obs : timestep) (call : function_call) :
  step' g STEP_COUNTER ses self obs = Ok (g', STEP_COUNTER', ses', self', call) →
  let nn_input := create_feed_dict (obs_observation obs) (obs_available_actions obs) in
  let probs := nn_policy (variables ses) nn_input.1 nn_input.2 in
  let valid_actions := valid_actions_list (obs_available_actions obs) in
  ∃ greedy cell g1 a f minerals vespene,
    STEP_COUNTER < MAX_STEPS_TOTAL ∧ STEP_COUNTER' = STEP_COUNTER + 1 ∧ ses' = ses ∧
    greedy_action function_id probs.1 (obs_available_actions obs) = Ok greedy ∧
    np_argmax probs.2 = Ok cell ∧
    explore_action rand choice g (explore_at STEP_COUNTER) valid_actions greedy
      = Ok (g1, ra0_action_id a, ra3_random_action a) ∧
    explore_position rand randint g1 (explore_at STEP_COUNTER) (decode_target cell)
      = (g', ra1_action_target a, ra4_random_position a) ∧
    ra2_valid_actions a = valid_actions ∧
    getitem (obs_score_cumulative obs) 7 = Ok minerals ∧
    getitem (obs_score_cumulative obs) 8 = Ok vespene ∧
    FUNCTIONS (ra0_action_id a) = Some f ∧
    self' = Agent (agent_id self) (episodes self) (steps self + 1)
              (replay_states self ++
                 [ReplayState nn_input.1 nn_input.2 (obs_reward obs) minerals vespene
                    (obs_last obs)])
              (replay_actions self ++ [a]) ∧
    call = FunctionCall (ra0_action_id a) (call_arguments_of f (ra1_action_target a)).
Proof.
  unfold step. case_decide as Hs.
  { intros H. by apply bind_Ok in H as (? & _ & ?). }
  destruct (nn_policy _ _ _) as [non_spatial_action spatial_action] eqn:Epol.
  intros H. simpl.
  apply bind_Ok in H as (greedy & Hgreedy & H).
  apply bind_Ok in H as (cell & Hcell & H).
  apply bind_Ok in H as ([[[[g2 action_id] action_target] random_action] random_position] & Hr & H).
  apply bind_Ok in H as (minerals & Hmin & H).
  apply bind_Ok in H as (vespene & Hves & H).
  apply bind_Ok in H as (f & Hf & H).
  injection H as <- <- <- <- <-.
  change TRAINING with true in Hr. cbv iota in Hr.
  apply bind_Ok in Hr as ([[g1 a1] ra] & Hact & Hr).
  destruct (explore_position rand randint g1 (explore_at STEP_COUNTER) (decode_target cell))
    as [[g3 pos] rp] eqn:Epos.
  injection Hr as <- <- <- <- <-.
  destruct (FUNCTIONS a1) as [f'|] eqn:Ef; [|done]. injection Hf as ->.
  exists greedy, cell, g1,
    (ReplayAction a1 pos (valid_actions_list (obs_available_actions obs)) ra rp),
    f, minerals, vespene.
  simpl. repeat split; try done; lia.
Qed.

(** Once the global step counter has reached MAX_STEPS_TOTAL, [step] never
    returns an action: it runs a last update and raises KeyboardInterrupt,
    and on an empty buffer that update raises IndexError instead. *)
Theorem step_exhausted (g : Rng) (STEP_COUNTER : Z) (ses : session) (self : agent)
    (obs : timestep) :
  MAX_STEPS_TOTAL ≤ STEP_COUNTER →
  (∀ r, step' g STEP_COUNTER ses self obs ≠ Ok r) ∧
  (replay_states self = [] → step' g STEP_COUNTER ses self obs = Raise IndexError) ∧
  (wf_buffer function_id FUNCTIONS self →
     step' g STEP_COUNTER ses self obs = Raise KeyboardInterrupt).
Proof.
  intros Hs. unfold step. rewrite decide_True by lia. split; [|split].
  - intros r H. by apply bind_Ok in H as (? & _ & ?).
  - intros Hnil. unfold update. cbn [replay_states]. rewrite Hnil.
    by rewrite bootstrap_empty.
  - intros Hwf.
    destruct (update_Ok function_id FUNCTIONS nn_value train STEP_COUNTER ses
                (Agent (agent_id self) (episodes self) (steps self + 1)
                   (replay_states self) (replay_actions self)))
      as (ses' & self' & res & ->); [|done].
    exact Hwf.
Qed.

Lemma explore_at_late (STEP_COUNTER : Z) :
  2000000 ≤ STEP_COUNTER → (1 <= explore_at STEP_COUNTER)%Q.
Proof.
  intros Hs. rewrite explore_at_linear. unfold EXPLORATION_RATE.
  change (inject_Z MAX_STEPS_TOTAL) with (10000000 # 1)%Q.
  rewrite Zle_Qle in Hs. change (inject_Z 2000000) with (2000000 # 1)%Q in Hs.
  assert (inject_Z STEP_COUNTER / (10000000 # 1) == inject_Z STEP_COUNTER * (1 # 10000000))%Q
    as -> by (by field).
  lra.
Qed.

(** When the first draw does not exceed the schedule, the check makes two
    draws and hits exactly when the second is below EPSILON. *)
Lemma explore_check_late (g : Rng) (explore : Q) :
  ¬ (explore < (rand g).1)%Q →
  explore_check rand g explore
    = (Qltb (rand (rand g).2).1 EPSILON, (rand (rand g).2).2).
Proof.
  intros Hno. unfold explore_check. destruct (rand g) as [d1 g1]. cbn [fst snd] in *.
  destruct (Qltb explore d1) eqn:E; [by apply Qltb_lt in E|].
  by destruct (rand g1) as [d2 g2].
Qed.

(** From step EXPLORATION_RATE * MAX_STEPS_TOTAL = 2000000 on, with draws
    of [rand] below 1, the schedule never triggers exploration.  The action
    is random exactly when the second draw of the step is below EPSILON.
    The check of the position starts from the generator state [g1] that the
    action left, which is the state after those two draws and, when the
    action was random, after the choice; the position is random exactly when
    the second draw from [g1] is below EPSILON. *)
Theorem late_exploration_is_epsilon (g g' : Rng) (STEP_COUNTER STEP_COUNTER' : Z)
    (ses ses' : session) (self self' : agent) (obs : timestep) (call : function_call) :
  (∀ g0, ((rand g0).1 < 1)%Q) →
  2000000 ≤ STEP_COUNTER →
  step' g STEP_COUNTER ses self obs = Ok (g', STEP_COUNTER', ses', self', call) →
  ∃ a,
    replay_actions self' = replay_actions self ++ [a] ∧
    (ra3_random_action a = true ↔ ((rand (rand g).2).1 < EPSILON)%Q) ∧
    let g0 := (rand (rand g).2).2 in
    let g1 := if ra3_random_action a
              then (choice g0 (valid_actions_list (obs_available_actions obs))).2
              else g0 in
    let g2 := (rand (rand g1).2).2 in
    (ra4_random_position a = true ↔ ((rand (rand g1).2).1 < EPSILON)%Q) ∧
    g' = if ra4_random_position a
         then (randint (randint g2 0 (A3C_SCREEN_SIZE_Y - 1)).2 0 (A3C_SCREEN_SIZE_X - 1)).2
         else g2.
Proof.
  intros Hrand Hs Hstep.
  destruct (step_inv_full _ _ _ _ _ _ _ _ _ _ Hstep)
    as (greedy & cell & g1 & a & f & minerals & vespene & _ & _ & _ & _ & _ &
        Hact & Hpos & _ & _ & _ & _ & -> & _).
  pose proof (explore_at_late _ Hs) as Hlate.
  assert (Hno : ∀ g0, ¬ (explore_at STEP_COUNTER < (rand g0).1)%Q).
  { intros g0 Hlt. specialize (Hrand g0). lra. }
  exists a. split; [done|].
  unfold explore_action in Hact. rewrite (explore_check_late _ _ (Hno g)) in Hact.
  unfold explore_position in Hpos. rewrite (explore_check_late _ _ (Hno g1)) in Hpos.
  assert (ra3_random_action a = Qltb (rand (rand g).2).1 EPSILON ∧
                g1 = if ra3_random_action a
                     then (choice (rand (rand g).2).2
                             (valid_actions_list (obs_available_actions obs))).2
                     else (rand (rand g).2).2) as [Hra Hg1].
  { destruct (Qltb (rand (rand g).2).1 EPSILON).
    - destruct (choice _ _) as [r g3]. apply bind_Ok in Hact as (x & _ & Hact).
      injection Hact as <- _ <-. done.
    - injection Hact as <- _ <-. done. }
  split; [by rewrite Hra, Qltb_lt|]. cbv zeta. rewrite <- Hg1.
  destruct (Qltb (rand (rand g1).2).1 EPSILON) eqn:E.
  - destruct (randint _ _ _) as [y g3] eqn:Ey. destruct (randint g3 _ _) as [x g4] eqn:Ex.
    injection Hpos as <- _ <-. split; [by rewrite <- Qltb_lt, E|].
    cbn [snd]. by rewrite Ex.
  - injection Hpos as <- _ <-. split; [|done]. rewrite <- Qltb_lt, E. done.
Qed.

(** A randomly drawn position never lies in the last row or the last
    column of the screen: both coordinates are drawn below size - 1. *)
Theorem random_position_range (g g' : Rng) (STEP_COUNTER STEP_COUNTER' : Z)
    (ses ses' : session) (self self' : agent) (obs : timestep) (call : function_call) :
  (∀ g0 low high, low < high → low ≤ (randint g0 low high).1 < high) →
  step' g STEP_COUNTER ses self obs = Ok (g', STEP_COUNTER', ses', self', call) →
  ∃ a,
    replay_actions self' = replay_actions self ++ [a] ∧
    (ra4_random_position a = true →
       0 ≤ (ra1_action_target a).1 < A3C_SCREEN_SIZE_Y - 1 ∧
       0 ≤ (ra1_action_target a).2 < A3C_SCREEN_SIZE_X - 1).
Proof.
  intros Hrandint Hstep.
  destruct (step_inv_full _ _ _ _ _ _ _ _ _ _ Hstep)
    as (greedy & cell & g1 & a & f & minerals & vespene & _ & _ & _ & _ & _ &
        _ & Hpos & _ & _ & _ & _ & -> & _).
  exists a. split; [done|]. intros Hrp. unfold explore_position in Hpos.
  destruct (explore_check rand g1 (explore_at STEP_COUNTER)) as [[] g2].
  - pose proof (Hrandint g2 0 (A3C_SCREEN_SIZE_Y - 1) ltac:(by vm_compute)) as Hy.
    destruct (randint g2 0 (A3C_SCREEN_SIZE_Y - 1)) as [y g3].
    pose proof (Hrandint g3 0 (A3C_SCREEN_SIZE_X - 1) ltac:(by vm_compute)) as Hx.
    destruct (randint g3 0 (A3C_SCREEN_SIZE_X - 1)) as [x g4].
    injection Hpos as _ <- _. done.
  - injection Hpos as _ _ Hf. congruence.
Qed.

Lemma greedy_action_executable (non_spatial_action : list Q) (available_actions : list Z)
    (a : Z) :
  greedy_action function_id non_spatial_action available_actions = Ok a →
  a ∈ executable_actions_ids function_id.
Proof.
  unfold greedy_action. intros H. apply bind_Ok in H as (mask & _ & H).
  apply bind_Ok in H as (k & _ & H). by eapply getitem_elem_of.
Qed.

(** [step] keeps the buffer fit for [update].  Take a generator whose
    choice is an element of the list and whose integers lie in the requested
    range, a network that returns one probability per executable action and
    a spatial map of at most SIZE_X * SIZE_Y cells, and any iteration order
    of the set of legal actions.  A returning [step] then adds one state and
    one action and counts one step more on both counters.  The recorded list
    of legal actions holds exactly the available executable actions, each
    once; the recorded action, which is the one called, is one of them when
    there is any, and otherwise it is [no_op], not drawn at random; it is a
    function pysc2 knows, and its target lies inside the grid.  The
    [update] of the new buffer returns. *)
Theorem step_keeps_buffer (g g' : Rng) (STEP_COUNTER STEP_COUNTER' : Z)
    (ses ses' : session) (self self' : agent) (obs : timestep) (call : function_call) :
  lists_valid_actions function_id valid_actions_list →
  (∀ g0 l x, (choice g0 l).1 = Ok x → x ∈ l) →
  (∀ g0 low high, low < high → low ≤ (randint g0 low high).1 < high) →
  (∀ w scr info, length (nn_policy w scr info).1 = num_actions function_id) →
  (∀ w scr info, (length (nn_policy w scr info).2 ≤ num_cells)%nat) →
  length (replay_actions self) = length (replay_states self) →
  Forall (wf_action function_id FUNCTIONS) (replay_actions self) →
  step' g STEP_COUNTER ses self obs = Ok (g', STEP_COUNTER', ses', self', call) →
  wf_buffer function_id FUNCTIONS self' ∧
  STEP_COUNTER' = STEP_COUNTER + 1 ∧
  steps self' = steps self + 1 ∧
  length (replay_states self') = S (length (replay_states self)) ∧
  (∃ a, last (replay_actions self') = Some a ∧ call_function call = ra0_action_id a ∧
     NoDup (ra2_valid_actions a) ∧
     (∀ i, i ∈ ra2_valid_actions a ↔
        i ∈ obs_available_actions obs ∧ i ∈ executable_actions_ids function_id) ∧
     (ra2_valid_actions a ≠ [] → ra0_action_id a ∈ ra2_valid_actions a) ∧
     (ra2_valid_actions a = [] →
        ra0_action_id a = function_id no_op ∧ ra3_random_action a = false) ∧
     is_Some (FUNCTIONS (ra0_action_id a)) ∧
     0 ≤ spatial_index (ra1_action_target a) < A3C_SCREEN_SIZE_X * A3C_SCREEN_SIZE_Y) ∧
  ∃ r, update function_id FUNCTIONS nn_value train STEP_COUNTER' ses' self' = Ok r.
Proof.
  intros Horder Hchoice Hrandint Hprobs Hcells Hlen Hwf Hstep.
  destruct (step_inv_full _ _ _ _ _ _ _ _ _ _ Hstep)
    as (greedy & cell & g1 & a & f & minerals & vespene & _ & Hs & -> & Hgreedy & Hcell &
        Hact & Hpos & Hvalid & _ & _ & Hf & -> & ->).
  destruct (Horder (obs_available_actions obs)) as [Hnd Hmem].
  destruct (explore_action_inv _ _ _ _ _ _ _ _ _ Hact) as (_ & Hrnd & Hkeep).
  specialize (Hprobs (variables ses)
    (create_feed_dict (obs_observation obs) (obs_available_actions obs)).1
    (create_feed_dict (obs_observation obs) (obs_available_actions obs)).2).
  assert (Hlegal : ∀ i, i ∈ ra2_valid_actions a ↔
            i ∈ obs_available_actions obs ∧ i ∈ executable_actions_ids function_id).
  { intros i. rewrite Hvalid, Hmem. apply valid_actions_of_spec. }
  assert (Hsome : ra2_valid_actions a ≠ [] → ra0_action_id a ∈ ra2_valid_actions a).
  { intros Hne. destruct (ra3_random_action a).
    - specialize (Hrnd eq_refl). apply Hchoice in Hrnd. by rewrite Hvalid.
    - rewrite (Hkeep eq_refl), Hvalid, Hmem.
      apply (greedy_action_valid _ _ _ _ Hprobs); [|done].
      intros Hempty. destruct (ra2_valid_actions a) as [|i l] eqn:E; [done|].
      assert (i ∈ valid_actions_of function_id (obs_available_actions obs)) as Hi.
      { apply valid_actions_of_spec, Hlegal. left. }
      rewrite Hempty in Hi. by apply elem_of_empty in Hi. }
  assert (Hnone : ra2_valid_actions a = [] →
            ra0_action_id a = function_id no_op ∧ ra3_random_action a = false).
  { intros Hnil. rewrite Hvalid in Hnil.
    assert (ra3_random_action a = false) as Hra.
    { destruct (ra3_random_action a); [|done]. specialize (Hrnd eq_refl).
      apply Hchoice in Hrnd. rewrite Hnil in Hrnd. by apply elem_of_nil in Hrnd. }
    split; [|done]. rewrite (Hkeep Hra).
    apply (greedy_action_none function_id _ (obs_available_actions obs) _ Hprobs); [|done].
    apply set_eq. intros i. rewrite <- Hmem, Hnil.
    split; [by intros ?%elem_of_nil|by intros ?%elem_of_empty]. }
  assert (Hexec : ra0_action_id a ∈ executable_actions_ids function_id).
  { destruct (ra3_random_action a).
    - specialize (Hrnd eq_refl). apply Hchoice in Hrnd.
      rewrite <- Hvalid in Hrnd. by apply Hlegal in Hrnd as [_ ?].
    - rewrite (Hkeep eq_refl). by eapply greedy_action_executable. }
  assert (Htarget : 0 ≤ spatial_index (ra1_action_target a)
                    < A3C_SCREEN_SIZE_X * A3C_SCREEN_SIZE_Y).
  { unfold explore_position in Hpos.
    destruct (explore_check rand g1 (explore_at STEP_COUNTER)) as [[] g2].
    + pose proof (Hrandint g2 0 (A3C_SCREEN_SIZE_Y - 1) ltac:(by vm_compute)) as Hy.
      destruct (randint g2 0 (A3C_SCREEN_SIZE_Y - 1)) as [y g3].
      pose proof (Hrandint g3 0 (A3C_SCREEN_SIZE_X - 1) ltac:(by vm_compute)) as Hx.
      destruct (randint g3 0 (A3C_SCREEN_SIZE_X - 1)) as [x g4].
      injection Hpos as _ <- _. unfold spatial_index. simpl in *.
      unfold A3C_SCREEN_SIZE_X, A3C_SCREEN_SIZE_Y in *. lia.
    + injection Hpos as _ <- _. rewrite spatial_index_decode.
      apply np_argmax_bound in Hcell.
      specialize (Hcells (variables ses)
        (create_feed_dict (obs_observation obs) (obs_available_actions obs)).1
        (create_feed_dict (obs_observation obs) (obs_available_actions obs)).2).
      unfold num_cells in Hcells. unfold A3C_SCREEN_SIZE_X, A3C_SCREEN_SIZE_Y in *.
      pose proof (Z.div_mod cell 32 ltac:(lia)).
      pose proof (Z.mod_pos_bound cell 32 ltac:(lia)). lia. }
  assert (Ha : wf_action function_id FUNCTIONS a).
  { split; [done|]. split; [|split; [by rewrite Hf|done]].
    apply Forall_forall. by intros i [_ ?]%Hlegal. }
  assert (Hbuf : wf_buffer function_id FUNCTIONS
            (Agent (agent_id self) (episodes self) (steps self + 1)
               (replay_states self ++
                  [ReplayState
                     (create_feed_dict (obs_observation obs) (obs_available_actions obs)).1
                     (create_feed_dict (obs_observation obs) (obs_available_actions obs)).2
                     (obs_reward obs) minerals vespene (obs_last obs)])
               (replay_actions self ++ [a]))).
  { split; [|split]; cbn [replay_states replay_actions].
    - intros Hnil. by apply app_eq_nil in Hnil as [_ ?].
    - rewrite !length_app. simpl. lia.
    - apply Forall_app. split; [done|]. by apply Forall_singleton. }
  split; [done|]. split; [done|]. split; [done|]. split.
  { cbn [replay_states]. rewrite length_app. simpl. lia. }
  split.
  { exists a. cbn [replay_actions call_function]. split; [apply last_snoc|].
    split; [done|]. split; [by rewrite Hvalid|]. split; [done|]. split; [done|].
    split; [done|]. split; [by rewrite Hf|done]. }
  destruct (update_Ok function_id FUNCTIONS nn_value train STEP_COUNTER' ses _ Hbuf)
    as (ses2 & self2 & res & Hupd).
  exists (ses2, self2, res). exact Hupd.
Qed.

End StepFurther.

(** *** The sample generator and the witnesses *)

Lemma clock_rand_lt_1 (n : nat) : ((clock_rand n).1 < 1)%Q.
Proof.
  unfold clock_rand, Qlt. simpl. pose proof (Nat.mod_upper_bound n 100). lia.
Qed.

Lemma clock_choice_elem (n : nat) (l : list Z) (x : Z) :
  (clock_choice n l).1 = Ok x → x ∈ l.
Proof.
  unfold clock_choice. simpl. destruct (l !! _) eqn:E; [|done].
  intros [= <-]. by eapply list_elem_of_lookup_2.
Qed.

Lemma sample_clock_step_eq :
  sample_clock_step 0 0 (Agent 0 0 0 [] []) =
    Ok (sample_clock_outcome.1.1.1.1, sample_clock_outcome.1.1.1.2,
        sample_clock_outcome.1.1.2, sample_clock_outcome.1.2, sample_clock_outcome.2).
Proof. vm_compute. reflexivity. Qed.

Lemma sample_late_step_eq :
  sample_clock_step 0 2000000 (Agent 0 0 0 [] []) =
    Ok (sample_late_outcome.1.1.1.1, sample_late_outcome.1.1.1.2,
        sample_late_outcome.1.1.2, sample_late_outcome.1.2, sample_late_outcome.2).
Proof. vm_compute. reflexivity. Qed.

Lemma sample_valid_actions_nonempty :
  valid_actions_of sample_function_id [0; 331] ≠ ∅.
Proof.
  intros H. assert (0 ∈ valid_actions_of sample_function_id [0; 331]) as Hin.
  { apply valid_actions_of_spec. split; [left|]. apply (bool_decide_unpack _). by vm_compute. }
  rewrite H in Hin. by apply elem_of_empty in Hin.
Qed.

Lemma greedy_action_legal_witness :
  ∃ (a : Z) (k : nat) (p : Q),
    greedy_action sample_function_id (sample_nn_policy tt tt tt).1 [0; 331] = Ok a ∧
    a ∈ [0; 331] ∧ a ∈ executable_actions_ids sample_function_id ∧
    list_index a (executable_actions_ids sample_function_id) = Ok (Z.of_nat k) ∧
    (sample_nn_policy tt tt tt).1 !! k = Some p ∧
    ∀ a' (k' : nat) p',
      a' ∈ [0; 331] → a' ∈ executable_actions_ids sample_function_id →
      list_index a' (executable_actions_ids sample_function_id) = Ok (Z.of_nat k') →
      (sample_nn_policy tt tt tt).1 !! k' = Some p' →
      (p' <= p)%Q ∧ ((k' < k)%nat → (p' < p)%Q).
Proof.
  exact (greedy_action_legal sample_function_id (sample_nn_policy tt tt tt).1 [0; 331]
           eq_refl sample_valid_actions_nonempty).
Defined.

Lemma step_exhausted_witness :
  sample_step [] MAX_STEPS_TOTAL (Agent 0 0 0 [] []) = Raise IndexError ∧
  sample_step [] MAX_STEPS_TOTAL (Agent 0 1 0 sample_states sample_actions)
    = Raise KeyboardInterrupt.
Proof.
  split.
  - exact (proj1 (proj2 (step_exhausted sample_function_id sample_FUNCTIONS sample_nn_value
             sample_train (λ _ _, (tt, tt)) sample_nn_policy tape_rand tape_choice
             tape_randint sample_valid_actions_list [] MAX_STEPS_TOTAL (Session tt [])
             (Agent 0 0 0 [] []) sample_obs ltac:(by vm_compute))) eq_refl).
  - exact (proj2 (proj2 (step_exhausted sample_function_id sample_FUNCTIONS sample_nn_value
             sample_train (λ _ _, (tt, tt)) sample_nn_policy tape_rand tape_choice
             tape_randint sample_valid_actions_list [] MAX_STEPS_TOTAL (Session tt [])
             (Agent 0 1 0 sample_states sample_actions) sample_obs
             ltac:(by vm_compute))) sample_buffer_wf).
Defined.

Lemma late_exploration_is_epsilon_witness :
  ∃ a,
    replay_actions sample_late_outcome.1.2 = [] ++ [a] ∧
    (ra3_random_action a = true ↔ ((clock_rand (clock_rand 0).2).1 < EPSILON)%Q) ∧
    let g0 := (clock_rand (clock_rand 0).2).2 in
    let g1 := if ra3_random_action a
              then (clock_choice g0 (sample_valid_actions_list [0; 331])).2
              else g0 in
    let g2 := (clock_rand (clock_rand g1).2).2 in
    (ra4_random_position a = true ↔ ((clock_rand (clock_rand g1).2).1 < EPSILON)%Q) ∧
    sample_late_outcome.1.1.1.1 =
      if ra4_random_position a
      then (clock_randint (clock_randint g2 0 (A3C_SCREEN_SIZE_Y - 1)).2
              0 (A3C_SCREEN_SIZE_X - 1)).2
      else g2.
Proof.
  exact (late_exploration_is_epsilon sample_function_id sample_FUNCTIONS sample_nn_value
           sample_train (λ _ _, (tt, tt)) sample_nn_policy clock_rand clock_choice
           clock_randint sample_valid_actions_list 0%nat _ 2000000 _ _ _ _ _ sample_obs _
           clock_rand_lt_1 ltac:(by vm_compute) sample_late_step_eq).
Defined.

Lemma random_position_range_witness :
  ∃ a,
    replay_actions sample_clock_outcome.1.2 = [] ++ [a] ∧
    (ra4_random_position a = true →
       0 ≤ (ra1_action_target a).1 < A3C_SCREEN_SIZE_Y - 1 ∧
       0 ≤ (ra1_action_target a).2 < A3C_SCREEN_SIZE_X - 1).
Proof.
  exact (random_position_range sample_function_id sample_FUNCTIONS sample_nn_value
           sample_train (λ _ _, (tt, tt)) sample_nn_policy clock_rand clock_choice
           clock_randint sample_valid_actions_list _ _ _ _ _ _ _ _ sample_obs _
           clock_randint_range sample_clock_step_eq).
Defined.

Lemma sample_policy_cells (w scr info : unit) :
  (length (sample_nn_policy w scr info).2 ≤ num_cells)%nat.
Proof. by vm_compute. Qed.

Lemma sample_policy_probs (w scr info : unit) :
  length (sample_nn_policy w scr info).1 = num_actions sample_function_id.
Proof. done. Qed.

Lemma step_keeps_buffer_witness :
  wf_buffer sample_function_id sample_FUNCTIONS sample_clock_outcome.1.2 ∧
  (∃ a, last (replay_actions sample_clock_outcome.1.2) = Some a ∧
     call_function sample_clock_outcome.2 = ra0_action_id a ∧
     (∀ i, i ∈ ra2_valid_actions a ↔
        i ∈ [0; 331] ∧ i ∈ executable_actions_ids sample_function_id) ∧
     (ra2_valid_actions a ≠ [] → ra0_action_id a ∈ ra2_valid_actions a)) ∧
  ∃ r, update sample_function_id sample_FUNCTIONS sample_nn_value sample_train
         sample_clock_outcome.1.1.1.2 sample_clock_outcome.1.1.2
         sample_clock_outcome.1.2 = Ok r.
Proof.
  destruct (step_keeps_buffer sample_function_id sample_FUNCTIONS sample_nn_value
              sample_train (λ _ _, (tt, tt)) sample_nn_policy clock_rand clock_choice
              clock_randint sample_valid_actions_list 0%nat _ 0 _ (Session tt []) _
              (Agent 0 0 0 [] []) _ sample_obs _
              sample_lists_valid_actions clock_choice_elem clock_randint_range
              sample_policy_probs sample_policy_cells eq_refl (Forall_nil_2 _)
              sample_clock_step_eq)
    as (Hwf & _ & _ & _ & (a & Hlast & Hcall & _ & Hmem & Hin & _) & Hupd).
  split; [exact Hwf|]. split; [|exact Hupd].
  exists a. split; [exact Hlast|]. split; [exact Hcall|]. split; [exact Hmem|exact Hin].
Defined.

(** ** Checkpoints and the logs of the workers *)

Section CheckpointLogs.
Context {Screen Info Weights : Type}.
Implicit Types (fs : @file_system Weights) (cls : class_state).
Implicit Types (ses : @session Screen Info Weights) (self : @agent Screen Info).

(** The loop that writes the XML files stops with [AttributeError] at the
    first log that is still [None]. *)
Lemma write_logs_None (l : list (nat * option (list episode_entry))) fs :
  Exists (λ kv, kv.2 = None) l → for_each l write_log fs = Raise AttributeError.
Proof.
  revert fs. induction l as [|[k v] l IH]; intros fs Hex; [by apply Exists_nil in Hex|].
  cbn [for_each]. destruct v as [tree|]; [|done].
  change (write_log (k, Some tree) fs) with
    (Ok (FileSystem (fs_save_path fs) (fs_python_vars fs) (fs_checkpoint fs)
           (<[k:=tree]> (fs_logs fs)))).
  rewrite Ok_bind. apply IH. apply Exists_cons in Hex as [?|?]; done.
Qed.

(** When every log is a tree, each one is written to the file of its agent
    and the other files are left as they were. *)
Lemma write_logs_Some (l : list (nat * option (list episode_entry))) fs :
  NoDup l.*1 →
  Forall (λ kv, is_Some kv.2) l →
  ∃ fs', for_each l write_log fs = Ok fs' ∧
    fs_save_path fs' = fs_save_path fs ∧
    fs_python_vars fs' = fs_python_vars fs ∧
    fs_checkpoint fs' = fs_checkpoint fs ∧
    ∀ k, fs_logs fs' !! k =
           match (list_to_map l : gmap nat (option (list episode_entry))) !! k with
           | Some (Some tree) => Some tree
           | _ => fs_logs fs !! k
           end.
Proof.
  revert fs. induction l as [|[k v] l IH]; intros fs Hnd Hall.
  - exists fs. repeat split; try done.
  - apply NoDup_cons in Hnd as [Hk Hnd]. apply Forall_cons in Hall as [[tree Hv] Hall].
    simpl in Hv. subst v. cbn [for_each].
    change (write_log (k, Some tree) fs) with
      (Ok (FileSystem (fs_save_path fs) (fs_python_vars fs) (fs_checkpoint fs)
             (<[k:=tree]> (fs_logs fs)))).
    rewrite Ok_bind.
    destruct (IH (FileSystem (fs_save_path fs) (fs_python_vars fs) (fs_checkpoint fs)
                    (<[k:=tree]> (fs_logs fs))) Hnd Hall)
      as (fs' & -> & E1 & E2 & E3 & E4).
    exists fs'. split; [done|]. split; [done|]. split; [done|]. split; [done|].
    intros k'. rewrite E4. cbn [list_to_map foldr fs_logs]. 
    destruct (decide (k = k')) as [<-|Hne].
    + rewrite (not_elem_of_list_to_map_1 l k Hk). cbn [uncurry]. 
      by rewrite !lookup_insert_eq.
    + cbn [uncurry]. by rewrite !lookup_insert_ne by done.
Qed.

(** What [save_checkpoint] writes when every worker has a log: the pickled
    counters with the resolution, the network parameters, and the log of
    each worker in its own file. *)
Lemma save_checkpoint_Ok fs cls ses (global_steps global_episodes : Z) :
  (∀ k, action_logs cls !! k ≠ Some None) →
  ∃ fs', save_checkpoint fs cls ses global_steps global_episodes = Ok fs' ∧
    fs_save_path fs' = true ∧
    fs_python_vars fs' =
      Some (global_steps, global_episodes, A3C_SCREEN_SIZE_Y, A3C_SCREEN_SIZE_X) ∧
    fs_checkpoint fs' = Some (variables ses) ∧
    ∀ k, fs_logs fs' !! k =
           match action_logs cls !! k with
           | Some (Some tree) => Some tree
           | _ => fs_logs fs !! k
           end.
Proof.
  intros Hlogs. unfold save_checkpoint.
  destruct (write_logs_Some (map_to_list (action_logs cls))
              (FileSystem true
                 (Some (global_steps, global_episodes, A3C_SCREEN_SIZE_Y, A3C_SCREEN_SIZE_X))
                 (Some (variables ses)) (fs_logs fs)))
    as (fs' & Hsave & E1 & E2 & E3 & E4).
  - apply NoDup_fst_map_to_list.
  - apply Forall_forall. intros [k v] Hkv%elem_of_map_to_list. simpl.
    destruct v; [done|]. by destruct (Hlogs k).
  - exists fs'. split; [done|]. split; [done|]. split; [done|]. split; [done|].
    intros k. rewrite E4. by rewrite list_to_map_to_list.
Qed.

Lemma save_checkpoint_without_log_aux fs cls ses (global_steps global_episodes : Z)
    (k : nat) :
  action_logs cls !! k = Some None →
  save_checkpoint fs cls ses global_steps global_episodes = Raise AttributeError.
Proof.
  intros Hk. unfold save_checkpoint. apply write_logs_None.
  apply Exists_exists. exists (k, None). split; [|done].
  by apply elem_of_map_to_list.
Qed.

(** A checkpoint is saved exactly when every worker has a log: the loop
    over [action_logs] calls [getroot] on each entry, and an entry that is
    still [None] (a worker that has not finished an episode, or one whose
    XML file was missing on resume) raises [AttributeError]. *)
Theorem save_checkpoint_needs_logs fs cls ses (global_steps global_episodes : Z) :
  ((∃ fs', save_checkpoint fs cls ses global_steps global_episodes = Ok fs') ↔
   ∀ k, action_logs cls !! k ≠ Some None) ∧
  ((∃ k, action_logs cls !! k = Some None) →
   save_checkpoint fs cls ses global_steps global_episodes = Raise AttributeError).
Proof.
  split; [split|].
  - intros [fs' Hsave] k Hk.
    by rewrite (save_checkpoint_without_log_aux fs cls ses _ _ k Hk) in Hsave.
  - intros Hlogs.
    destruct (save_checkpoint_Ok fs cls ses global_steps global_episodes Hlogs)
      as (fs' & Hsave & _). by exists fs'.
  - intros [k Hk]. by apply (save_checkpoint_without_log_aux _ _ _ _ _ k).
Qed.

(** Saving a checkpoint and loading it as worker [k], whose log holds at
    least one episode: the log of the worker is restored as it was saved,
    the worker's episode count is the number of the last episode in it, and
    the counters and parameters are those saved. *)
Theorem checkpoint_log_roundtrip fs cls cls0 ses ses0 self (out : list string)
    (global_steps global_episodes : Z) (tree : list episode_entry) (t : episode_entry) :
  (∀ k, action_logs cls !! k ≠ Some None) →
  action_logs cls !! agent_id self = Some (Some (tree ++ [t])) →
  (∀ k tree, action_logs cls !! k = Some (Some tree) → tree ≠ []) →
  logs_nonempty fs →
  ∃ fs' cls',
    save_checkpoint fs cls ses global_steps global_episodes = Ok fs' ∧
    load_checkpoint fs' cls0 ses0 self out
      = Ok (cls', Session (variables ses) (train_runs ses0),
            Agent (agent_id self) (num_agent t) (steps self)
              (replay_states self) (replay_actions self),
            out, true) ∧
    cls' = ClassState global_steps global_episodes
             (<[agent_id self := Some (tree ++ [t])]> (action_logs cls0)).
Proof.
  intros Hlogs Hself Hne Hfs.
  destruct (save_checkpoint_Ok fs cls ses global_steps global_episodes Hlogs)
    as (fs' & Hsave & Hdir & Hvars & Hckpt & Hfiles).
  exists fs'. eexists. split; [done|].
  unfold load_checkpoint. rewrite Hdir, Hvars, Hckpt, Hfiles, Hself.
  cbn [negb of_option]. rewrite Ok_bind.
  change (A3C_SCREEN_SIZE_Y =? A3C_SCREEN_SIZE_X) with true.
  change (A3C_SCREEN_SIZE_X =? A3C_SCREEN_SIZE_Y) with true.
  cbn [negb]. rewrite getitem_last. rewrite !Ok_bind. done.
Qed.

End CheckpointLogs.

(** ** The end of an episode *)

Lemma log_sorted_NoDup (log : option (list episode_entry)) (episodes : Z) :
  log_sorted log episodes →
  NoDup (num_agent <$> default [] log) ∧ episodes + 1 ∉ (num_agent <$> default [] log).
Proof.
  intros [Hs Hle]. split.
  - induction Hs as [|x l Hs IH Hx]; [constructor|]. constructor; [|done].
    intros Hin. eapply Forall_forall in Hx; [|exact Hin]. lia.
  - intros (t & Ht & Hin)%list_elem_of_fmap.
    eapply Forall_forall in Hle; [|exact Hin]. lia.
Qed.

Section ResetProperties.
Context {Screen Info Weights : Type}.
Variable function_id : sc2_function → Z.
Variable FUNCTIONS : Z → option function_info.
Variable nn_value : Weights → Screen → Info → Q.
Variable train : Weights → @feed Screen Info → Weights * (Q * Q).
Implicit Types (fs : @file_system Weights) (cls : class_state).
Implicit Types (ses : @session Screen Info Weights) (self : @agent Screen Info).

Local Abbreviation reset' := (reset function_id FUNCTIONS nn_value train).
Local Abbreviation update' := (update function_id FUNCTIONS nn_value train).

(** [reset] after an episode with steps, up to the checkpoint: the network
    is trained on the buffer, the episode is appended to the log of the
    worker, the counters go up and the buffers are emptied. *)
Lemma reset_episode fs cls ses self (log : option (list episode_entry)) :
  wf_buffer function_id FUNCTIONS self →
  action_logs cls !! agent_id self = Some log →
  NoDup (num_agent <$> default [] log) →
  episodes self + 1 ∉ (num_agent <$> default [] log) →
  ∃ ses' total p_loss v_loss states s trace feeds,
    let self1 := Agent (agent_id self) (episodes self + 1) 0
                   (replay_states self) (replay_actions self) in
    let tree' :=
      (clear_if (λ n, n ∉ retained_set (default [] log) self1 s) <$> default [] log)
      ++ [EpisodeEntry (EPISODE_COUNTER cls + 1) (episodes self + 1)
            (rs4_collected_vespene s) (Z.b2z (rs5_last s)) p_loss v_loss total trace] in
    let cls' := ClassState (STEP_COUNTER cls) (EPISODE_COUNTER cls + 1)
                  (<[agent_id self := Some tree']> (action_logs cls)) in
    let self' := Agent (agent_id self) (episodes self + 1) 0 [] [] in
    replay_states self = states ++ [s] ∧
    update' (STEP_COUNTER cls) ses self1 = Ok (ses', self1, (total, p_loss, v_loss)) ∧
    train_runs ses' = train_runs ses ++ feeds ∧ length feeds = NUM_BATCHES ∧
    length trace = length (replay_actions self) ∧
    reset' fs cls ses self =
      if decide ((EPISODE_COUNTER cls + 1) `mod` CHECKPOINT = 0) then
        fs' ← save_checkpoint fs cls' ses' (STEP_COUNTER cls) (EPISODE_COUNTER cls + 1);
        Ok (fs', cls', ses', self')
      else Ok (fs, cls', ses', self').
Proof.
  intros Hwf Hlog Hnd Hfresh.
  set (self1 := Agent (agent_id self) (episodes self + 1) 0
                  (replay_states self) (replay_actions self)).
  assert (Hwf1 : wf_buffer function_id FUNCTIONS self1) by exact Hwf.
  destruct (update_Ok function_id FUNCTIONS nn_value train (STEP_COUNTER cls) ses self1 Hwf1)
    as (ses' & self' & [[total p_loss] v_loss] & Hupd).
  destruct (update_inv _ _ _ _ _ _ _ _ _ _ _ _ Hupd)
    as (R & t & b & losses & _ & Ht & Hb & Hloop & Hself & _).
  rewrite set_replay_same in Hself. subst self'.
  destruct (split_targets_spec t) as (b' & Hb' & Hbatches).
  assert (b' = b) as -> by congruence.
  destruct (train_loop_spec train ses t b (learning_rate_at (STEP_COUNTER cls)) Hbatches)
    as (ses1 & losses1 & feeds & Hloop1 & Hruns & _ & Hfeeds).
  assert (ses1 = ses') as -> by congruence.
  assert (Hlen : length feeds = NUM_BATCHES).
  { destruct Hfeeds as (Hf & _). apply (f_equal length) in Hf.
    rewrite length_fmap, length_take in Hf. destruct Hbatches as ((Hl & _) & _).
    lia. }
  pose proof (wf_buffer_loggable function_id FUNCTIONS self1 Hwf1) as Hloggable.
  destruct Hwf as (Hne & Hlens & _).
  assert (∃ states s, replay_states self = states ++ [s]) as (states & s & Hstates).
  { destruct (replay_states self) as [|s states _] using rev_ind; [done|by eexists _, _]. }
  destruct (save_action_log_appends FUNCTIONS log self1 states s (EPISODE_COUNTER cls + 1)
              total p_loss v_loss Hstates Hloggable Hnd Hfresh)
    as (trace & _ & Hltrace & Hsave).
  exists ses', total, p_loss, v_loss, states, s, trace, feeds.
  cbv zeta. split; [done|]. split; [done|]. split; [done|].
  split; [done|]. split; [done|].
  unfold reset. change (negb TRAINING) with false. cbv iota.
  rewrite decide_True by (rewrite Hstates, length_app; simpl; lia).
  cbn [STEP_COUNTER EPISODE_COUNTER action_logs]. fold self1.
  rewrite Hupd, Ok_bind. cbn [agent_id self1]. rewrite Hlog. cbn [of_option].
  rewrite Ok_bind. fold self1. rewrite Hsave, Ok_bind. done.
Qed.

(** Appending the next episode keeps the episode numbers of the log
    increasing. *)
Lemma log_sorted_append (log : option (list episode_entry)) (episodes : Z)
    (P : Z → Prop) `{!∀ e, Decision (P e)} (entry : episode_entry) :
  log_sorted log episodes →
  num_agent entry = episodes + 1 →
  log_sorted (Some ((clear_if P <$> default [] log) ++ [entry])) (episodes + 1).
Proof.
  intros [Hs Hle] Hentry. unfold log_sorted.
  change (default [] (Some ((clear_if P <$> default [] log) ++ [entry])))
    with ((clear_if P <$> default [] log) ++ [entry]).
  assert (Hnum : num_agent <$> (clear_if P <$> default [] log) = num_agent <$> default [] log).
  { rewrite <- list_fmap_compose. apply list_fmap_ext. intros i t _. simpl.
    apply num_agent_clear_if. }
  split.
  - rewrite fmap_app, Hnum. apply StronglySorted_app_2.
    + intros x1 x2 (t & -> & Hin)%list_elem_of_fmap Hx2. simpl in Hx2.
      apply list_elem_of_singleton in Hx2 as ->.
      eapply Forall_forall in Hle; [|exact Hin]. simpl in Hle. lia.
    + done.
    + simpl. repeat constructor.
  - apply Forall_app. split.
    + apply Forall_forall. intros t' (t & -> & Hin)%list_elem_of_fmap.
      rewrite num_agent_clear_if. eapply Forall_forall in Hle; [|exact Hin].
      simpl in Hle. lia.
    + repeat constructor. lia.
Qed.

(** An episode that does not end on a checkpoint.  [reset] returns: the
    network has been trained with NUM_BATCHES more runs, the worker has one
    episode more, no steps and empty buffers, the global episode counter is
    one higher and the step counter is as it was, the files are untouched,
    and the log of the worker has one entry more, the last, which carries
    the new global and local episode numbers and one action element per
    recorded action; the summaries of the earlier entries are unchanged and
    the episode numbers of the log still increase. *)
Theorem reset_finishes_episode fs cls ses self (log : option (list episode_entry)) :
  wf_buffer function_id FUNCTIONS self →
  action_logs cls !! agent_id self = Some log →
  log_sorted log (episodes self) →
  (EPISODE_COUNTER cls + 1) `mod` CHECKPOINT ≠ 0 →
  ∃ ses' tree' entry feeds,
    reset' fs cls ses self
      = Ok (fs,
            ClassState (STEP_COUNTER cls) (EPISODE_COUNTER cls + 1)
              (<[agent_id self := Some tree']> (action_logs cls)),
            ses',
            Agent (agent_id self) (episodes self + 1) 0 [] []) ∧
    train_runs ses' = train_runs ses ++ feeds ∧ length feeds = NUM_BATCHES ∧
    last tree' = Some entry ∧
    num_global entry = EPISODE_COUNTER cls + 1 ∧
    num_agent entry = episodes self + 1 ∧
    length (actions entry) = length (replay_actions self) ∧
    summary <$> tree' = (summary <$> default [] log) ++ [summary entry] ∧
    log_sorted (Some tree') (episodes self + 1).
Proof.
  intros Hwf Hlog Hsorted Hmod.
  destruct (log_sorted_NoDup _ _ Hsorted) as [Hnd Hfresh].
  destruct (reset_episode fs cls ses self log Hwf Hlog Hnd Hfresh)
    as (ses' & total & p_loss & v_loss & states & s & trace & feeds &
        _ & _ & Hruns & Hfeeds & Htrace & Hreset).
  cbv zeta in Hreset. rewrite decide_False in Hreset by done.
  eexists ses', _, _, feeds. split; [exact Hreset|].
  split; [done|]. split; [done|]. split; [apply last_snoc|].
  split; [done|]. split; [done|]. split; [done|]. split.
  - rewrite fmap_app. f_equal. rewrite <- list_fmap_compose.
    apply list_fmap_ext. intros i t _. simpl. apply summary_clear_if.
  - by apply log_sorted_append.
Qed.

(** An episode that ends on a checkpoint (every CHECKPOINT-th global
    episode), when every other worker has a log.  [reset] returns and has
    written: the step counter and the new episode counter with the
    resolution, the network parameters as they are after the training on
    this episode, the log of this worker with the new entry, and the logs of
    the other workers. *)
Theorem reset_saves_checkpoint fs cls ses self (log : option (list episode_entry)) :
  wf_buffer function_id FUNCTIONS self →
  action_logs cls !! agent_id self = Some log →
  log_sorted log (episodes self) →
  (EPISODE_COUNTER cls + 1) `mod` CHECKPOINT = 0 →
  (∀ k, k ≠ agent_id self → action_logs cls !! k ≠ Some None) →
  ∃ fs' cls' ses' tree' entry,
    reset' fs cls ses self
      = Ok (fs', cls', ses', Agent (agent_id self) (episodes self + 1) 0 [] []) ∧
    cls' = ClassState (STEP_COUNTER cls) (EPISODE_COUNTER cls + 1)
             (<[agent_id self := Some tree']> (action_logs cls)) ∧
    last tree' = Some entry ∧
    num_global entry = EPISODE_COUNTER cls + 1 ∧
    num_agent entry = episodes self + 1 ∧
    log_sorted (Some tree') (episodes self + 1) ∧
    fs_save_path fs' = true ∧
    fs_python_vars fs' =
      Some (STEP_COUNTER cls, EPISODE_COUNTER cls + 1,
            A3C_SCREEN_SIZE_Y, A3C_SCREEN_SIZE_X) ∧
    fs_checkpoint fs' = Some (variables ses') ∧
    fs_logs fs' !! agent_id self = Some tree' ∧
    ∀ k tree, k ≠ agent_id self →
      action_logs cls !! k = Some (Some tree) → fs_logs fs' !! k = Some tree.
Proof.
  intros Hwf Hlog Hsorted Hmod Hothers.
  destruct (log_sorted_NoDup _ _ Hsorted) as [Hnd Hfresh].
  destruct (reset_episode fs cls ses self log Hwf Hlog Hnd Hfresh)
    as (ses' & total & p_loss & v_loss & states & s & trace & feeds &
        _ & _ & Hruns & Hfeeds & Htrace & Hreset).
  cbv zeta in Hreset. rewrite decide_True in Hreset by done.
  match type of Hreset with
  | _ = (_ ← save_checkpoint _ ?c _ _ _; _) => set (cls' := c) in *
  end.
  destruct (save_checkpoint_Ok fs cls' ses' (STEP_COUNTER cls) (EPISODE_COUNTER cls + 1))
    as (fs' & Hsave & Hdir & Hvars & Hckpt & Hfiles).
  { intros k. subst cls'. cbn [action_logs].
    destruct (decide (k = agent_id self)) as [->|Hne].
    - by rewrite lookup_insert_eq.
    - rewrite lookup_insert_ne by done. by apply Hothers. }
  rewrite Hsave, Ok_bind in Hreset.
  eexists fs', cls', ses', _, _. split; [exact Hreset|]. split; [done|].
  split; [apply last_snoc|]. split; [done|]. split; [done|].
  split; [by apply log_sorted_append|].
  split; [done|]. split; [done|]. split; [done|]. split.
  - rewrite Hfiles. subst cls'. cbn [action_logs]. by rewrite lookup_insert_eq.
  - intros k tree Hne Hk. rewrite Hfiles. subst cls'. cbn [action_logs].
    rewrite lookup_insert_ne by done. by rewrite Hk.
Qed.

(** An episode that ends on a checkpoint while another worker has no log
    yet: the network is trained and the episode is logged, and then the
    checkpoint fails, so [reset] raises [AttributeError]. *)
Theorem reset_checkpoint_without_log fs cls ses self (log : option (list episode_entry))
    (k : nat) :
  wf_buffer function_id FUNCTIONS self →
  action_logs cls !! agent_id self = Some log →
  log_sorted log (episodes self) →
  (EPISODE_COUNTER cls + 1) `mod` CHECKPOINT = 0 →
  k ≠ agent_id self →
  action_logs cls !! k = Some None →
  reset' fs cls ses self = Raise AttributeError.
Proof.
  intros Hwf Hlog Hsorted Hmod Hne Hk.
  destruct (log_sorted_NoDup _ _ Hsorted) as [Hnd Hfresh].
  destruct (reset_episode fs cls ses self log Hwf Hlog Hnd Hfresh)
    as (ses' & total & p_loss & v_loss & states & s & trace & feeds &
        _ & _ & _ & _ & _ & Hreset).
  cbv zeta in Hreset. rewrite decide_True in Hreset by done.
  rewrite Hreset. erewrite (save_checkpoint_without_log_aux _ _ _ _ _ k); [done|].
  cbn [action_logs]. by rewrite lookup_insert_ne.
Qed.

End ResetProperties.

(** *** Sample checkpoints and episode ends *)

Lemma sample_class_logged (k : nat) : action_logs sample_class !! k ≠ Some None.
Proof.
  unfold sample_class. cbn [action_logs]. by intros [_ ?]%lookup_singleton_Some.
Qed.

Lemma checkpoint_log_roundtrip_witness :
  ∃ (fs' : @file_system unit) cls',
    save_checkpoint (Screen:=unit) (Info:=unit) empty_fs sample_class (Session tt []) 100 500
      = Ok fs' ∧
    load_checkpoint (Screen:=unit) (Info:=unit) fs' (ClassState 0 0 ∅) (Session tt [])
      (Agent 0 0 0 [] []) []
      = Ok (cls', Session tt [], Agent 0 21 0 [] [], [], true) ∧
    cls' = ClassState 100 500 (<[0%nat := Some sample_log_21]> ∅).
Proof.
  exact (checkpoint_log_roundtrip empty_fs sample_class (ClassState 0 0 ∅) (Session tt [])
           (Session tt []) (Agent 0 0 0 [] []) [] 100 500
           (removelast sample_log_21) (List.last sample_log_21 (EpisodeEntry 0 0 0 0 0 0 0 []))
           sample_class_logged eq_refl sample_class_nonempty empty_fs_nonempty).
Defined.

Lemma sample_fresh_others (e : Z) (k : nat) :
  k ≠ 0%nat → action_logs (sample_fresh_class e) !! k ≠ Some None.
Proof.
  intros Hk. unfold sample_fresh_class. cbn [action_logs].
  by rewrite lookup_singleton_ne.
Qed.

Lemma reset_finishes_episode_witness :
  ∃ (ses' : @session unit unit unit) tree' entry feeds,
    reset sample_function_id sample_FUNCTIONS sample_nn_value sample_train
      empty_fs (sample_fresh_class 0) (Session tt []) (Agent 0 0 0 sample_states sample_actions)
      = Ok (empty_fs, ClassState 100 1 (<[0%nat := Some tree']> {[0%nat := None]}), ses',
            Agent 0 1 0 [] []) ∧
    train_runs ses' = feeds ∧ length feeds = NUM_BATCHES ∧
    last tree' = Some entry ∧ num_global entry = 1 ∧ num_agent entry = 1 ∧
    length (actions entry) = 3%nat.
Proof.
  destruct (reset_finishes_episode sample_function_id sample_FUNCTIONS sample_nn_value
              sample_train empty_fs (sample_fresh_class 0) (Session tt [])
              (Agent 0 0 0 sample_states sample_actions) None
              sample_buffer_wf eq_refl (conj (SSorted_nil _) (Forall_nil_2 _))
              ltac:(by vm_compute))
    as (ses' & tree' & entry & feeds & H1 & H2 & H3 & H4 & H5 & H6 & H7 & _).
  exists ses', tree', entry, feeds. repeat split; assumption.
Defined.

Lemma reset_saves_checkpoint_witness :
  ∃ (fs' : @file_system unit) cls' (ses' : @session unit unit unit) tree',
    reset sample_function_id sample_FUNCTIONS sample_nn_value sample_train
      empty_fs (sample_fresh_class 499) (Session tt [])
      (Agent 0 0 0 sample_states sample_actions)
      = Ok (fs', cls', ses', Agent 0 1 0 [] []) ∧
    fs_python_vars fs' = Some (100, 500, 32, 32) ∧
    fs_checkpoint fs' = Some (variables ses') ∧
    fs_logs fs' !! 0%nat = Some tree'.
Proof.
  destruct (reset_saves_checkpoint sample_function_id sample_FUNCTIONS sample_nn_value
              sample_train empty_fs (sample_fresh_class 499) (Session tt [])
              (Agent 0 0 0 sample_states sample_actions) None
              sample_buffer_wf eq_refl (conj (SSorted_nil _) (Forall_nil_2 _))
              eq_refl (sample_fresh_others 499))
    as (fs' & cls' & ses' & tree' & entry & H1 & _ & _ & _ & _ & _ & _ & H2 & H3 & H4 & _).
  exists fs', cls', ses', tree'. repeat split; assumption.
Defined.

Lemma reset_checkpoint_without_log_witness :
  reset sample_function_id sample_FUNCTIONS sample_nn_value sample_train
    empty_fs (sample_pair_class 499) (Session tt [])
    (Agent 0 0 0 sample_states sample_actions)
  = Raise AttributeError.
Proof.
  exact (reset_checkpoint_without_log sample_function_id sample_FUNCTIONS sample_nn_value
           sample_train empty_fs (sample_pair_class 499) (Session tt [])
           (Agent 0 0 0 sample_states sample_actions) None 1%nat
           sample_buffer_wf eq_refl (conj (SSorted_nil _) (Forall_nil_2 _))
           eq_refl ltac:(by vm_compute) eq_refl).
Defined.

(** ** Starting the workers *)

Section StartProperties.
Context {Screen Info Weights : Type}.
Variable initial_weights : Weights.
Implicit Types (fs : @file_system Weights) (cls : class_state).
Implicit Types (ses : @session Screen Info Weights) (self : @agent Screen Info).

(** [load_checkpoint] changes nothing of the agent but its episode count,
    and nothing of the session but the parameters. *)
Lemma load_checkpoint_agent fs cls cls' ses ses' self self' (out out' : list string)
    (loaded : bool) :
  load_checkpoint fs cls ses self out = Ok (cls', ses', self', out', loaded) →
  agent_id self' = agent_id self ∧ steps self' = steps self ∧
  replay_states self' = replay_states self ∧
  replay_actions self' = replay_actions self ∧
  train_runs ses' = train_runs ses.
Proof.
  unfold load_checkpoint. destruct (fs_save_path fs); [|done]. cbn [negb].
  intros H. apply bind_Ok in H as ([[[v0 v1] v2] v3] & _ & H).
  destruct (negb (v2 =? A3C_SCREEN_SIZE_X)); [done|].
  destruct (negb (v3 =? A3C_SCREEN_SIZE_Y)); [done|].
  apply bind_Ok in H as ([[[cls1 self1] out1] loaded1] & Hr & H).
  apply bind_Ok in H as (w & _ & H). injection H as <- <- <- <- <-.
  destruct (fs_logs fs !! agent_id self) as [tree|].
  - apply bind_Ok in Hr as (t & _ & Hr). by injection Hr as <- <- <- <-.
  - by injection Hr as <- <- <- <-.
Qed.

(** A start without saved files: all PARALLEL_THREADS workers are started,
    each fresh (no episode, no step, empty buffers); every one of them has
    the entry [None] in [action_logs], the other entries and the two
    counters are as they were, nothing is printed, and the session holds
    the initial parameters. *)
Theorem fresh_start fs cls ses :
  fs_save_path fs = false →
  ∃ cls',
    start_a3c_agent initial_weights fs cls ses
      = Ok (cls', Session initial_weights (train_runs ses),
            (λ i, Agent i 0 0 [] []) <$> seq 0 PARALLEL_THREADS, []) ∧
    STEP_COUNTER cls' = STEP_COUNTER cls ∧
    EPISODE_COUNTER cls' = EPISODE_COUNTER cls ∧
    ∀ i, action_logs cls' !! i =
           if decide (i < PARALLEL_THREADS)%nat then Some None else action_logs cls !! i.
Proof.
  intros Hdir. unfold start_a3c_agent.
  change (if negb TRAINING then 1%nat else PARALLEL_THREADS) with PARALLEL_THREADS.
  destruct (for_each_nat_total (start_agent fs)
              (λ k (st : class_state * session * list agent * list string),
                 st.1.1.2 = ses ∧ st.1.2 = (λ i, Agent i 0 0 [] []) <$> seq 0 k ∧
                 st.2 = [] ∧
                 STEP_COUNTER st.1.1.1 = STEP_COUNTER cls ∧
                 EPISODE_COUNTER st.1.1.1 = EPISODE_COUNTER cls ∧
                 ∀ i, action_logs st.1.1.1 !! i =
                        if decide (i < k)%nat then Some None else action_logs cls !! i)
              0 PARALLEL_THREADS (cls, ses, [], []))
    as ([[[cls' ses'] agents] out] & -> & Hses & Hagents & Hout & Hs & He & Hlogs).
  - cbn [fst snd]. repeat split; try done.
  - intros k [[[cls1 ses1] agents1] out1] _ (Hses & Hagents & Hout & Hs & He & Hlogs).
    cbn [fst snd] in *. subst ses1 agents1 out1.
    unfold start_agent, new_agent. rewrite Hdir.
    eexists. split; [done|]. cbn [fst snd STEP_COUNTER EPISODE_COUNTER action_logs].
    split; [done|]. split; [by rewrite seq_S, fmap_app|].
    split; [done|]. split; [done|]. split; [done|].
    intros i. destruct (decide (i = k)) as [->|Hne].
    + rewrite lookup_insert_eq. by rewrite decide_True by lia.
    + rewrite lookup_insert_ne by done. rewrite Hlogs.
      repeat case_decide; done || lia.
  - cbn [fst snd] in *. subst. rewrite Ok_bind. by exists cls'.
Qed.

(** A resume from a checkpoint of the configured resolution.  The workers
    whose log is found start with the episode count of the last entry of
    their log, no step and empty buffers, and their log is in
    [action_logs].  The session that the threads are started with holds
    the initial parameters, not the parameters of the checkpoint: the
    initialiser runs after the checkpoint has been restored. *)
Theorem resume_restores_episodes fs cls ses (s e : Z) (w : Weights) :
  fs_save_path fs = true →
  fs_python_vars fs = Some (s, e, A3C_SCREEN_SIZE_X, A3C_SCREEN_SIZE_Y) →
  fs_checkpoint fs = Some w →
  logs_nonempty fs →
  ∃ cls' ses' agents out,
    start_a3c_agent initial_weights fs cls ses = Ok (cls', ses', agents, out) ∧
    variables ses' = initial_weights ∧
    train_runs ses' = train_runs ses ∧
    Forall (λ a, ∃ tree t,
              fs_logs fs !! agent_id a = Some tree ∧ last tree = Some t ∧
              episodes a = num_agent t ∧ steps a = 0 ∧
              replay_states a = [] ∧ replay_actions a = [] ∧
              action_logs cls' !! agent_id a = Some (Some tree)) agents.
Proof.
  intros Hdir Hvars Hckpt Hne. unfold start_a3c_agent.
  change (if negb TRAINING then 1%nat else PARALLEL_THREADS) with PARALLEL_THREADS.
  destruct (for_each_nat_total (start_agent fs)
              (λ k (st : class_state * session * list agent * list string),
                 train_runs st.1.1.2 = train_runs ses ∧
                 Forall (λ a, (agent_id a < k)%nat ∧ ∃ tree t,
                           fs_logs fs !! agent_id a = Some tree ∧ last tree = Some t ∧
                           episodes a = num_agent t ∧ steps a = 0 ∧
                           replay_states a = [] ∧ replay_actions a = [] ∧
                           action_logs st.1.1.1 !! agent_id a = Some (Some tree)) st.1.2)
              0 PARALLEL_THREADS (cls, ses, [], []))
    as ([[[cls' ses'] agents] out] & -> & Hruns & Hagents).
  - cbn [fst snd]. split; [done|]. constructor.
  - intros k [[[cls1 ses1] agents1] out1] _ (Hruns & Hagents).
    cbn [fst snd] in *. unfold start_agent, new_agent. rewrite Hdir.
    destruct (load_checkpoint_Ok fs
                (ClassState (STEP_COUNTER cls1) (EPISODE_COUNTER cls1)
                   (<[k:=None]> (action_logs cls1)))
                ses1 (Agent k 0 0 [] []) out1 s e w Hdir Hvars Hckpt Hne)
      as (cls2 & self2 & out2 & Hload & _ & _ & Hlog).
    destruct (load_checkpoint_agent _ _ _ _ _ _ _ _ _ _ Hload)
      as (Hid & Hsteps & Hstates & Hacts & _).
    rewrite Hload, Ok_bind. cbn [agent_id steps replay_states replay_actions] in *.
    assert (Hold : ∀ logs' : gmap nat (option (list episode_entry)),
              (∀ i, i ≠ k → logs' !! i = action_logs cls1 !! i) →
              Forall (λ a, (agent_id a < S k)%nat ∧ ∃ tree t,
                        fs_logs fs !! agent_id a = Some tree ∧ last tree = Some t ∧
                        episodes a = num_agent t ∧ steps a = 0 ∧
                        replay_states a = [] ∧ replay_actions a = [] ∧
                        logs' !! agent_id a = Some (Some tree)) agents1).
    { intros logs' Hlogs'. eapply Forall_impl; [exact Hagents|].
      intros a (Hlt & tree & t & H1 & H2 & H3 & H4 & H5 & H6 & H7).
      split; [lia|]. exists tree, t. rewrite Hlogs' by lia. done. }
    destruct (fs_logs fs !! k) as [tree|] eqn:Elog.
    + destruct Hlog as (Hlogs & -> & _ & t & Hlast & Hep).
      rewrite bool_decide_true by done. eexists. split; [done|]. cbn [fst snd].
      split; [done|]. apply Forall_app. split.
      * apply Hold. intros i Hi. rewrite Hlogs. cbn [action_logs].
        by rewrite !lookup_insert_ne.
      * constructor; [|constructor]. rewrite Hid. split; [lia|].
        exists tree, t. rewrite Hlogs. cbn [action_logs].
        by rewrite lookup_insert_eq.
    + destruct Hlog as (Hlogs & -> & ->).
      rewrite bool_decide_false by (by intros [? ?]). eexists. split; [done|].
      cbn [fst snd]. split; [done|].
      apply Hold. intros i Hi. rewrite Hlogs. cbn [action_logs].
      by rewrite lookup_insert_ne.
  - rewrite Ok_bind. cbn [fst snd] in *. eexists _, _, _, _. split; [done|].
    split; [done|]. split; [done|].
    eapply Forall_impl; [exact Hagents|]. by intros a (_ & ?).
Qed.

End StartProperties.

Lemma fresh_start_witness :
  ∃ cls',
    start_a3c_agent (Screen:=unit) (Info:=unit) tt empty_fs (ClassState 0 0 ∅) (Session tt [])
      = Ok (cls', Session tt [], (λ i, Agent i 0 0 [] []) <$> seq 0 PARALLEL_THREADS, []) ∧
    STEP_COUNTER cls' = 0 ∧ EPISODE_COUNTER cls' = 0 ∧
    ∀ i, action_logs cls' !! i =
           if decide (i < PARALLEL_THREADS)%nat then Some None
           else (∅ : gmap nat (option (list episode_entry))) !! i.
Proof.
  exact (fresh_start tt empty_fs (ClassState 0 0 ∅) (Session tt []) eq_refl).
Defined.

Lemma resume_restores_episodes_witness :
  ∃ cls' (ses' : @session unit unit unit) agents out,
    start_a3c_agent tt sample_resume_fs (ClassState 0 0 ∅) (Session tt [])
      = Ok (cls', ses', agents, out) ∧
    variables ses' = tt ∧
    train_runs ses' = [] ∧
    Forall (λ a, ∃ tree t,
              fs_logs sample_resume_fs !! agent_id a = Some tree ∧ last tree = Some t ∧
              episodes a = num_agent t ∧ steps a = 0 ∧
              replay_states a = [] ∧ replay_actions a = [] ∧
              action_logs cls' !! agent_id a = Some (Some tree)) agents.
Proof.
  exact (resume_restores_episodes tt sample_resume_fs (ClassState 0 0 ∅) (Session tt [])
           100 500 tt eq_refl eq_refl eq_refl sample_resume_fs_nonempty).
Defined.

(** ** The rows of the target arrays *)

Lemma for_each_app {A S} (xs ys : list A) (body : A → S → result S) (s : S) :
  for_each (xs ++ ys) body s = (s' ← for_each xs body s; for_each ys body s').
Proof.
  revert s. induction xs as [|x xs IH]; intros s; simpl; [done|].
  destruct (body x s) as [s1|e]; simpl; [apply IH|done].
Qed.

Lemma setitem2_nat_inv (a a' : list (list Q)) (i : nat) (j : Z) (v : Q) :
  setitem2 a (Z.of_nat i) j v = Ok a' →
  ∃ row c, a !! i = Some row ∧ py_index (length row) j = Ok c ∧
    a' = <[i := <[c := v]> row]> a.
Proof.
  unfold setitem2. intros H.
  apply bind_Ok in H as (row & Hrow & H). apply getitem_nat_inv in Hrow.
  apply bind_Ok in H as (row' & Hrow' & H).
  apply setitem_nat_inv in H as [_ ->].
  unfold setitem in Hrow'. apply bind_Ok in Hrow' as (c & Hc & [= <-]).
  by exists row, c.
Qed.

Section TargetRows.
Context {Screen Info : Type}.
Variable function_id : sc2_function → Z.
Variable FUNCTIONS : Z → option function_info.
Implicit Types (t : @targets Screen Info) (states : list (@replay_state Screen Info)).

(** The legality mask: position [j] is set when some valid action has
    index [j] among the executable ones, and is left alone otherwise. *)
Lemma valid_loop_spec (valid_actions : list Z) (l0 l : list Q) :
  for_each valid_actions
    (λ j indices, k ← list_index j (executable_actions_ids function_id);
                  setitem indices k 1%Q) l0 = Ok l →
  length l = length l0 ∧
  (∀ j : nat,
     (∃ id, id ∈ valid_actions ∧
        list_index id (executable_actions_ids function_id) = Ok (Z.of_nat j)) →
     l !! j = Some 1%Q) ∧
  (∀ j : nat,
     (∀ id, id ∈ valid_actions →
        list_index id (executable_actions_ids function_id) ≠ Ok (Z.of_nat j)) →
     l !! j = l0 !! j).
Proof.
  revert l. induction valid_actions as [|id va IH] using rev_ind; intros l H.
  - injection H as <-. split; [done|]. split; [|done].
    intros j (id & Hid & _). by apply elem_of_nil in Hid.
  - rewrite for_each_app in H. apply bind_Ok in H as (l1 & Hl1 & H).
    destruct (IH l1 Hl1) as (Hlen & Hset & Hkeep).
    cbn [for_each] in H. apply bind_Ok in H as (l2 & H & [= <-]).
    apply bind_Ok in H as (k & Hk & H).
    destruct (list_index_lookup _ _ _ Hk) as [Hk0 _].
    rewrite <- (Z2Nat.id k) in H, Hk by done.
    apply setitem_nat_inv in H as [Hlt ->].
    split; [by rewrite length_insert|]. split.
    + intros j (id' & [Hin|Hin]%elem_of_app & Hj).
      * destruct (decide (j = Z.to_nat k)) as [->|Hne].
        -- by rewrite list_lookup_insert_eq.
        -- rewrite list_lookup_insert_ne by done. apply Hset. by exists id'.
      * apply list_elem_of_singleton in Hin as ->.
        assert (j = Z.to_nat k) as -> by (rewrite Hk in Hj; injection Hj; lia).
        by rewrite list_lookup_insert_eq.
    + intros j Hnone.
      assert (j ≠ Z.to_nat k) as Hne.
      { intros ->. apply (Hnone id); [|done].
        apply elem_of_app. right. by apply list_elem_of_singleton. }
      rewrite list_lookup_insert_ne by done. apply Hkeep.
      intros id' Hin. apply Hnone. apply elem_of_app. by left.
Qed.

(** The spatial flag and the spatial one-hot of one transition. *)
Lemma mark_spatial_spec (i : nat) (target : Z * Z) (args : list string)
    (hs hs' : list Q) (ss ss' : list (list Q)) :
  mark_spatial (Z.of_nat i) target args (hs, ss) = Ok (hs', ss') →
  if existsb in_screen args then
    hs' = <[i := 1%Q]> hs ∧
    ∃ row c, ss !! i = Some row ∧ py_index (length row) (spatial_index target) = Ok c ∧
      ss' = <[i := <[c := 1%Q]> row]> ss
  else hs' = hs ∧ ss' = ss.
Proof.
  unfold mark_spatial. revert hs ss.
  induction args as [|arg args IH]; intros hs ss H.
  - by injection H as <- <-.
  - cbn [for_each existsb] in *. apply bind_Ok in H as ([h1 s1] & Hbody & H).
    specialize (IH h1 s1 H). destruct (in_screen arg) eqn:Earg.
    + apply bind_Ok in Hbody as (h & Hh & Hbody).
      apply bind_Ok in Hbody as (s & Hs & [= <- <-]).
      apply setitem_nat_inv in Hh as [Hlt ->].
      apply setitem2_nat_inv in Hs as (row & c & Hrow & Hc & ->).
      cbn [orb]. destruct (existsb in_screen args).
      * destruct IH as (-> & row1 & c1 & Hrow1 & Hc1 & ->).
        rewrite list_lookup_insert_eq in Hrow1 by (by eapply lookup_lt_Some).
        injection Hrow1 as <-. rewrite length_insert in Hc1.
        assert (c1 = c) as -> by congruence.
        rewrite !list_insert_insert_eq. split; [done|]. by exists row, c.
      * destruct IH as [-> ->]. split; [done|]. by exists row, c.
    + injection Hbody as <- <-. done.
Qed.

Lemma target_row_ext (a : replay_action) t t' (i : nat) :
  non_spatial_action_selected t' !! i = non_spatial_action_selected t !! i →
  valid_non_spatial_action t' !! i = valid_non_spatial_action t !! i →
  has_spatial_action t' !! i = has_spatial_action t !! i →
  spatial_action_selected t' !! i = spatial_action_selected t !! i →
  target_row function_id FUNCTIONS a t i → target_row function_id FUNCTIONS a t' i.
Proof.
  intros E1 E2 E3 E4 (f & idx & row & Hf & Hidx & H1 & H2 & H3 & H4 & H5 & H6).
  exists f, idx, row. rewrite E1, E2. repeat (split; [done|]).
  rewrite E3, E4. done.
Qed.

Lemma rows_inv_init states (acts : list replay_action) (R : Q) t :
  init_targets function_id (length states) R = Ok t →
  rows_inv function_id FUNCTIONS states acts 0 t.
Proof.
  intros H. split; [eapply init_targets_shape; exact H|]. split; [|intros; lia].
  unfold init_targets in H. apply bind_Ok in H as (c & _ & H).
  apply bind_Ok in H as (u & _ & [= <-]).
  cbn [has_spatial_action spatial_action_selected non_spatial_action_selected].
  intros i Hi. unfold zeros2. unfold zeros at 1.
  rewrite !lookup_replicate_2 by lia. done.
Qed.

Lemma rows_inv_step states (acts : list replay_action) (k : nat) t t' :
  (k < length states)%nat →
  rows_inv function_id FUNCTIONS states acts k t →
  update_body function_id FUNCTIONS states acts (Z.of_nat k) t = Ok t' →
  rows_inv function_id FUNCTIONS states acts (S k) t'.
Proof.
  intros Hk (Hshape & Hzero & Hrows) Hbody.
  split; [eapply update_body_shape; [exact Hbody|exact Hshape]|].
  destruct Hshape as (_ & _ & Hh & Hs & _ & Hv & Hn & _).
  unfold update_body in Hbody.
  apply bind_Ok in Hbody as (s & _ & H).
  apply bind_Ok in H as (cu & _ & H).
  apply bind_Ok in H as (a & Ha & H). apply getitem_nat_inv in Ha.
  apply bind_Ok in H as (indices & Hind & H).
  apply bind_Ok in H as (valid & Hvalid & H).
  apply setitem_nat_inv in Hvalid as [_ ->].
  apply bind_Ok in H as (j & Hj & H).
  destruct (list_index_lookup _ _ _ Hj) as [Hj0 _].
  rewrite <- (Z2Nat.id j) in H, Hj by done.
  apply bind_Ok in H as (selected & Hsel & H).
  apply setitem2_nat_inv in Hsel as (row & c & Hrow & Hc & ->).
  apply bind_Ok in H as (f & Hf & H).
  destruct (FUNCTIONS (ra0_action_id a)) as [f'|] eqn:Ef; [|done].
  injection Hf as ->.
  apply bind_Ok in H as ([hs ss] & Hmark & [= <-]).
  apply mark_spatial_spec in Hmark.
  destruct (Hzero k ltac:(lia)) as (Hh0 & Hs0 & Hn0).
  rewrite Hn0 in Hrow. injection Hrow as <-.
  apply py_index_nonneg in Hc; [|lia]. rewrite Nat2Z.id in Hc. subst c.
  cbn [has_spatial_action spatial_action_selected valid_non_spatial_action
       non_spatial_action_selected fst snd].
  assert (Hhs : ∀ i, i ≠ k → hs !! i = has_spatial_action t !! i).
  { intros i Hi. destruct (existsb in_screen (fn_args f)).
    - destruct Hmark as (-> & _). by rewrite list_lookup_insert_ne.
    - by destruct Hmark as [-> _]. }
  assert (Hss : ∀ i, i ≠ k → ss !! i = spatial_action_selected t !! i).
  { intros i Hi. destruct (existsb in_screen (fn_args f)).
    - destruct Hmark as (_ & row & c & _ & _ & ->). by rewrite list_lookup_insert_ne.
    - by destruct Hmark as [_ ->]. }
  split.
  - intros i Hi. rewrite Hhs, Hss by lia. rewrite list_lookup_insert_ne by lia.
    apply Hzero. lia.
  - intros i a' Hi Ha'. destruct (decide (i = k)) as [->|Hne].
    + assert (a' = a) as -> by congruence.
      destruct (valid_loop_spec _ _ _ Hind) as (Hlen & Hset & Hkeep).
      rewrite length_replicate in Hlen.
      exists f, (Z.to_nat j), indices.
      cbn [non_spatial_action_selected valid_non_spatial_action has_spatial_action
           spatial_action_selected].
      split; [done|]. split; [done|].
      split; [by rewrite list_lookup_insert_eq by lia|].
      split; [by rewrite list_lookup_insert_eq by lia|].
      split; [done|]. split; [done|]. split.
      { intros j' Hj' Hnone. rewrite (Hkeep j' Hnone).
        by apply lookup_replicate_2. }
      destruct (existsb in_screen (fn_args f)).
      * destruct Hmark as (-> & row & c & Hrow & Hc & ->).
        rewrite Hs0 in Hrow. injection Hrow as <-.
        unfold zeros in Hc at 1. rewrite length_replicate in Hc.
        split; [by rewrite list_lookup_insert_eq by lia|].
        exists c. split; [done|]. by rewrite list_lookup_insert_eq by lia.
      * by destruct Hmark as [-> ->].
    + apply (target_row_ext a' t); cbn [non_spatial_action_selected
         valid_non_spatial_action has_spatial_action spatial_action_selected].
      * by rewrite list_lookup_insert_ne.
      * by rewrite list_lookup_insert_ne.
      * by apply Hhs.
      * by apply Hss.
      * apply Hrows; [lia|done].
Qed.

(** Every row of the arrays that [update] feeds to the network describes
    the action recorded at that position of the (reversed) buffer: the
    selected-action row is the one-hot of the action's position in
    [executable_actions_ids]; the legality row holds 1 at the positions of
    the recorded valid actions and 0 elsewhere; and the spatial flag with the
    one-hot of the cell [target[1] * SIZE_Y + target[0]] is set exactly when
    the function of the action has an argument whose name is a part of
    the word screen. *)
Theorem target_rows (R : Q) states (acts : list replay_action) t :
  compute_targets function_id FUNCTIONS R states acts = Ok t →
  ∀ i a, (i < length states)%nat → acts !! i = Some a →
    target_row function_id FUNCTIONS a t i.
Proof.
  unfold compute_targets. intros H.
  apply bind_Ok in H as (t0 & Ht0 & H).
  assert (rows_inv function_id FUNCTIONS states acts (length states) t) as (_ & _ & Hrows).
  { revert H. apply for_each_range_inv
      with (P := rows_inv function_id FUNCTIONS states acts).
    - by apply (rows_inv_init _ _ R).
    - intros k s s' Hk Hinv Hbody. by apply (rows_inv_step _ _ _ s). }
  exact Hrows.
Qed.

End TargetRows.

Lemma target_rows_witness :
  target_row sample_function_id sample_FUNCTIONS sample_no_op sample_targets 0.
Proof.
  exact (target_rows sample_function_id sample_FUNCTIONS 10 (reverse sample_states)
           (reverse sample_actions) sample_targets sample_targets_eq 0%nat sample_no_op
           ltac:(vm_compute; lia) eq_refl).
Defined.

(** ** The size of a log *)

Lemma size_list_to_set_le (l : list Z) : (size (list_to_set l : gset Z) ≤ length l)%nat.
Proof.
  induction l as [|x l IH]; [done|]. rewrite list_to_set_cons. simpl.
  destruct (decide (x ∈ (list_to_set l : gset Z))) as [Hin|Hout].
  - rewrite (subseteq_union_1_L (C:=gset Z) {[x]} (list_to_set l))
      by (by apply singleton_subseteq_l).
    lia.
  - rewrite size_union by (by apply disjoint_singleton_l).
    rewrite size_singleton. lia.
Qed.

Section LogSize.
Context {Screen Info : Type}.
Variable FUNCTIONS : Z → option function_info.
Implicit Types (self : @agent Screen Info).

Lemma retained_set_size (tree : list episode_entry) self (s : replay_state) :
  (size (retained_set tree self s) ≤ 3 * DETAILED_LOGS)%nat.
Proof.
  unfold retained_set, kept_episodes.
  etrans; [apply size_list_to_set_le|].
  rewrite length_app, length_fmap, length_app, !length_take, length_seqZ.
  unfold DETAILED_LOGS. lia.
Qed.

(** However long a worker's log grows, after each append at most
    3 * DETAILED_LOGS = 30 of its episodes carry action elements: the
    episodes that still have a trace lie in the retained set, which is built
    from three lists of at most DETAILED_LOGS episode numbers. *)
Theorem trace_bound (log : option (list episode_entry)) self
    (states : list replay_state) (s : replay_state)
    (num_episode : Z) (reward policy_loss value_loss : Q) :
  replay_states self = states ++ [s] →
  loggable FUNCTIONS self →
  NoDup (num_agent <$> default [] log) →
  episodes self ∉ (num_agent <$> default [] log) →
  ∃ tree',
    save_action_log FUNCTIONS log self num_episode reward policy_loss value_loss = Ok tree' ∧
    length tree' = S (length (default [] log)) ∧
    (length (filter (λ t, actions t ≠ []) tree') ≤ 3 * DETAILED_LOGS)%nat.
Proof.
  intros Hstates Hlog Hnd Hfresh.
  destruct (save_action_log_appends FUNCTIONS log self states s num_episode reward
              policy_loss value_loss Hstates Hlog Hnd Hfresh)
    as (trace & _ & _ & Hsave).
  set (tree := default [] log) in *.
  set (kept := retained_set tree self s) in *.
  eexists. split; [exact Hsave|].
  split; [rewrite length_app, length_fmap; simpl; lia|].
  match goal with |- (length (filter _ ?l) ≤ _)%nat => set (tree' := l) end.
  assert (Hnum : num_agent <$> tree' = (num_agent <$> tree) ++ [episodes self]).
  { unfold tree'. rewrite fmap_app, <- list_fmap_compose. f_equal.
    apply list_fmap_ext. intros i t _. simpl. apply num_agent_clear_if. }
  assert (Hnd' : NoDup (num_agent <$> filter (λ t, actions t ≠ []) tree')).
  { eapply sublist_NoDup; [|apply fmap_sublist, sublist_filter].
    rewrite Hnum. apply NoDup_app. split; [done|]. split; [|apply NoDup_singleton].
    intros e He ->%list_elem_of_singleton. done. }
  rewrite <- (length_fmap num_agent), <- (size_list_to_set (C:=gset Z)) by done.
  etrans; [|apply (retained_set_size tree self s)].
  apply subseteq_size. intros e He. rewrite elem_of_list_to_set in He.
  apply list_elem_of_fmap in He as (t & -> & [Hact Ht]%list_elem_of_filter).
  unfold tree' in Ht. apply elem_of_app in Ht as [Ht|Ht].
  - apply list_elem_of_fmap in Ht as (t0 & -> & _). rewrite num_agent_clear_if.
    unfold clear_if in Hact. case_decide as Hdec; [done|].
    exact Hdec.
  - apply list_elem_of_singleton in Ht as ->. apply new_episode_kept.
Qed.

End LogSize.

Lemma trace_bound_witness :
  ∃ tree',
    save_action_log sample_FUNCTIONS sample_log_20 (sample_log_agent 21 0) 21 0 0 0
      = Ok tree' ∧
    length tree' = 21%nat ∧
    (length (filter (λ t, actions t ≠ []) tree') ≤ 30)%nat.
Proof.
  exact (trace_bound sample_FUNCTIONS sample_log_20 (sample_log_agent 21 0)
           [] (ReplayState tt tt 0 0 0 true) 21 0 0 0 eq_refl
           (sample_log_agent_loggable 21 0) sample_log_20_NoDup sample_log_20_fresh).
Defined.

(** ** The training runs of an update *)

Section TrainingRuns.
Context {Screen Info Weights : Type}.
Variable function_id : sc2_function → Z.
Variable FUNCTIONS : Z → option function_info.
Variable nn_value : Weights → Screen → Info → Q.
Variable train : Weights → @feed Screen Info → Weights * (Q * Q).
Implicit Types (ses : @session Screen Info Weights) (self : @agent Screen Info).

Lemma run_feeds_snoc (w : Weights) (feeds : list feed) (f : feed) :
  run_feeds train w (feeds ++ [f]) =
    let '(w1, losses) := run_feeds train w feeds in
    let '(w2, loss) := train w1 f in (w2, losses ++ [loss]).
Proof.
  revert w. induction feeds as [|f0 feeds IH]; intros w; simpl.
  - by destruct (train w f).
  - destruct (train w f0) as [w' loss0]. rewrite IH.
    destruct (run_feeds train w' feeds) as [w1 losses].
    by destruct (train w1 f).
Qed.

Lemma train_loop_runs ses ses' (b : batches) (learning_rate : Q) (losses : list (Q * Q)) :
  for_each (range NUM_BATCHES) (train_body train b learning_rate) (ses, []) = Ok (ses', losses) →
  ∃ feeds, train_runs ses' = train_runs ses ++ feeds ∧
    run_feeds train (variables ses) feeds = (variables ses', losses).
Proof.
  intros H.
  apply (for_each_range_inv (train_body train b learning_rate)
           (λ _ (st : session * list (Q * Q)),
              ∃ feeds, train_runs st.1 = train_runs ses ++ feeds ∧
                run_feeds train (variables ses) feeds = (variables st.1, st.2))
           NUM_BATCHES (ses, []) (ses', losses)); [| |exact H].
  - exists []. by rewrite app_nil_r.
  - intros k [ses1 losses1] [ses2 losses2] _ (feeds & Hruns & Hfeeds) Hbody.
    cbn [fst snd] in *. unfold train_body in Hbody.
    apply bind_Ok in Hbody as (fd & _ & Hbody). cbn [fst snd] in Hbody.
    destruct (train (variables ses1) fd) as [w [p_loss v_loss]] eqn:Etrain.
    injection Hbody as <- <-. exists (feeds ++ [fd]). cbn [train_runs variables].
    split; [by rewrite Hruns, app_assoc|].
    by rewrite run_feeds_snoc, Hfeeds, Etrain.
Qed.

(** The NUM_BATCHES training runs of an update are issued one after the
    other, each on the parameters the previous run left, so the session
    ends with the parameters of the last run; the two losses that [update]
    returns are the plain means of the losses of the NUM_BATCHES runs,
    whatever the sizes of the batches. *)
Theorem update_trains_in_order (STEP_COUNTER : Z) ses ses' self self'
    (total p_loss v_loss : Q) :
  update function_id FUNCTIONS nn_value train STEP_COUNTER ses self
    = Ok (ses', self', (total, p_loss, v_loss)) →
  ∃ feeds,
    train_runs ses' = train_runs ses ++ feeds ∧
    length feeds = NUM_BATCHES ∧
    variables ses' = (run_feeds train (variables ses) feeds).1 ∧
    length (run_feeds train (variables ses) feeds).2 = NUM_BATCHES ∧
    p_loss = np_mean (run_feeds train (variables ses) feeds).2.*1 ∧
    v_loss = np_mean (run_feeds train (variables ses) feeds).2.*2.
Proof.
  intros (R & t & b & losses & _ & _ & Hb & Hloop & _ & _ & -> & ->)%update_inv.
  destruct (train_loop_runs _ _ _ _ _ Hloop) as (feeds & Hruns & Hfeeds).
  destruct (split_targets_spec t) as (b' & Hb' & Hbatches).
  assert (b' = b) as -> by congruence.
  destruct (train_loop_spec train ses t b (learning_rate_at STEP_COUNTER) Hbatches)
    as (ses1 & losses1 & feeds1 & Hloop1 & Hruns1 & Hlosses & Hare).
  assert (ses1 = ses' ∧ losses1 = losses) as [-> ->] by (split; congruence).
  assert (feeds1 = feeds) as -> by (rewrite Hruns in Hruns1; by apply app_inv_head in Hruns1).
  exists feeds. rewrite Hfeeds. cbn [fst snd]. split; [done|]. split; [|done].
  destruct Hare as (Hf & _). apply (f_equal length) in Hf.
  rewrite length_fmap, length_take in Hf. destruct Hbatches as ((Hl & _) & _). lia.
Qed.

End TrainingRuns.

Lemma update_trains_in_order_witness :
  ∃ feeds,
    train_runs sample_outcome.1.1 = [] ++ feeds ∧
    length feeds = NUM_BATCHES ∧
    variables sample_outcome.1.1 = (run_feeds sample_train tt feeds).1 ∧
    length (run_feeds sample_train tt feeds).2 = NUM_BATCHES ∧
    sample_outcome.2.1.2 = np_mean (run_feeds sample_train tt feeds).2.*1 ∧
    sample_outcome.2.2 = np_mean (run_feeds sample_train tt feeds).2.*2.
Proof.
  exact (update_trains_in_order sample_function_id sample_FUNCTIONS sample_nn_value
           sample_train 0 (Session tt []) _ _ _ _ _ _ sample_update_eq).
Defined.
